(** * vslcpy: the AST model (ast.py) and the AST-to-IR lowering (codegen.py)

    A shallow embedding of the Python sources.  Python objects are one
    inductive universe [obj]; the AST node constructors are the [__init__]
    methods with their [assert] statements; the code generator is a function
    in a state-and-exception monad over the attributes of
    [LLVMCodeGenerator] and the part of llvmlite's [ir] objects that the
    generator touches.  Besides them the file holds the [to_json] methods
    of ast.py, the semantic actions of yacc.py, and [find_column], [t_ID],
    [predict_start] and [_iscommand] of lex.py, utils.py and vslc.py. *)

From Stdlib Require Import String Ascii List Bool Arith Lia Floats.
From stdpp Require Import base option list gmap strings.

Set Warnings "-register-all".

Local Open Scope string_scope.

(** ** Exceptions *)

(** The argument tuples with which codegen.py raises [CodegenError]. *)
Inductive CodegenErrorArgs : Type :=
| NameNotDefined (name : string)
    (* "NameError: name '{}' is not defined" *)
| CallToUnknownFunction (name : string)
    (* 'Call to unknown function', node.name *)
| CallArgumentLengthMismatch (n : nat) (name : string)
    (* 'Call argument length', len(node.argument_list), 'mismatch', node.name *)
| RedefinitionOfFunction (name : string)
    (* 'Redefinition of function: {}' *)
| NoSuchOperator (op : string).
    (* 'No such operator: {}' *)

(** Python exceptions that the modelled code can raise.  Only [CodegenError]
    is the generator's own error class; the others are raised by the Python
    runtime or by llvmlite. *)
Inductive exn : Type :=
| CodegenError (args : CodegenErrorArgs)
| AssertionError
| AttributeError (attr : string)
| KeyError (key : string)
| TypeError (what : string)
| ValueError (what : string)
| IndexError
| DuplicatedNameError (name : string)
| UnicodeDecodeError.

Inductive Result (A : Type) : Type :=
| Ok (a : A)
| Raise (e : exn).
Arguments Ok {A} a.
Arguments Raise {A} e.

Definition is_AttributeError {A} (r : Result A) : bool :=
  match r with Raise (AttributeError _) => true | _ => false end.

(** ** Python objects and AST nodes (ast.py) *)

(** class ID(Expression): [name] is asserted to be a [str]; [minus_flag] is
    the attribute every Expression carries. *)
Record ID : Type := mkID { id_name : string; id_minus_flag : bool }.

(** Every Python object the modelled code handles.  The AST classes keep the
    attribute names of ast.py.  An attribute is typed where its constructor
    asserts a built-in type or [ID] for it, and is an [obj] wherever the
    generator only ever dispatches on it dynamically. *)
Inductive obj : Type :=
| PyNone
| PyStr (s : string)
| PyFloat (x : float)
| PyList (items : list obj)
| Program (function_list : list obj)
| FunctionDefinition (name : ID) (parameter_list : list ID) (body : obj)
| Block (declaration_list statement_list : list obj)
| VariableDeclaration (variable_list : list ID)
| AssignStatement (left_variable : ID) (right_expression : obj)
| IfStatement (test then_block else_block : obj)
| WhileStatement (test block : obj)
| ReturnStatement (expression : obj)
| PrintStatement (print_list : list obj)
| BinaryOperation (minus_flag : bool) (left_expression : obj)
                  (operator : string) (right_expression : obj)
| Number (minus_flag : bool) (value : float)
| Ident (i : ID)
| FunctionCall (minus_flag : bool) (name : ID) (argument_list : option (list obj))
| Text (value : string).

(** [node.__class__.__name__] *)
Definition class_name (o : obj) : string :=
  match o with
  | PyNone => "NoneType"
  | PyStr _ => "str"
  | PyFloat _ => "float"
  | PyList _ => "list"
  | Program _ => "Program"
  | FunctionDefinition _ _ _ => "FunctionDefinition"
  | Block _ _ => "Block"
  | VariableDeclaration _ => "VariableDeclaration"
  | AssignStatement _ _ => "AssignStatement"
  | IfStatement _ _ _ => "IfStatement"
  | WhileStatement _ _ => "WhileStatement"
  | ReturnStatement _ => "ReturnStatement"
  | PrintStatement _ => "PrintStatement"
  | BinaryOperation _ _ _ _ => "BinaryOperation"
  | Number _ _ => "Number"
  | Ident _ => "ID"
  | FunctionCall _ _ _ => "FunctionCall"
  | Text _ => "Text"
  end.

(** [isinstance(o, C)] for the classes of ast.py; the subclass relation is
    the one the [class] statements declare. *)
Definition is_Expression (o : obj) : bool :=
  match o with
  | BinaryOperation _ _ _ _ | Number _ _ | Ident _ | FunctionCall _ _ _ => true
  | _ => false
  end.

Definition is_Statement (o : obj) : bool :=
  match o with
  | AssignStatement _ _ | IfStatement _ _ _ | WhileStatement _ _
  | ReturnStatement _ | PrintStatement _ => true
  | _ => false
  end.

Definition is_ID (o : obj) : bool :=
  match o with Ident _ => true | _ => false end.
Definition is_Block (o : obj) : bool :=
  match o with Block _ _ => true | _ => false end.
Definition is_Text (o : obj) : bool :=
  match o with Text _ => true | _ => false end.
Definition is_FunctionDefinition (o : obj) : bool :=
  match o with FunctionDefinition _ _ _ => true | _ => false end.
Definition is_VariableDeclaration (o : obj) : bool :=
  match o with VariableDeclaration _ => true | _ => false end.

(** Python truth value of an object: [None], empty strings and lists and the
    float zero are false; instances of the AST classes define neither
    [__bool__] nor [__len__] and are true. *)
Definition truthy (o : obj) : bool :=
  match o with
  | PyNone => false
  | PyStr s => negb (String.eqb s "")
  | PyFloat x => negb (PrimFloat.eqb x 0%float)
  | PyList l => match l with [] => false | _ => true end
  | _ => true
  end.

(** Iterating an object with [for ... in]: lists yield their items, strings
    their characters, nothing else the model contains is iterable. *)
Definition iterate (o : obj) : Result (list obj) :=
  match o with
  | PyList l => Ok l
  | PyStr s => Ok (map (fun c => PyStr (String c EmptyString)) (list_ascii_of_string s))
  | _ => Raise (TypeError "object is not iterable")
  end.

(** def only_contains(_list, _type) *)
Definition only_contains (_list : obj) (_type : obj -> bool) : Result bool :=
  match iterate _list with
  | Ok l => Ok (forallb _type l)
  | Raise e => Raise e
  end.

(** [assert only_contains(l, C)], with the items of [l] as the result when
    the assertion holds. *)
Definition assert_only_contains (_list : obj) (_type : obj -> bool) : Result (list obj) :=
  match only_contains _list _type with
  | Ok true => iterate _list
  | Ok false => Raise AssertionError
  | Raise e => Raise e
  end.

(** The [ID] objects of a list that has passed [only_contains(_, ID)]. *)
Definition the_IDs (l : list obj) : list ID :=
  omap (fun o => match o with Ident i => Some i | _ => None end) l.

Module Init.

(** The [__init__] methods.  Each returns the constructed node, or the
    exception its assertions raise. *)

Definition Program (function_list : obj) : Result obj :=
  match assert_only_contains function_list is_FunctionDefinition with
  | Ok l => Ok (Program l)
  | Raise e => Raise e
  end.

Definition FunctionDefinition (name parameter_list body : obj) : Result obj :=
  match name with
  | Ident n =>
      match assert_only_contains parameter_list is_ID with
      | Ok l => if is_Block body
                then Ok (FunctionDefinition n (the_IDs l) body)
                else Raise AssertionError
      | Raise e => Raise e
      end
  | _ => Raise AssertionError
  end.

Definition Block (declaration_list statement_list : obj) : Result obj :=
  match assert_only_contains declaration_list is_VariableDeclaration with
  | Ok ds =>
      match assert_only_contains statement_list is_Statement with
      | Ok ss => Ok (Block ds ss)
      | Raise e => Raise e
      end
  | Raise e => Raise e
  end.

Definition VariableDeclaration (variable_list : obj) : Result obj :=
  match assert_only_contains variable_list is_ID with
  | Ok l => Ok (VariableDeclaration (the_IDs l))
  | Raise e => Raise e
  end.

Definition AssignStatement (left_variable right_expression : obj) : Result obj :=
  match left_variable with
  | Ident x =>
      if is_Expression right_expression
      then Ok (AssignStatement x right_expression)
      else Raise AssertionError
  | _ => Raise AssertionError
  end.

(** [else_block] defaults to [None]; it is only checked when it is true. *)
Definition IfStatement (test then_block else_block : obj) : Result obj :=
  if negb (is_Expression test) then Raise AssertionError
  else if negb (is_Block then_block) then Raise AssertionError
  else if truthy else_block && negb (is_Block else_block) then Raise AssertionError
  else Ok (IfStatement test then_block else_block).

Definition WhileStatement (test block : obj) : Result obj :=
  if negb (is_Expression test) then Raise AssertionError
  else if negb (is_Block block) then Raise AssertionError
  else Ok (WhileStatement test block).

Definition ReturnStatement (expression : obj) : Result obj :=
  if is_Expression expression then Ok (ReturnStatement expression)
  else Raise AssertionError.

(** assert isinstance(print_list, list)
    # Though print_list should only contain expression and TEXT *)
Definition PrintStatement (print_list : obj) : Result obj :=
  match print_list with
  | PyList l => Ok (PrintStatement l)
  | _ => Raise AssertionError
  end.

(** The class attribute [minus_flag = False] is what a new Expression
    reads.  Only [left_expression] and [operator] are asserted. *)
Definition BinaryOperation (left_expression operator right_expression : obj) : Result obj :=
  if negb (is_Expression left_expression) then Raise AssertionError
  else match operator with
       | PyStr op =>
           if existsb (String.eqb op) ["+"; "-"; "*"; "/"]
           then Ok (BinaryOperation false left_expression op right_expression)
           else Raise AssertionError
       | _ => Raise AssertionError
       end.

Definition Number (value : obj) : Result obj :=
  match value with
  | PyFloat x => Ok (Number false x)
  | _ => Raise AssertionError
  end.

Definition ID (name : obj) : Result obj :=
  match name with
  | PyStr s => Ok (Ident (mkID s false))
  | _ => Raise AssertionError
  end.

Definition FunctionCall (name argument_list : obj) : Result obj :=
  match name with
  | Ident n =>
      match argument_list with
      | PyNone => Ok (FunctionCall false n None)
      | _ =>
          match assert_only_contains argument_list is_Expression with
          | Ok l => Ok (FunctionCall false n (Some l))
          | Raise e => Raise e
          end
      end
  | _ => Raise AssertionError
  end.

Definition Text (value : obj) : Result obj :=
  match value with
  | PyStr s => Ok (Text s)
  | _ => Raise AssertionError
  end.

End Init.

(** Expression.change_minus_flag: [self.minus_flag = not self.minus_flag].
    The method mutates the node and returns [None]; here the mutated node is
    the result.  Objects that are not Expressions have no such method. *)
Definition change_minus_flag (self : obj) : Result obj :=
  match self with
  | BinaryOperation f l op r => Ok (BinaryOperation (negb f) l op r)
  | Number f v => Ok (Number (negb f) v)
  | Ident i => Ok (Ident (mkID (id_name i) (negb (id_minus_flag i))))
  | FunctionCall f n a => Ok (FunctionCall (negb f) n a)
  | _ => Raise (AttributeError "change_minus_flag")
  end.

(** yacc.py, p_expression_uminus: [p[0] = p[2].change_minus_flag()].  The
    pair is the operand after the call and the value bound to [p[0]], which
    is the method's return value [None]. *)
Definition p_expression_uminus (p2 : obj) : Result (obj * obj) :=
  match change_minus_flag p2 with
  | Ok p2' => Ok (p2', PyNone)
  | Raise e => Raise e
  end.

(** [len(s)] for a Python [str].  A [str] is held as its UTF-8 bytes, and
    its characters are counted as the bytes that do not continue one. *)
Definition is_continuation_byte (c : ascii) : bool :=
  match c with
  | Ascii _ _ _ _ _ _ b6 b7 => b7 && negb b6
  end.

Fixpoint py_len (s : string) : nat :=
  match s with
  | EmptyString => 0
  | String c s' => if is_continuation_byte c then py_len s' else S (py_len s')
  end.

(** [s[:n]], the first [n] characters of a [str]. *)
Fixpoint py_take (n : nat) (s : string) : string :=
  match s with
  | EmptyString => EmptyString
  | String c s' =>
      if is_continuation_byte c then String c (py_take n s')
      else match n with
           | 0 => EmptyString
           | S n' => String c (py_take n' s')
           end
  end.

(** ** llvmlite.ir, as far as the generator uses it

    llvmlite is a library the program imports, not part of its sources.  The
    definitions of this part follow llvmlite's [ir] package for the calls
    codegen.py makes: which checks a call performs and what it adds to the
    module or to the current basic block. *)

Inductive ty : Type :=
| DoubleType
| VoidType
| LabelType
| IntType (bits : nat)
| PointerType (pointee : ty)
| ArrayType (element : ty) (count : nat)
| FunctionType (return_type : ty) (args : list ty) (var_arg : bool).

Fixpoint ty_eqb (a b : ty) {struct a} : bool :=
  match a, b with
  | DoubleType, DoubleType => true
  | VoidType, VoidType => true
  | LabelType, LabelType => true
  | IntType n, IntType m => Nat.eqb n m
  | PointerType p, PointerType q => ty_eqb p q
  | ArrayType e n, ArrayType f m => ty_eqb e f && Nat.eqb n m
  | FunctionType r xs v, FunctionType s ys w =>
      ty_eqb r s
      && (fix all2 (xs ys : list ty) {struct xs} : bool :=
            match xs, ys with
            | [], [] => true
            | x :: xs', y :: ys' => ty_eqb x y && all2 xs' ys'
            | _, _ => false
            end) xs ys
      && Bool.eqb v w
  | _, _ => false
  end.

Definition is_PointerType (t : ty) : bool :=
  match t with PointerType _ => true | _ => false end.

Definition voidptr_ty : ty := PointerType (IntType 8).

Inductive constant : Type :=
| CFloat (x : float)
| CBytes (s : string).

(** [ir.Value] objects.  Instructions are values; [uid] stands for the
    identity of the Python object, so that two [alloca]s of the same type
    and name are two locations.  The [name] of an instruction is the name
    the generator asks for: llvmlite makes names unique within a function
    by appending a number to a name that is taken, which is not kept here. *)
Inductive Value : Type :=
| Constant (typ : ty) (c : constant)
| Argument (fn : string) (index : nat) (typ : ty)
| GlobalRef (name : string) (typ : ty)
| AllocaInstr (uid : nat) (typ : ty) (name : string)
| LoadInstr (uid : nat) (ptr : Value) (name : string)
| BinaryInstr (uid : nat) (opname : string) (lhs rhs : Value) (name : string)
| FCMPInstr (uid : nat) (op : string) (lhs rhs : Value)
| CallInstr (uid : nat) (callee : string) (return_type : ty)
            (args : list (option Value)) (name : string)
| CastInstr (uid : nat) (opname : string) (val : Value) (typ : ty).

(** [v.type] *)
Fixpoint type_of (v : Value) : ty :=
  match v with
  | Constant t _ => t
  | Argument _ _ t => t
  | GlobalRef _ t => t
  | AllocaInstr _ t _ => PointerType t
  | LoadInstr _ p _ =>
      match type_of p with PointerType t => t | t => t end
  | BinaryInstr _ _ l _ _ => type_of l
  | FCMPInstr _ _ _ _ => IntType 1
  | CallInstr _ _ t _ _ => t
  | CastInstr _ _ _ t => t
  end.

(** What a basic block holds besides values: stores and terminators, the
    latter naming their target blocks by identity. *)
Inductive instruction : Type :=
| IValue (v : Value)
| IStore (val ptr : Value)
| IRet (return_value : option Value)
| IBranch (target : nat)
| ICBranch (cond : Value) (truebr falsebr : nat).

(** The [parent] of an [ir.Block]: the function it was appended to, or
    whatever object was passed to the [ir.Block] constructor. *)
Inductive block_parent : Type :=
| InFunction (fn : string)
| InBlock (uid : nat).

(** The [name] given to a block: a string, or some other object. *)
Inductive label : Type :=
| Label (s : string)
| LabelObj (uid : nat).

Record BasicBlock : Type := mkBlock {
  parent : block_parent;
  block_name : label;
  instructions : list instruction;
  terminator : option instruction
}.

(** The entries of [module.globals]. *)
Inductive GlobalValue : Type :=
| Function (return_type : ty) (args : list ty) (var_arg : bool)
| GlobalVariable (typ : ty) (linkage : string) (global_constant : bool)
                 (initializer : option Value).

Definition global_ref (name : string) (g : GlobalValue) : Value :=
  match g with
  | Function r a v => GlobalRef name (PointerType (FunctionType r a v))
  | GlobalVariable t _ _ _ => GlobalRef name (PointerType t)
  end.

(** [ir.IRBuilder]: the block it is positioned on and the insertion index
    within that block. *)
Record IRBuilder : Type := mkBuilder { block : nat; anchor : nat }.

(** What the generator draws from outside: the successive results of
    [utils.ran6()] and Python's [unicode_escape] codec ([None] where the
    codec raises). *)
Record World : Type := mkWorld {
  ran6_at : nat -> string;
  unicode_escape : string -> option string
}.

(** ** The generator object

    The attributes of [LLVMCodeGenerator].  [builder] and
    [main_symbol_table] are only assigned in shell mode, so they are
    optional: [None] is an attribute the object does not have.  [globals]
    is [self.module.globals]; [blocks] holds the basic-block objects
    reachable from the module or the builder, by identity. *)
Record LLVMCodeGenerator : Type := mkGen {
  mode : string;
  module_name : string;
  globals : gmap string GlobalValue;
  blocks : gmap nat BasicBlock;
  builder : option IRBuilder;
  main_symbol_table : option (gmap string Value);
  function_symbol_table : gmap string Value;
  next_uid : nat;
  ran6_calls : nat;
  world : World
}.

Definition set_globals (g : gmap string GlobalValue) (st : LLVMCodeGenerator) :=
  mkGen (mode st) (module_name st) g (blocks st) (builder st)
        (main_symbol_table st) (function_symbol_table st)
        (next_uid st) (ran6_calls st) (world st).
Definition set_blocks (b : gmap nat BasicBlock) (st : LLVMCodeGenerator) :=
  mkGen (mode st) (module_name st) (globals st) b (builder st)
        (main_symbol_table st) (function_symbol_table st)
        (next_uid st) (ran6_calls st) (world st).
Definition set_builder (b : option IRBuilder) (st : LLVMCodeGenerator) :=
  mkGen (mode st) (module_name st) (globals st) (blocks st) b
        (main_symbol_table st) (function_symbol_table st)
        (next_uid st) (ran6_calls st) (world st).
Definition set_main_symbol_table (t : option (gmap string Value)) (st : LLVMCodeGenerator) :=
  mkGen (mode st) (module_name st) (globals st) (blocks st) (builder st)
        t (function_symbol_table st)
        (next_uid st) (ran6_calls st) (world st).
Definition set_function_symbol_table (t : gmap string Value) (st : LLVMCodeGenerator) :=
  mkGen (mode st) (module_name st) (globals st) (blocks st) (builder st)
        (main_symbol_table st) t
        (next_uid st) (ran6_calls st) (world st).
Definition set_next_uid (n : nat) (st : LLVMCodeGenerator) :=
  mkGen (mode st) (module_name st) (globals st) (blocks st) (builder st)
        (main_symbol_table st) (function_symbol_table st)
        n (ran6_calls st) (world st).
Definition set_ran6_calls (n : nat) (st : LLVMCodeGenerator) :=
  mkGen (mode st) (module_name st) (globals st) (blocks st) (builder st)
        (main_symbol_table st) (function_symbol_table st)
        (next_uid st) n (world st).

(** ** Statements that mutate the generator and may raise

    A Python exception does not undo the assignments made before it: a
    computation yields the generator as it is left, together with the value
    or the exception. *)
Definition M (A : Type) : Type :=
  LLVMCodeGenerator -> LLVMCodeGenerator * Result A.

Definition ret {A} (a : A) : M A := fun st => (st, Ok a).
Definition raise {A} (e : exn) : M A := fun st => (st, Raise e).
Definition bind {A B} (m : M A) (k : A -> M B) : M B :=
  fun st =>
    match m st with
    | (st', Ok a) => k a st'
    | (st', Raise e) => (st', Raise e)
    end.
Definition get {A} (f : LLVMCodeGenerator -> A) : M A := fun st => (st, Ok (f st)).
Definition update (f : LLVMCodeGenerator -> LLVMCodeGenerator) : M unit :=
  fun st => (f st, Ok tt).
Definition lift {A} (r : Result A) : M A := fun st => (st, r).

Notation "'do' x <- m ; k" := (bind m (fun x => k))
  (at level 10, x name, m at level 100, k at level 200).
Notation "'run' m ; k" := (bind m (fun _ => k))
  (at level 10, m at level 100, k at level 200).

(** [[f(x) for x in l]] and [for x in l: f(x)], left to right. *)
Definition mapM {A B} (f : A -> M B) : list A -> M (list B) :=
  fix go (l : list A) : M (list B) :=
    match l with
    | [] => ret []
    | x :: l' => do y <- f x; do ys <- go l'; ret (y :: ys)
    end.

Definition forM_ {A B} (f : A -> M B) : list A -> M unit :=
  fix go (l : list A) : M unit :=
    match l with
    | [] => ret tt
    | x :: l' => run f x; go l'
    end.

(** A fresh object identity. *)
Definition fresh_uid : M nat :=
  fun st => (set_next_uid (S (next_uid st)) st, Ok (next_uid st)).

(** utils.ran6() *)
Definition ran6 : M string :=
  fun st => (set_ran6_calls (S (ran6_calls st)) st,
             Ok (ran6_at (world st) (ran6_calls st))).

(** [self.builder]: an AttributeError when the attribute was never set. *)
Definition self_builder : M IRBuilder :=
  fun st =>
    match builder st with
    | Some b => (st, Ok b)
    | None => (st, Raise (AttributeError "builder"))
    end.

(** [self.main_symbol_table] *)
Definition self_main_symbol_table : M (gmap string Value) :=
  fun st =>
    match main_symbol_table st with
    | Some t => (st, Ok t)
    | None => (st, Raise (AttributeError "main_symbol_table"))
    end.

(** [x.type] where [x] may be [None]. *)
Definition type_attr (x : option Value) : M ty :=
  match x with
  | Some v => ret (type_of v)
  | None => raise (AttributeError "type")
  end.

(** *** ir.Module *)

(** [module.add_global], reached through the constructors [ir.Function] and
    [ir.GlobalVariable]: a name already in use is refused, and the scope of
    the module's names starts with the empty name in use. *)
Definition add_global (name : string) (g : GlobalValue) : M unit :=
  do gs <- get globals;
  if String.eqb name "" then raise (DuplicatedNameError name)
  else
    match gs !! name with
    | Some _ => raise (DuplicatedNameError name)
    | None => update (set_globals (<[name := g]> gs))
    end.

(** [module.get_global(name)] is [self.globals[name]]: a KeyError on a name
    the module does not have. *)
Definition get_global (name : string) : M GlobalValue :=
  do gs <- get globals;
  match gs !! name with
  | Some g => ret g
  | None => raise (KeyError name)
  end.

(** *** Blocks *)

(** [ir.Block(parent, name)]: a new block object. *)
Definition new_block (p : block_parent) (name : label) : M nat :=
  do uid <- fresh_uid;
  run update (fun st => set_blocks (<[uid := mkBlock p name [] None]> (blocks st)) st);
  ret uid.

Definition block_data (uid : nat) : M BasicBlock :=
  do bs <- get blocks;
  match bs !! uid with
  | Some b => ret b
  | None => raise (AttributeError "block")
  end.

(** [function.append_basic_block(name)] *)
Definition Function_append_basic_block (fn : string) (name : label) : M nat :=
  new_block (InFunction fn) name.

(** *** ir.IRBuilder *)

(** [IRBuilder(block)]: positioned at the end of the block. *)
Definition IRBuilder_new (uid : nat) : M IRBuilder :=
  do b <- block_data uid;
  ret (mkBuilder uid (length (instructions b))).

Definition position_at_start (uid : nat) : M unit :=
  run self_builder;
  update (set_builder (Some (mkBuilder uid 0))).

Definition position_at_end (uid : nat) : M unit :=
  run self_builder;
  do b <- block_data uid;
  update (set_builder (Some (mkBuilder uid (length (instructions b))))).

(** [list.insert(i, x)] *)
Definition list_insert_at {A} (i : nat) (x : A) (l : list A) : list A :=
  take i l ++ x :: drop i l.

(** [builder._insert(instr)] *)
Definition _insert (i : instruction) : M unit :=
  do b <- self_builder;
  run update (fun st =>
    set_blocks
      (alter (fun bb => mkBlock (parent bb) (block_name bb)
                          (list_insert_at (anchor b) i (instructions bb))
                          (terminator bb))
             (block b) (blocks st)) st);
  update (set_builder (Some (mkBuilder (block b) (S (anchor b))))).

(** [builder._set_terminator(term)]: asserts that the block has none yet. *)
Definition _set_terminator (term : instruction) : M unit :=
  do b <- self_builder;
  do bb <- block_data (block b);
  match terminator bb with
  | Some _ => raise AssertionError
  | None =>
      run _insert term;
      update (fun st =>
        set_blocks
          (alter (fun bb => mkBlock (parent bb) (block_name bb)
                              (instructions bb) (Some term))
                 (block b) (blocks st)) st)
  end.

(** [builder.function] is the parent of the builder's block, and [_name]
    its name: of a function, or of a block when the parent is one. *)
Definition builder_function : M block_parent :=
  do b <- self_builder;
  do bb <- block_data (block b);
  ret (parent bb).

Definition parent_name (p : block_parent) : M label :=
  match p with
  | InFunction fn => ret (Label fn)
  | InBlock uid => do bb <- block_data uid; ret (block_name bb)
  end.

(** [builder.append_basic_block(name)] is
    [self.function.append_basic_block(name)], a method only functions
    have. *)
Definition append_basic_block (name : label) : M nat :=
  do p <- builder_function;
  match p with
  | InFunction fn => Function_append_basic_block fn name
  | InBlock _ => raise (AttributeError "append_basic_block")
  end.

(** [builder.alloca(typ, name=name)].  [name] is the name asked for, which
    the instruction bears when no value of the function has it yet; llvmlite
    appends a number to it otherwise ([x.1]). *)
Definition alloca (typ : ty) (name : string) : M Value :=
  run self_builder;
  do uid <- fresh_uid;
  let v := AllocaInstr uid typ name in
  run _insert (IValue v);
  ret v.

(** [builder.store(value, ptr)]: the pointer must be one, and point to the
    type of the value. *)
Definition store (val : option Value) (ptr : Value) : M unit :=
  run self_builder;
  match type_of ptr with
  | PointerType pointee =>
      do t <- type_attr val;
      match val with
      | Some v =>
          if ty_eqb pointee t then _insert (IStore v ptr)
          else raise (TypeError "cannot store: mismatching types")
      | None => raise (AttributeError "type")
      end
  | _ => raise (TypeError "cannot store: not a pointer")
  end.

(** [builder.load(ptr, name)]: the operand must be a pointer.  [name] is the
    name asked for, as in [alloca]. *)
Definition load (ptr : Value) (name : string) : M Value :=
  run self_builder;
  if is_PointerType (type_of ptr) then
    do uid <- fresh_uid;
    let v := LoadInstr uid ptr name in
    run _insert (IValue v);
    ret v
  else raise (TypeError "cannot load: not a pointer").

(** [builder.fadd], [fsub], [fmul], [fdiv]: both operands must have one
    type. *)
Definition binop (opname : string) (lhs rhs : option Value) (name : string) : M Value :=
  run self_builder;
  do tl <- type_attr lhs;
  do tr <- type_attr rhs;
  match lhs, rhs with
  | Some l, Some r =>
      if ty_eqb tl tr then
        do uid <- fresh_uid;
        let v := BinaryInstr uid opname l r name in
        run _insert (IValue v);
        ret v
      else raise (ValueError "Operands must be the same type")
  | _, _ => raise (AttributeError "type")
  end.

(** llvmlite's [_CMP_MAP] and the operations [FCMPInstr] accepts. *)
Definition _CMP_MAP : list (string * string) :=
  [("<", "lt"); ("<=", "le"); ("==", "eq"); ("!=", "ne"); (">=", "ge"); (">", "gt")].

Definition FCMP_VALID_OP : list string :=
  ["false"; "oeq"; "ogt"; "oge"; "olt"; "ole"; "one"; "ord";
   "ueq"; "ugt"; "uge"; "ult"; "ule"; "une"; "uno"; "true"].

Fixpoint assoc (k : string) (l : list (string * string)) : option string :=
  match l with
  | [] => None
  | (k', v) :: l' => if String.eqb k k' then Some v else assoc k l'
  end.

(** [builder.fcmp_ordered(cmpop, lhs, rhs)] *)
Definition fcmp_ordered (cmpop : string) (lhs rhs : option Value) : M Value :=
  run self_builder;
  let op := match assoc cmpop _CMP_MAP with
            | Some o => "o" ++ o
            | None => cmpop
            end in
  if negb (existsb (String.eqb op) FCMP_VALID_OP)
  then raise (ValueError "invalid comparison")
  else
    do tl <- type_attr lhs;
    match lhs, rhs with
    | Some l, Some r =>
        do uid <- fresh_uid;
        let v := FCMPInstr uid op l r in
        run _insert (IValue v);
        ret v
    | _, _ => raise (AttributeError "type")
    end.

(** The validation of [ir.CallInstr]: each declared parameter needs an
    argument of its type; arguments beyond them are not looked at. *)
Fixpoint check_call_args (params : list ty) (args : list (option Value)) : Result unit :=
  match params, args with
  | [], _ => Ok tt
  | _ :: _, [] => Raise IndexError
  | p :: params', None :: _ => Raise (AttributeError "type")
  | p :: params', Some a :: args' =>
      if ty_eqb (type_of a) p then check_call_args params' args'
      else Raise (TypeError "Type of arg mismatch")
  end.

(** [builder.call(fn, args, name)] for a callee found in [module.globals].
    [name] is the name asked for, as in [alloca]: a second call in one
    function is named [calltmp.1] by llvmlite. *)
Definition call (callee : string) (fn : GlobalValue) (args : list (option Value))
    (name : string) : M Value :=
  run self_builder;
  match fn with
  | Function r params _ =>
      run lift (check_call_args params args);
      do uid <- fresh_uid;
      let v := CallInstr uid callee r args name in
      run _insert (IValue v);
      ret v
  | GlobalVariable _ _ _ _ => raise (AttributeError "function_type")
  end.

Definition bitcast (val : Value) (typ : ty) : M Value :=
  run self_builder;
  do uid <- fresh_uid;
  let v := CastInstr uid "bitcast" val typ in
  run _insert (IValue v);
  ret v.

(** [builder.ret(value)] and [builder.ret_void()] *)
Definition builder_ret (return_value : option Value) : M unit :=
  run self_builder;
  _set_terminator (IRet return_value).

Definition ret_void : M unit := builder_ret None.

Definition branch (target : nat) : M unit :=
  run self_builder;
  _set_terminator (IBranch target).

Definition cbranch (cond : Value) (truebr falsebr : nat) : M unit :=
  run self_builder;
  _set_terminator (ICBranch cond truebr falsebr).

Definition _label_suffix (l : label) (suffix : string) : M label :=
  match l with
  | Label s =>
      if Nat.ltb 50 (py_len s)
      then ret (Label (py_take 25 s ++ ".." ++ suffix))
      else ret (Label (s ++ suffix))
  | LabelObj _ => raise (TypeError "object has no len()")
  end.

(** Entering [with builder.if_else(pred) as (then, otherwise)]: three blocks
    are appended to the current function and the conditional branch is
    emitted; the result is the blocks of the two branches and of the join. *)
Definition if_else_enter (pred : Value) : M (nat * nat * nat) :=
  do b <- self_builder;
  do bb <- block_data (block b);
  do n_if <- _label_suffix (block_name bb) ".if";
  do bbif <- append_basic_block n_if;
  do n_else <- _label_suffix (block_name bb) ".else";
  do bbelse <- append_basic_block n_else;
  do n_end <- _label_suffix (block_name bb) ".endif";
  do bbend <- append_basic_block n_end;
  run cbranch pred bbif bbelse;
  ret (bbif, bbelse, bbend).

(** [with then:] and [with otherwise:] ([builder._branch_helper]): position
    at the end of the branch block, run the body, and branch to the join
    unless the body ended the block itself. *)
Definition _branch_helper {A} (bbenter bbexit : nat) (body : M A) : M unit :=
  run position_at_end bbenter;
  run body;
  do b <- self_builder;
  do bb <- block_data (block b);
  match terminator bb with
  | None => branch bbexit
  | Some _ => ret tt
  end.

(** ** config.py *)

Definition main_function_name : string := "main".
Definition float_format : string := "%.1f".

(** ** codegen.py *)

(** [str.strip] with the double-quote character as its argument. *)
Definition dquote : ascii := ascii_of_nat 34.

Fixpoint lstrip (c : ascii) (s : string) : string :=
  match s with
  | String a r => if Ascii.eqb a c then lstrip c r else s
  | EmptyString => EmptyString
  end.

Definition string_rev (s : string) : string :=
  string_of_list_ascii (rev (list_ascii_of_string s)).

Definition strip (c : ascii) (s : string) : string :=
  string_rev (lstrip c (string_rev (lstrip c s))).

(** LLVMCodeGenerator.to_cstr: the string and a terminating NUL as an array
    of [i8]; the length of the array is [len(python_str)], the number of
    characters, and its content the UTF-8 bytes. *)
Definition to_cstr (python_str : string) : Value :=
  let s := python_str ++ String Ascii.zero EmptyString in
  Constant (ArrayType (IntType 8) (py_len s)) (CBytes s).

Definition label_is (l : label) (s : string) : bool :=
  match l with Label s' => String.eqb s' s | LabelObj _ => false end.

Section Visitors.

(** The visitor methods, each over the attributes of its node; [_codegen] is
    the dispatching method they call back. *)
Variable _codegen : obj -> M (option Value).

Definition _codegen_Number (value : float) : M (option Value) :=
  ret (Some (Constant DoubleType (CFloat value))).

Definition _codegen_Text (value : string) : M (option Value) :=
  do w <- get world;
  match unicode_escape w (strip dquote value) with
  | None => raise UnicodeDecodeError
  | Some escaped_text =>
      let c_str := to_cstr escaped_text in
      do r <- ran6;
      let gname := "fstr_" ++ r in
      let global_fmt := GlobalVariable (type_of c_str) "internal" true (Some c_str) in
      run add_global gname global_fmt;
      do v <- bitcast (global_ref gname global_fmt) voidptr_ty;
      ret (Some v)
  end.

Definition _codegen_ID (node : ID) : M (option Value) :=
  do fst <- get function_symbol_table;
  do var_addr <-
    match fst !! id_name node with
    | Some a => ret a
    | None =>
        do mst <- self_main_symbol_table;
        match mst !! id_name node with
        | Some a => ret a
        | None => raise (CodegenError (NameNotDefined (id_name node)))
        end
    end;
  do v <- load var_addr (id_name node);
  ret (Some v).

Definition _codegen_AssignStatement (left_variable : ID) (right_expression : obj)
    : M (option Value) :=
  do fst <- get function_symbol_table;
  do var_addr <-
    match fst !! id_name left_variable with
    | Some a => ret a
    | None =>
        do mst <- self_main_symbol_table;
        match mst !! id_name left_variable with
        | Some a => ret a
        | None => raise (CodegenError (NameNotDefined (id_name left_variable)))
        end
    end;
  do right_expression_value <- _codegen right_expression;
  run store right_expression_value var_addr;
  ret None.

Definition _codegen_BinaryOperation (left_expression : obj) (operator : string)
    (right_expression : obj) : M (option Value) :=
  do lhs <- _codegen left_expression;
  do rhs <- _codegen right_expression;
  if String.eqb operator "+" then
    do v <- binop "fadd" lhs rhs "addtmp"; ret (Some v)
  else if String.eqb operator "-" then
    do v <- binop "fsub" lhs rhs "subtmp"; ret (Some v)
  else if String.eqb operator "*" then
    do v <- binop "fmul" lhs rhs "multmp"; ret (Some v)
  else if String.eqb operator "/" then
    do v <- binop "fdiv" lhs rhs "divtmp"; ret (Some v)
  else raise (CodegenError (NoSuchOperator operator)).

Definition _codegen_IfStatement (test then_block else_block : obj) : M (option Value) :=
  run self_builder;
  do test_value <- _codegen test;
  do test_gt_0 <- fcmp_ordered ">" test_value (Some (Constant DoubleType (CFloat 0)));
  (* store_builder = self.builder: a second name for the same builder *)
  do b <- self_builder;
  do r <- ran6;
  do if_block <- new_block (InBlock (block b)) (Label ("if_stmt" ++ r));
  run append_basic_block (LabelObj if_block);
  run position_at_start if_block;
  do bbs <- if_else_enter test_gt_0;
  let '(bbif, bbelse, bbend) := bbs in
  run _branch_helper bbif bbend (_codegen then_block);
  run _branch_helper bbelse bbend (_codegen else_block);
  run position_at_end bbend;
  ret None.

Definition _codegen_WhileStatement (test block : obj) : M (option Value) :=
  (* TODO *)
  ret None.

Definition _codegen_VariableDeclaration (variable_list : list ID) : M (option Value) :=
  run forM_ (fun var =>
        let name := id_name var in
        let init_val := Constant DoubleType (CFloat 0) in
        do var_addr <- alloca DoubleType name;
        run store (Some init_val) var_addr;
        do f <- builder_function;
        do fname <- parent_name f;
        if label_is fname "main" then
          do mst <- self_main_symbol_table;
          update (set_main_symbol_table (Some (<[name := var_addr]> mst)))
        else
          update (fun st =>
            set_function_symbol_table (<[name := var_addr]> (function_symbol_table st)) st))
      variable_list;
  ret None.

Definition _codegen_FunctionCall (name : ID) (argument_list : option (list obj))
    : M (option Value) :=
  do callee_func <- get_global (id_name name);
  match callee_func with
  | GlobalVariable _ _ _ _ =>
      raise (CodegenError (CallToUnknownFunction (id_name name)))
  | Function _ callee_args _ =>
      let arglen := match argument_list with None => 0 | Some l => length l end in
      if negb (Nat.eqb (length callee_args) arglen) then
        match argument_list with
        | None => raise (TypeError "object of type 'NoneType' has no len()")
        | Some l =>
            raise (CodegenError (CallArgumentLengthMismatch (length l) (id_name name)))
        end
      else
        do call_args <-
          match argument_list with
          | None => ret []
          | Some l => mapM _codegen l
          end;
        do v <- call (id_name name) callee_func call_args "calltmp";
        ret (Some v)
  end.

(** [arg.name = node.parameter_list[i]] makes the ID object itself the name
    of the argument, and the alloca of the parameter is asked for under
    that object; what is kept of it here is its identifier. *)
Definition _codegen_FunctionDefinition (name : ID) (parameter_list : list ID) (body : obj)
    : M (option Value) :=
  let function_name := id_name name in
  let func := Function DoubleType (replicate (length parameter_list) DoubleType) false in
  do gs <- get globals;
  match gs !! function_name with
  | Some _ => raise (CodegenError (RedefinitionOfFunction function_name))
  | None =>
      run add_global function_name func;
      run update (set_function_symbol_table ∅);
      do stored_builder <- self_builder;
      do bb_entry <- Function_append_basic_block function_name (Label "entry");
      do new_builder <- IRBuilder_new bb_entry;
      run update (set_builder (Some new_builder));
      run forM_ (fun '(i, arg_name) =>
            do a <- alloca DoubleType (id_name arg_name);
            run store (Some (Argument function_name i DoubleType)) a;
            update (fun st =>
              set_function_symbol_table
                (<[id_name arg_name := a]> (function_symbol_table st)) st))
          (imap pair parameter_list);
      run _codegen body;
      run builder_ret (Some (Constant DoubleType (CFloat 0)));
      run update (set_function_symbol_table ∅);
      run update (set_builder (Some stored_builder));
      ret (Some (global_ref function_name func))
  end.

Definition _codegen_Block (declaration_list statement_list : list obj) : M (option Value) :=
  run forM_ _codegen declaration_list;
  run forM_ _codegen statement_list;
  ret None.

Definition _codegen_Program (function_list : list obj) : M (option Value) :=
  run forM_ _codegen function_list;
  ret None.

Definition _codegen_ReturnStatement (expression : obj) : M (option Value) :=
  do return_value <- _codegen expression;
  run builder_ret return_value;
  ret None.

Definition _codegen_PrintStatement (print_list : list obj) : M (option Value) :=
  do gs <- get globals;
  do printf <-
    match gs !! "printf" with
    | Some g => ret g
    | None =>
        let f := Function (IntType 32) [voidptr_ty] true in
        run add_global "printf" f; ret f
    end;
  let format_string :=
    String.concat "" (map (fun i => if is_Text i then "%s" else float_format) print_list) in
  let c_format_string := to_cstr format_string in
  do r <- ran6;
  let gname := "fstr_" ++ r in
  let global_fmt :=
    GlobalVariable (type_of c_format_string) "internal" true (Some c_format_string) in
  run add_global gname global_fmt;
  do fmt_arg <- bitcast (global_ref gname global_fmt) voidptr_ty;
  run self_builder;
  do items <- mapM _codegen print_list;
  run call "printf" printf (Some fmt_arg :: items) "";
  ret None.

End Visitors.

(** LLVMCodeGenerator._codegen: [getattr(self, '_codegen_' + class name)],
    an AttributeError for a class without such a method. *)
Fixpoint _codegen (node : obj) {struct node} : M (option Value) :=
  match node with
  | Number _ value => _codegen_Number value
  | Text value => _codegen_Text value
  | Ident i => _codegen_ID i
  | AssignStatement x e => _codegen_AssignStatement _codegen x e
  | BinaryOperation _ l op r => _codegen_BinaryOperation _codegen l op r
  | IfStatement t b1 b2 => _codegen_IfStatement _codegen t b1 b2
  | WhileStatement t b => _codegen_WhileStatement t b
  | VariableDeclaration l => _codegen_VariableDeclaration l
  | FunctionCall _ n a => _codegen_FunctionCall _codegen n a
  | FunctionDefinition n ps b => _codegen_FunctionDefinition _codegen n ps b
  | Block ds ss => _codegen_Block _codegen ds ss
  | Program fs => _codegen_Program _codegen fs
  | ReturnStatement e => _codegen_ReturnStatement _codegen e
  | PrintStatement l => _codegen_PrintStatement _codegen l
  | PyNone | PyStr _ | PyFloat _ | PyList _ =>
      raise (AttributeError ("_codegen_" ++ class_name node))
  end.

(** LLVMCodeGenerator.generate_code *)
Definition generate_code (node : obj) : M unit :=
  match node with
  | PyList l =>
      forM_ (fun i =>
               if is_FunctionDefinition i then _codegen i else raise AssertionError) l
  | Program _ | Block _ _ => run _codegen node; ret tt
  | _ => raise AssertionError
  end.

(** LLVMCodeGenerator.__init__ *)
Definition __init__ (mode module_name : string) (w : World) : Result LLVMCodeGenerator :=
  if negb (existsb (String.eqb mode) ["shell"; "compile"]) then Raise AssertionError
  else
    let self := mkGen mode module_name ∅ ∅ None None ∅ 0 0 w in
    if String.eqb mode "shell" then
      match
        (run add_global main_function_name (Function VoidType [] false);
         do blk <- Function_append_basic_block main_function_name (Label "entry");
         do b <- IRBuilder_new blk;
         run update (set_builder (Some b));
         run ret_void;
         run position_at_start blk;
         run update (set_main_symbol_table (Some ∅));
         update (set_function_symbol_table ∅)) self
      with
      | (self', Ok _) => Ok self'
      | (_, Raise e) => Raise e
      end
    else Ok self.

(** ** ast.py: the [to_json] methods

    What [json.dumps] accepts: the dicts, lists, strings, floats and [None]
    that the [to_json] methods build.  A dict is the list of its items in
    insertion order. *)
Inductive json : Type :=
| JNull
| JFloat (x : float)
| JString (s : string)
| JArray (items : list json)
| JObject (entries : list (string * json)).

(** Sequencing of computations that may raise and touch no generator. *)
Definition rbind {A B} (r : Result A) (k : A -> Result B) : Result B :=
  match r with
  | Ok a => k a
  | Raise e => Raise e
  end.

(** [[f(item) for item in l]] *)
Definition mapR {A B} (f : A -> Result B) : list A -> Result (list B) :=
  fix go (l : list A) : Result (list B) :=
    match l with
    | [] => Ok []
    | x :: l' => rbind (f x) (fun y => rbind (go l') (fun ys => Ok (y :: ys)))
    end.

(** ID.to_json *)
Definition ID_to_json (i : ID) : json := JObject [("id", JString (id_name i))].

(** The [to_json] methods of the AST classes; an object of another class
    has no such attribute.  The items of a dict display are evaluated in
    order. *)
Fixpoint to_json (node : obj) : Result json :=
  match node with
  | PyNone | PyStr _ | PyFloat _ | PyList _ => Raise (AttributeError "to_json")
  | Program function_list =>
      rbind (mapR to_json function_list) (fun fs =>
      Ok (JObject [("program", JArray fs)]))
  | FunctionDefinition name parameter_list body =>
      rbind (to_json body) (fun b =>
      Ok (JObject [("function_definition",
            JObject [("name", ID_to_json name);
                     ("parameter_list", JArray (map ID_to_json parameter_list));
                     ("body", b)])]))
  | Block declaration_list statement_list =>
      rbind (mapR to_json declaration_list) (fun ds =>
      rbind (mapR to_json statement_list) (fun ss =>
      Ok (JObject [("block",
            JObject [("declaration_list", JArray ds);
                     ("statement_list", JArray ss)])])))
  | VariableDeclaration variable_list =>
      Ok (JObject [("variable_declaration",
            JObject [("variable_list", JArray (map ID_to_json variable_list))])])
  | AssignStatement left_variable right_expression =>
      rbind (to_json right_expression) (fun r =>
      Ok (JObject [("assign_statement",
            JObject [("left_variable", ID_to_json left_variable);
                     ("right_expression", r)])]))
  | IfStatement test then_block else_block =>
      rbind (to_json test) (fun t =>
      rbind (to_json then_block) (fun b1 =>
      rbind (match else_block with
             | PyNone => Ok JNull
             | _ => to_json else_block
             end) (fun b2 =>
      Ok (JObject [("if_statement",
            JObject [("test", t); ("then_block", b1); ("else_block", b2)])]))))
  | WhileStatement test block =>
      rbind (to_json test) (fun t =>
      rbind (to_json block) (fun b =>
      Ok (JObject [("while_statement", JObject [("test", t); ("block", b)])])))
  | ReturnStatement expression =>
      rbind (to_json expression) (fun e =>
      Ok (JObject [("return_statement", JObject [("expression", e)])]))
  | PrintStatement print_list =>
      rbind (mapR to_json print_list) (fun l =>
      Ok (JObject [("print_statement", JObject [("print_list", JArray l)])]))
  | BinaryOperation _ left_expression operator right_expression =>
      rbind (to_json left_expression) (fun l =>
      rbind (to_json right_expression) (fun r =>
      Ok (JObject [("binary_operation",
            JObject [("left_expression", l);
                     ("operator", JString operator);
                     ("right_expression", r)])])))
  | Number _ value => Ok (JObject [("number", JFloat value)])
  | Ident i => Ok (ID_to_json i)
  | FunctionCall _ name argument_list =>
      match argument_list with
      | None => Raise (TypeError "'NoneType' object is not iterable")
      | Some l =>
          rbind (mapR to_json l) (fun args =>
          Ok (JObject [("function_call",
                JObject [("name", ID_to_json name); ("argument_list", JArray args)])]))
      end
  | Text value => Ok (JObject [("text", JString value)])
  end.

(** ** yacc.py: the semantic actions

    Each action is a function of the slots [p[1]], [p[2]], ... it reads;
    its result is the value it binds to [p[0]]. *)

(** [p[1] + [x]]: only a list can be extended by a list. *)
Definition list_append (p1 x : obj) : Result obj :=
  match p1 with
  | PyList l => Ok (PyList (l ++ [x]))
  | _ => Raise (TypeError "unsupported operand type(s) for +")
  end.

Definition p_expression_binop (p1 p2 p3 : obj) : Result obj :=
  Init.BinaryOperation p1 p2 p3.

Definition p_expression_group (p2 : obj) : Result obj := Ok p2.

Definition p_expression_number (p1 : obj) : Result obj := Init.Number p1.

Definition p_expression_id (p1 : obj) : Result obj := Init.ID p1.

Definition p_expression_function_call (p1 p3 : obj) : Result obj :=
  rbind (Init.ID p1) (fun name => Init.FunctionCall name p3).

(** [argument_list : empty | expression_list]; [p_empty] yields [None]. *)
Definition p_argument_list (p1 : obj) : Result obj := Ok p1.

(** [expression_list : expression | expression_list COMMA expression] *)
Definition p_expression_list (p1 : obj) (p3 : option obj) : Result obj :=
  match p3 with
  | None => Ok (PyList [p1])
  | Some x => list_append p1 x
  end.

Definition p_assign_statement (p1 p3 : obj) : Result obj :=
  rbind (Init.ID p1) (fun x => Init.AssignStatement x p3).

Definition p_return_statement (p2 : obj) : Result obj := Init.ReturnStatement p2.

Definition p_print_statement (p2 : obj) : Result obj := Init.PrintStatement p2.

(** [print_list : print_item | print_list COMMA print_item] *)
Definition p_print_statement_print_list (p1 : obj) (p3 : option obj) : Result obj :=
  match p3 with
  | None => Ok (PyList [p1])
  | Some x => list_append p1 x
  end.

Definition p_print_statement_print_item (p1 : obj) : Result obj :=
  match p1 with
  | PyStr _ => Init.Text p1
  | _ => Ok p1
  end.

(** [IF expression THEN block FI], six slots with [p[0]], or
    [IF expression THEN block ELSE block FI]. *)
Definition p_if_statement (p2 p4 : obj) (p6 : option obj) : Result obj :=
  match p6 with
  | None => Init.IfStatement p2 p4 PyNone
  | Some b => Init.IfStatement p2 p4 b
  end.

Definition p_while_statement (p2 p5 : obj) : Result obj := Init.WhileStatement p2 p5.

(** ** lex.py and utils.py *)

(** VSLCLexer.reserved *)
Definition reserved : list (string * string) :=
  [("FUNC", "FUNC"); ("VAR", "VAR"); ("PRINT", "PRINT"); ("RETURN", "RETURN");
   ("IF", "IF"); ("THEN", "THEN"); ("ELSE", "ELSE"); ("FI", "FI");
   ("WHILE", "WHILE"); ("DO", "DO"); ("DONE", "DONE")].

(** VSLCLexer.t_ID: the type given to a word that matched the identifier
    pattern, [self.reserved.get(t.value, 'ID')]. *)
Definition t_ID (value : string) : string :=
  match assoc value reserved with
  | Some t => t
  | None => "ID"
  end.

(** utils.predict_start *)
Definition predict_start (code : string) : string :=
  if String.prefix "FUNC" code then "function_list" else "block".

(** [s.rfind(c, 0, end)] on the characters of [s]: the last index below
    [end] that holds [c], or [-1]. *)
Fixpoint rfind_from (c : ascii) (l : list ascii) : Z :=
  match l with
  | [] => (-1)%Z
  | a :: l' =>
      let r := rfind_from c l' in
      if (0 <=? r)%Z then (r + 1)%Z
      else if Ascii.eqb a c then 0%Z else (-1)%Z
  end.

Definition rfind (c : ascii) (s : string) (end_ : nat) : Z :=
  rfind_from c (take end_ (list_ascii_of_string s)).

(** VSLCLexer.find_column, for a token at [lexpos] *)
Definition find_column (_input : string) (lexpos : nat) : Z :=
  let line_start := (rfind "010"%char _input lexpos + 1)%Z in
  (Z.of_nat lexpos - line_start + 1)%Z.

(** ** vslc.py: _iscommand

    What the function does besides returning: the calls it makes, in
    order.  [printed] is the outcome of [print(generator.module)], which
    raises when llvmlite cannot render the module as text, and [evaluate]
    is the outcome of [evaluator.evaluate]. *)
Inductive action : Type :=
| print_help
| print_module
| evaluate_module
| print_good_bye.

Inductive outcome : Type :=
| Returns (b : bool)
| Raises (e : exn)
| Exits (code : nat).

Definition _iscommand (command : string) (printed : Result unit)
    (evaluate : Result float) : list action * outcome :=
  let commands := ["H"; "P"; "E"; "Q"] in
  if negb (existsb (String.eqb command) commands) then ([], Returns false)
  else if String.eqb command "H" then ([print_help], Returns true)
  else if String.eqb command "P" then
    match printed with
    | Ok _ => ([print_module], Returns true)
    | Raise e => ([print_module], Raises e)
    end
  else if String.eqb command "E" then
    match evaluate with
    | Ok _ => ([evaluate_module], Returns true)
    | Raise e => ([evaluate_module], Raises e)
    end
  else if String.eqb command "P" then ([print_good_bye], Exits 0)
  else ([], Returns true).

(** ** Generators and inputs of the statements *)

(** The generator right after [LLVMCodeGenerator('shell', module_name)]: the
    module holds the function [main], whose entry block holds [ret void]
    with the builder in front of it, and both symbol tables are empty. *)
Definition shell_state (module_name : string) (w : World) : LLVMCodeGenerator :=
  mkGen "shell" module_name
    {[ "main" := Function VoidType [] false ]}
    {[ 0 := mkBlock (InFunction "main") (Label "entry") [IRet None] (Some (IRet None)) ]}
    (Some (mkBuilder 0 0)) (Some ∅) ∅ 1 0 w.

(** The generator right after [LLVMCodeGenerator('compile', module_name)]:
    neither [builder] nor [main_symbol_table] exists. *)
Definition compile_state (module_name : string) (w : World) : LLVMCodeGenerator :=
  mkGen "compile" module_name ∅ ∅ None None ∅ 0 0 w.

(** *** Example inputs

    A world whose [ran6] yields AAAAAA, AAAAAB, ... and whose codec leaves
    text without escapes as it is, and the generator of an interactive
    session on it. *)
Definition example_world : World :=
  mkWorld (fun n => "AAAAA" ++ String (ascii_of_nat (65 + n)) EmptyString)
          (fun s => Some s).

Definition shell0 : LLVMCodeGenerator := shell_state "<stdin>" example_world.

Definition id_of (s : string) : ID := mkID s false.

(** [IF 0 THEN PRINT "yes" FI], as the parser builds it: the else block is
    the default [None]. *)
Definition if_without_else : obj :=
  IfStatement (Number false 0%float)
              (Block [] [PrintStatement [Text (String dquote ("yes" ++ String dquote EmptyString))]])
              PyNone.

(** [VAR x] followed by [x := foo()]. *)
Definition call_of_undefined : obj :=
  Block [VariableDeclaration [id_of "x"]]
        [AssignStatement (id_of "x") (FunctionCall false (id_of "foo") None)].

(** [FUNC f(a) { }] *)
Definition define_f : obj :=
  PyList [FunctionDefinition (id_of "f") [id_of "a"] (Block [] [])].

(** [VAR x] followed by [x := f()]: the parser hands an empty argument list
    over as [None]. *)
Definition call_f_without_arguments : obj :=
  Block [VariableDeclaration [id_of "x"]]
        [AssignStatement (id_of "x") (FunctionCall false (id_of "f") None)].

(** [VAR x]; [FUNC g(x) { y := 1.0 }], whose body assigns an undeclared
    name; [FUNC h() { x := 1.0 }] likewise. *)
Definition declare_x : obj := Block [VariableDeclaration [id_of "x"]] [].

Definition define_g : obj :=
  PyList [FunctionDefinition (id_of "g") [id_of "x"]
            (Block [] [AssignStatement (id_of "y") (Number false 1%float)])].

Definition program_h : obj :=
  Program [FunctionDefinition (id_of "h") []
             (Block [] [AssignStatement (id_of "x") (Number false 1%float)])].

(** A generator in which [x] is bound in both tiers and [z] in the global
    tier only. *)
Definition shadowing_state : LLVMCodeGenerator :=
  set_function_symbol_table {[ "x" := AllocaInstr 8 DoubleType "x" ]}
    (set_main_symbol_table
       (Some {[ "x" := AllocaInstr 5 DoubleType "x";
                "z" := AllocaInstr 6 DoubleType "z" ]})
       (set_next_uid 9 shell0)).

(** The tier a declaration goes to.  [builder_in_main] is the test
    [self.builder.function._name == 'main'] of _codegen_VariableDeclaration
    as a function of the generator, and [active_tier] the table that the
    test selects. *)
Definition builder_in_main (st : LLVMCodeGenerator) : option bool :=
  match builder st with
  | Some b =>
      match blocks st !! block b with
      | Some bb =>
          match parent bb with
          | InFunction fn => Some (label_is (Label fn) "main")
          | InBlock u =>
              match blocks st !! u with
              | Some pb => Some (label_is (block_name pb) "main")
              | None => None
              end
          end
      | None => None
      end
  | None => None
  end.

Definition active_tier (st : LLVMCodeGenerator) : option (gmap string Value) :=
  match builder_in_main st with
  | Some true => main_symbol_table st
  | Some false => Some (function_symbol_table st)
  | None => None
  end.

(** The identity of the object behind a value, for the values that are
    instructions. *)
Definition value_uid (v : Value) : option nat :=
  match v with
  | AllocaInstr u _ _ | LoadInstr u _ _ | BinaryInstr u _ _ _ _
  | FCMPInstr u _ _ _ | CallInstr u _ _ _ _ | CastInstr u _ _ _ => Some u
  | _ => None
  end.

(** The names of the function definitions in a list of nodes. *)
Definition function_names (fs : list obj) : list string :=
  omap (fun f => match f with
                 | FunctionDefinition n _ _ => Some (id_name n)
                 | _ => None
                 end) fs.

(** [FUNC inc(a) { VAR t  t := a + 1.0 }] and [FUNC zero() { }] *)
Definition inc_and_zero : list obj :=
  [ FunctionDefinition (id_of "inc") [id_of "a"]
      (Block [VariableDeclaration [id_of "t"]]
             [AssignStatement (id_of "t")
                (BinaryOperation false (Ident (id_of "a")) "+" (Number false 1%float))]);
    FunctionDefinition (id_of "zero") [] (Block [] []) ].

(** The generator after a sequence of top-level calls, whatever their
    outcome: [later st st'] holds when [st'] is reached from [st] by calls
    of [generate_code] or of the visitor [_codegen]. *)
Inductive later (st : LLVMCodeGenerator) : LLVMCodeGenerator -> Prop :=
| later_refl : later st st
| later_generate_code st' node :
    later st st' -> later st (generate_code node st').1
| later_codegen st' node :
    later st st' -> later st (_codegen node st').1.

(** ** Predicates used in the statements *)

(** No statement of the generator removes or replaces an entry of
    [module.globals]: [grows m] says that whatever [m] does, and whether or
    not it raises, the globals it started with are still there. *)
Definition grows {A} (m : M A) : Prop :=
  forall st, globals st ⊆ globals (m st).1.

(** [hoare P m Q]: from a generator satisfying [P], the computation [m]
    returns normally, with a value and a generator related by [Q]. *)
Definition hoare {A} (P : LLVMCodeGenerator -> Prop) (m : M A)
    (Q : A -> LLVMCodeGenerator -> Prop) : Prop :=
  forall st, P st -> exists st' a, m st = (st', Ok a) /\ Q a st'.

(** The generator while the body of the function [fn] is lowered: the module
    globals are [G], the builder is on an open block of [fn], and every
    name of [scope] is bound in the function tier to the address of a
    double. *)
Definition inside (G : gmap string GlobalValue) (fn : string) (scope : list string)
    (st : LLVMCodeGenerator) : Prop :=
  globals st = G
  /\ (exists b bb, builder st = Some b /\ blocks st !! block b = Some bb
                   /\ parent bb = InFunction fn /\ terminator bb = None)
  /\ (forall x, x ∈ scope ->
        exists a, function_symbol_table st !! x = Some a
                  /\ type_of a = PointerType DoubleType).

(** Straight-line functions: the body declares variables and assigns
    arithmetic expressions over numbers, parameters and declared variables;
    a While statement, which lowers to nothing, may occur as well. *)
Fixpoint simple_expression (scope : list string) (e : obj) : bool :=
  match e with
  | Number _ _ => true
  | Ident i => bool_decide (id_name i ∈ scope)
  | BinaryOperation _ l op r =>
      simple_expression scope l
      && existsb (String.eqb op) ["+"; "-"; "*"; "/"]
      && simple_expression scope r
  | _ => false
  end.

Definition simple_statement (scope : list string) (s : obj) : bool :=
  match s with
  | AssignStatement x e => bool_decide (id_name x ∈ scope) && simple_expression scope e
  | WhileStatement _ _ => true
  | _ => false
  end.

Definition declared_names (ds : list obj) : list string :=
  flat_map (fun d => match d with
                     | VariableDeclaration l => map id_name l
                     | _ => []
                     end) ds.

Definition simple_function (f : obj) : bool :=
  match f with
  | FunctionDefinition n ps (Block ds ss) =>
      forallb is_VariableDeclaration ds
      && forallb (simple_statement (map id_name ps ++ declared_names ds)) ss
  | _ => false
  end.

(** *** Predicates of the further properties *)

(** [keeps J m]: the computation [m] leads from a generator of [J] to a
    generator of [J], whether it returns or raises. *)
Definition keeps (J : LLVMCodeGenerator -> Prop) {A} (m : M A) : Prop :=
  forall st, J st -> J (m st).1.

(** The generator of compile mode: neither attribute was ever assigned. *)
Definition no_builder (st : LLVMCodeGenerator) : Prop :=
  builder st = None /\ main_symbol_table st = None.

(** [ext st st']: from [st] to [st'] both symbol tables are the same, the
    builder is on the same block, no block was added or removed, and every
    block has the parent and the name it had and its terminator if it had
    one. *)
Definition ext (st st' : LLVMCodeGenerator) : Prop :=
  main_symbol_table st' = main_symbol_table st
  /\ function_symbol_table st' = function_symbol_table st
  /\ next_uid st <= next_uid st'
  /\ (forall b, builder st = Some b ->
        exists b', builder st' = Some b' /\ block b' = block b)
  /\ (forall u bb, blocks st !! u = Some bb ->
        exists bb', blocks st' !! u = Some bb'
                    /\ parent bb' = parent bb /\ block_name bb' = block_name bb
                    /\ (is_Some (terminator bb) -> is_Some (terminator bb')))
  /\ (forall u, blocks st !! u = None -> blocks st' !! u = None).

Definition frames {A} (m : M A) : Prop := forall st, ext st (m st).1.

(** Trees without declarations, IFs and function definitions. *)
Fixpoint binds_nothing (node : obj) : bool :=
  match node with
  | Number _ _ | Ident _ | Text _ | WhileStatement _ _ => true
  | BinaryOperation _ l _ r => binds_nothing l && binds_nothing r
  | FunctionCall _ _ a =>
      match a with Some l => forallb binds_nothing l | None => true end
  | AssignStatement _ e | ReturnStatement e => binds_nothing e
  | PrintStatement l => forallb binds_nothing l
  | _ => false
  end.

(** [holds P m Q E]: from a generator of [P], [m] returns in a generator of
    [Q] with its result, or raises in a generator of [E]. *)
Definition holds {A} (P : LLVMCodeGenerator -> Prop) (m : M A)
    (Q : A -> LLVMCodeGenerator -> Prop) (E : LLVMCodeGenerator -> Prop) : Prop :=
  forall st, P st ->
    match m st with
    | (st', Ok a) => Q a st'
    | (st', Raise _) => E st'
    end.

Definition always_raises {A} (m : M A) : Prop :=
  forall st, exists st' e, m st = (st', Raise e).

(** Every binding of the tier is the address of a double, made by an
    [alloca] whose identity is below [n]. *)
Definition bound_ok (n : nat) (t : gmap string Value) : Prop :=
  forall x a, t !! x = Some a ->
    exists u name, a = AllocaInstr u DoubleType name /\ u < n.

(** The generator of an interactive session: the builder is on a block that
    exists; the block that a block was made in exists; the identities of
    the blocks are below [next_uid]; the global tier exists; and both tiers
    bind their names to addresses of doubles. *)
Definition session (st : LLVMCodeGenerator) : Prop :=
  (exists b, builder st = Some b /\ is_Some (blocks st !! block b))
  /\ (forall u bb p, blocks st !! u = Some bb -> parent bb = InBlock p ->
        is_Some (blocks st !! p))
  /\ (forall u, is_Some (blocks st !! u) -> u < next_uid st)
  /\ (exists g, main_symbol_table st = Some g /\ bound_ok (next_uid st) g)
  /\ bound_ok (next_uid st) (function_symbol_table st).

Definition has_block (u : nat) (st : LLVMCodeGenerator) : Prop :=
  is_Some (blocks st !! u).

Definition session_with (u : nat) (st : LLVMCodeGenerator) : Prop :=
  session st /\ has_block u st.

(** [v] is the address that an [alloca] for [name] has just made. *)
Definition fresh_double (name : string) (v : Value) (st : LLVMCodeGenerator) : Prop :=
  session st /\ exists u, v = AllocaInstr u DoubleType name /\ u < next_uid st.

Definition parent_ok (p : block_parent) (st : LLVMCodeGenerator) : Prop :=
  match p with InBlock q => is_Some (blocks st !! q) | InFunction _ => True end.

(** A name bound in the global tier. *)
Definition globally_bound (x : string) (st : LLVMCodeGenerator) : Prop :=
  exists g, main_symbol_table st = Some g /\ is_Some (g !! x).

(** A name that [_codegen_ID] resolves: bound in either tier. *)
Definition bound (x : string) (st : LLVMCodeGenerator) : Prop :=
  is_Some (function_symbol_table st !! x) \/ globally_bound x st.

Definition declared (done : list string) (st : LLVMCodeGenerator) : Prop :=
  session st /\ Forall (fun y => bound y st) done.

(** A number, or a name that is bound. *)
Definition atom (st : LLVMCodeGenerator) (e : obj) : Prop :=
  match e with
  | Number _ _ => True
  | Ident x => bound (id_name x) st
  | _ => False
  end.

(** The builder is on a block that has its terminator. *)
Definition terminated (st : LLVMCodeGenerator) : Prop :=
  exists b bb, builder st = Some b /\ blocks st !! block b = Some bb
               /\ is_Some (terminator bb).

(** *** Trees compared in the further properties *)

Definition is_WhileStatement (o : obj) : bool :=
  match o with WhileStatement _ _ => true | _ => false end.

Definition drop_loops (f : obj -> obj) : list obj -> list obj :=
  fix go (l : list obj) : list obj :=
    match l with
    | [] => []
    | s :: l' => if is_WhileStatement s then go l' else f s :: go l'
    end.

(** The tree without the While statements of its statement lists. *)
Fixpoint without_loops (node : obj) : obj :=
  match node with
  | Program fs => Program (map without_loops fs)
  | PyList fs => PyList (map without_loops fs)
  | FunctionDefinition n ps b => FunctionDefinition n ps (without_loops b)
  | Block ds ss => Block ds (drop_loops without_loops ss)
  | _ => node
  end.

(** The tree with every [minus_flag] at its class default. *)
Definition unflag_ID (i : ID) : ID := mkID (id_name i) false.

Fixpoint unflag (node : obj) : obj :=
  match node with
  | PyNone | PyStr _ | PyFloat _ | Text _ => node
  | PyList l => PyList (map unflag l)
  | Program l => Program (map unflag l)
  | FunctionDefinition n ps b =>
      FunctionDefinition (unflag_ID n) (map unflag_ID ps) (unflag b)
  | Block ds ss => Block (map unflag ds) (map unflag ss)
  | VariableDeclaration l => VariableDeclaration (map unflag_ID l)
  | AssignStatement x e => AssignStatement (unflag_ID x) (unflag e)
  | IfStatement t b1 b2 => IfStatement (unflag t) (unflag b1) (unflag b2)
  | WhileStatement t b => WhileStatement (unflag t) (unflag b)
  | ReturnStatement e => ReturnStatement (unflag e)
  | PrintStatement l => PrintStatement (map unflag l)
  | BinaryOperation _ l op r => BinaryOperation false (unflag l) op (unflag r)
  | Number _ v => Number false v
  | Ident i => Ident (unflag_ID i)
  | FunctionCall _ n a => FunctionCall false (unflag_ID n) (option_map (map unflag) a)
  end.

(** A call without arguments, [f()], somewhere in the tree: the parser
    builds it with [argument_list = None]. *)
Fixpoint has_bare_call (node : obj) : bool :=
  match node with
  | Program l | PrintStatement l => existsb has_bare_call l
  | FunctionDefinition _ _ b => has_bare_call b
  | Block ds ss => existsb has_bare_call ds || existsb has_bare_call ss
  | AssignStatement _ e | ReturnStatement e => has_bare_call e
  | IfStatement t b1 b2 => has_bare_call t || has_bare_call b1 || has_bare_call b2
  | WhileStatement t b => has_bare_call t || has_bare_call b
  | BinaryOperation _ l _ r => has_bare_call l || has_bare_call r
  | FunctionCall _ _ None => true
  | FunctionCall _ _ (Some l) => existsb has_bare_call l
  | _ => false
  end.

(** ** Induction over objects

    The induction hypothesis is available for the items of every list
    attribute. *)
Section obj_induction.

Variable P : obj -> Prop.
Hypothesis HNone : P PyNone.
Hypothesis HStr : forall s, P (PyStr s).
Hypothesis HFloat : forall x, P (PyFloat x).
Hypothesis HList : forall l, Forall P l -> P (PyList l).
Hypothesis HProgram : forall l, Forall P l -> P (Program l).
Hypothesis HFunction : forall n ps b, P b -> P (FunctionDefinition n ps b).
Hypothesis HBlock : forall ds ss, Forall P ds -> Forall P ss -> P (Block ds ss).
Hypothesis HDecl : forall l, P (VariableDeclaration l).
Hypothesis HAssign : forall x e, P e -> P (AssignStatement x e).
Hypothesis HIf : forall t b1 b2, P t -> P b1 -> P b2 -> P (IfStatement t b1 b2).
Hypothesis HWhile : forall t b, P t -> P b -> P (WhileStatement t b).
Hypothesis HReturn : forall e, P e -> P (ReturnStatement e).
Hypothesis HPrint : forall l, Forall P l -> P (PrintStatement l).
Hypothesis HBinary : forall f l op r, P l -> P r -> P (BinaryOperation f l op r).
Hypothesis HNumber : forall f v, P (Number f v).
Hypothesis HIdent : forall i, P (Ident i).
Hypothesis HCall : forall f n a,
  match a with Some l => Forall P l | None => True end -> P (FunctionCall f n a).
Hypothesis HText : forall s, P (Text s).

Fixpoint obj_ind' (o : obj) : P o :=
  let all := fix all (l : list obj) : Forall P l :=
    match l with
    | [] => @List.Forall_nil _ P
    | x :: l' => @List.Forall_cons _ P x l' (obj_ind' x) (all l')
    end in
  match o with
  | PyNone => HNone
  | PyStr s => HStr s
  | PyFloat x => HFloat x
  | PyList l => HList l (all l)
  | Program l => HProgram l (all l)
  | FunctionDefinition n ps b => HFunction n ps b (obj_ind' b)
  | Block ds ss => HBlock ds ss (all ds) (all ss)
  | VariableDeclaration l => HDecl l
  | AssignStatement x e => HAssign x e (obj_ind' e)
  | IfStatement t b1 b2 => HIf t b1 b2 (obj_ind' t) (obj_ind' b1) (obj_ind' b2)
  | WhileStatement t b => HWhile t b (obj_ind' t) (obj_ind' b)
  | ReturnStatement e => HReturn e (obj_ind' e)
  | PrintStatement l => HPrint l (all l)
  | BinaryOperation f l op r => HBinary f l op r (obj_ind' l) (obj_ind' r)
  | Number f v => HNumber f v
  | Ident i => HIdent i
  | FunctionCall f n a =>
      HCall f n a
        match a return match a with Some l => Forall P l | None => True end with
        | Some l => all l
        | None => I
        end
  | Text s => HText s
  end.

End obj_induction.

(** * Properties *)

(** ** The module's globals only grow *)

Lemma grows_ret {A} (a : A) : grows (ret a).
Proof. intros st. reflexivity. Qed.

Lemma grows_raise {A} e : grows (@raise A e).
Proof. intros st. reflexivity. Qed.

Lemma grows_lift {A} (r : Result A) : grows (lift r).
Proof. intros st. reflexivity. Qed.

Lemma grows_get {A} (f : LLVMCodeGenerator -> A) : grows (get f).
Proof. intros st. reflexivity. Qed.

Lemma grows_update f : (forall st, globals (f st) = globals st) -> grows (update f).
Proof. intros H st. simpl. rewrite H. reflexivity. Qed.

Lemma grows_bind {A B} (m : M A) (k : A -> M B) :
  grows m -> (forall a, grows (k a)) -> grows (bind m k).
Proof.
  intros Hm Hk st. unfold bind. specialize (Hm st).
  destruct (m st) as [st' [a|e]]; simpl in *; [|assumption].
  etrans; [exact Hm | apply Hk].
Qed.

Lemma grows_forM_ {A B} (f : A -> M B) l :
  Forall (fun x => grows (f x)) l -> grows (forM_ f l).
Proof.
  induction 1 as [|x l Hx _ IH]; simpl.
  - apply grows_ret.
  - apply grows_bind; [exact Hx | intros _; exact IH].
Qed.

Lemma grows_mapM {A B} (f : A -> M B) l :
  Forall (fun x => grows (f x)) l -> grows (mapM f l).
Proof.
  induction 1 as [|x l Hx _ IH]; simpl.
  - apply grows_ret.
  - apply grows_bind; [exact Hx | intros y].
    apply grows_bind; [exact IH | intros ys; apply grows_ret].
Qed.

Create HintDb grows.

Ltac grows_step :=
  first
    [ solve [auto with grows]
    | apply grows_ret | apply grows_raise | apply grows_lift | apply grows_get
    | apply grows_update; intros []; reflexivity
    | apply grows_forM_; apply Forall_forall; intros ? _; cbv beta
    | apply grows_mapM; apply Forall_forall; intros ? _; cbv beta
    | apply grows_bind; [| intros ?]
    | match goal with
      | |- grows (match ?x with _ => _ end) => destruct x
      | |- grows (let '(_, _) := ?x in _) => destruct x
      end ].

Ltac grows := repeat grows_step.

Lemma grows_fresh_uid : grows fresh_uid.
Proof. intros []; reflexivity. Qed.
Lemma grows_ran6 : grows ran6.
Proof. intros []; reflexivity. Qed.
Lemma grows_self_builder : grows self_builder.
Proof. intros st. unfold self_builder. destruct (builder st); reflexivity. Qed.
Lemma grows_self_main_symbol_table : grows self_main_symbol_table.
Proof.
  intros st. unfold self_main_symbol_table.
  destruct (main_symbol_table st); reflexivity.
Qed.
#[local] Hint Resolve grows_fresh_uid grows_ran6 grows_self_builder
  grows_self_main_symbol_table : grows.

Lemma grows_type_attr x : grows (type_attr x).
Proof. unfold type_attr. grows. Qed.

Lemma grows_add_global name g : grows (add_global name g).
Proof.
  intros st. unfold add_global, bind, get, update, raise. simpl.
  destruct (String.eqb name ""); [reflexivity|].
  destruct (globals st !! name) eqn:E; simpl; [reflexivity|].
  destruct st; simpl in *. by apply insert_subseteq.
Qed.

Lemma grows_get_global name : grows (get_global name).
Proof. unfold get_global. grows. Qed.

Lemma grows_new_block p n : grows (new_block p n).
Proof. unfold new_block. grows. Qed.

Lemma grows_block_data u : grows (block_data u).
Proof. unfold block_data. grows. Qed.
#[local] Hint Resolve grows_type_attr grows_add_global grows_get_global
  grows_new_block grows_block_data : grows.

Lemma grows_IRBuilder_new u : grows (IRBuilder_new u).
Proof. unfold IRBuilder_new. grows. Qed.
Lemma grows_position_at_start u : grows (position_at_start u).
Proof. unfold position_at_start. grows. Qed.
Lemma grows_position_at_end u : grows (position_at_end u).
Proof. unfold position_at_end. grows. Qed.
Lemma grows__insert i : grows (_insert i).
Proof. unfold _insert. grows. Qed.
#[local] Hint Resolve grows_IRBuilder_new grows_position_at_start
  grows_position_at_end grows__insert : grows.

Lemma grows__set_terminator t : grows (_set_terminator t).
Proof. unfold _set_terminator. grows. Qed.
Lemma grows_builder_function : grows builder_function.
Proof. unfold builder_function. grows. Qed.
Lemma grows_parent_name p : grows (parent_name p).
Proof. unfold parent_name. grows. Qed.
#[local] Hint Resolve grows__set_terminator grows_builder_function
  grows_parent_name : grows.

Lemma grows_append_basic_block n : grows (append_basic_block n).
Proof. unfold append_basic_block, Function_append_basic_block. grows. Qed.
Lemma grows_alloca t n : grows (alloca t n).
Proof. unfold alloca. grows. Qed.
Lemma grows_store v p : grows (store v p).
Proof. unfold store. grows. Qed.
Lemma grows_load p n : grows (load p n).
Proof. unfold load. grows. Qed.
Lemma grows_binop o l r n : grows (binop o l r n).
Proof. unfold binop. grows. Qed.
Lemma grows_fcmp_ordered o l r : grows (fcmp_ordered o l r).
Proof. unfold fcmp_ordered. grows. Qed.
Lemma grows_call c f a n : grows (call c f a n).
Proof. unfold call. grows. Qed.
Lemma grows_bitcast v t : grows (bitcast v t).
Proof. unfold bitcast. grows. Qed.
Lemma grows_builder_ret v : grows (builder_ret v).
Proof. unfold builder_ret. grows. Qed.
#[local] Hint Resolve grows_append_basic_block grows_alloca grows_store
  grows_load grows_binop grows_fcmp_ordered grows_call grows_bitcast
  grows_builder_ret : grows.

Lemma grows_branch t : grows (branch t).
Proof. unfold branch. grows. Qed.
Lemma grows_cbranch c t f : grows (cbranch c t f).
Proof. unfold cbranch. grows. Qed.
Lemma grows__label_suffix l s : grows (_label_suffix l s).
Proof. unfold _label_suffix. grows. Qed.
#[local] Hint Resolve grows_branch grows_cbranch grows__label_suffix : grows.

Lemma grows_if_else_enter p : grows (if_else_enter p).
Proof. unfold if_else_enter. grows. Qed.
Lemma grows__branch_helper {A} e x (body : M A) :
  grows body -> grows (_branch_helper e x body).
Proof. intros H. unfold _branch_helper. grows. Qed.
#[local] Hint Resolve grows_if_else_enter grows__branch_helper
  grows_forM_ grows_mapM : grows.

Lemma grows__codegen node : grows (_codegen node).
Proof.
  induction node using obj_ind'; simpl;
    try (apply grows_raise);
    unfold _codegen_Number, _codegen_Text, _codegen_ID, _codegen_AssignStatement,
      _codegen_BinaryOperation, _codegen_IfStatement, _codegen_WhileStatement,
      _codegen_VariableDeclaration, _codegen_FunctionCall,
      _codegen_FunctionDefinition, _codegen_Block, _codegen_Program,
      _codegen_ReturnStatement, _codegen_PrintStatement, Function_append_basic_block;
    grows.
Qed.

Lemma grows_generate_code node : grows (generate_code node).
Proof.
  destruct node; simpl; try apply grows_raise.
  - apply grows_forM_, Forall_forall. intros i _.
    destruct (is_FunctionDefinition i); [apply grows__codegen | apply grows_raise].
  - apply grows_bind; [apply (grows__codegen (Program _)) | intros; apply grows_ret].
  - apply grows_bind; [apply (grows__codegen (Block _ _)) | intros; apply grows_ret].
Qed.

Lemma later_globals st st' : later st st' -> globals st ⊆ globals st'.
Proof.
  induction 1 as [|st' node _ IH|st' node _ IH]; [reflexivity| |].
  - etrans; [exact IH | apply grows_generate_code].
  - etrans; [exact IH | apply grows__codegen].
Qed.

(** ** The generator as [__init__] leaves it *)

Lemma init_shell module_name w :
  __init__ "shell" module_name w = Ok (shell_state module_name w).
Proof. reflexivity. Qed.

Lemma init_compile module_name w :
  __init__ "compile" module_name w = Ok (compile_state module_name w).
Proof. reflexivity. Qed.

Lemma init_other_mode m module_name w :
  m <> "shell" -> m <> "compile" -> __init__ m module_name w = Raise AssertionError.
Proof.
  intros H1 H2. unfold __init__. simpl.
  destruct (String.eqb_spec m "shell"); [contradiction|].
  destruct (String.eqb_spec m "compile"); [contradiction|]. reflexivity.
Qed.

(** A name that is a module global makes a function definition of that name
    fail with the redefinition error, and leaves the generator untouched. *)
Lemma redefinition st n ps body :
  is_Some (globals st !! id_name n) ->
  _codegen (FunctionDefinition n ps body) st
  = (st, Raise (CodegenError (RedefinitionOfFunction (id_name n)))).
Proof.
  intros [g Hg]. simpl. unfold _codegen_FunctionDefinition, bind, get. simpl.
  rewrite Hg. reflexivity.
Qed.

(** The first statement of [_codegen_PrintStatement] makes sure [printf] is
    a global, before anything that can raise. *)
Lemma print_declares_printf st print_list :
  is_Some (globals (_codegen (PrintStatement print_list) st).1 !! "printf").
Proof.
  assert (Hfirst : forall A (k : GlobalValue -> M A),
    (forall g, grows (k g)) ->
    is_Some (globals
      ((do printf <-
          match globals st !! "printf" with
          | Some g => ret g
          | None =>
              let f := Function (IntType 32) [voidptr_ty] true in
              run add_global "printf" f; ret f
          end; k printf) st).1 !! "printf")).
  { intros A k Hk. unfold bind at 1.
    destruct (globals st !! "printf") as [g|] eqn:E; simpl.
    - eapply lookup_weaken_is_Some; [|apply Hk]. rewrite E. eauto.
    - unfold add_global, bind, get, update, ret. simpl. rewrite E. simpl.
      eapply lookup_weaken_is_Some; [|apply Hk].
      destruct st; simpl. rewrite lookup_insert_eq. eauto. }
  simpl. unfold _codegen_PrintStatement. unfold bind at 1, get at 1.
  apply Hfirst. intros g. grows.
  all: apply grows__codegen.
Qed.

(** ** Reserved global names *)

(** C10. In interactive mode, that is in every generator reached from the
    one [__init__('shell')] builds, lowering a function definition named
    main fails with the redefinition error; and in every generator reached
    after a PrintStatement was lowered, lowering a function definition named
    printf fails with the redefinition error.  No user function of either
    name is needed: main is the implicit entry function and printf the
    declaration the first print adds. *)
Theorem C10_main_and_printf_are_taken (flag : bool) (ps : list ID) (body : obj) :
  (forall module_name w st,
      later (shell_state module_name w) st ->
      _codegen (FunctionDefinition (mkID "main" flag) ps body) st
      = (st, Raise (CodegenError (RedefinitionOfFunction "main"))))
  /\ (forall st0 print_list st,
      later (_codegen (PrintStatement print_list) st0).1 st ->
      _codegen (FunctionDefinition (mkID "printf" flag) ps body) st
      = (st, Raise (CodegenError (RedefinitionOfFunction "printf")))).
Proof.
  split.
  - intros module_name w st Hst.
    apply (redefinition st (mkID "main" flag)). simpl.
    eapply lookup_weaken_is_Some; [|apply later_globals, Hst].
    simpl. rewrite lookup_singleton_eq. eauto.
  - intros st0 print_list st Hst.
    apply (redefinition st (mkID "printf" flag)). simpl.
    eapply lookup_weaken_is_Some; [|apply later_globals, Hst].
    apply print_declares_printf.
Qed.

Lemma C10_witness :
  (_codegen (FunctionDefinition (id_of "main") [] (Block [] []))
            (generate_code define_f shell0).1).2
  = Raise (CodegenError (RedefinitionOfFunction "main"))
  /\ (_codegen (FunctionDefinition (id_of "printf") [] (Block [] []))
               (_codegen (PrintStatement [Number false 1%float]) shell0).1).2
     = Raise (CodegenError (RedefinitionOfFunction "printf")).
Proof.
  unfold id_of. split.
  - rewrite (proj1 (C10_main_and_printf_are_taken false [] (Block [] []))
               "<stdin>" example_world (generate_code define_f shell0).1
               (later_generate_code _ _ _ (later_refl _))).
    reflexivity.
  - rewrite (proj2 (C10_main_and_printf_are_taken false [] (Block [] []))
               shell0 [Number false 1%float] _ (later_refl _)).
    reflexivity.
Defined.

(** ** Name resolution *)

(** C2. An identifier that is read, and the target of an assignment, is
    looked up in the function tier first: with an entry there, the load or
    store uses that entry's address, whatever the global tier holds.  Only
    without one is the global tier read; its entry is used if it has one,
    and otherwise lowering raises the name error, before anything is
    emitted. *)
Theorem C2_resolution_order (st : LLVMCodeGenerator) (x : ID) (e : obj) :
  (forall a,
      function_symbol_table st !! id_name x = Some a ->
      _codegen (Ident x) st = (do v <- load a (id_name x); ret (Some v)) st
      /\ _codegen (AssignStatement x e) st
         = (do v <- _codegen e; run store v a; ret None) st)
  /\ (forall g,
      function_symbol_table st !! id_name x = None ->
      main_symbol_table st = Some g ->
      match g !! id_name x with
      | Some a =>
          _codegen (Ident x) st = (do v <- load a (id_name x); ret (Some v)) st
          /\ _codegen (AssignStatement x e) st
             = (do v <- _codegen e; run store v a; ret None) st
      | None =>
          _codegen (Ident x) st
          = (st, Raise (CodegenError (NameNotDefined (id_name x))))
          /\ _codegen (AssignStatement x e) st
             = (st, Raise (CodegenError (NameNotDefined (id_name x))))
      end).
Proof.
  split.
  - intros a Ha. simpl.
    unfold _codegen_ID, _codegen_AssignStatement, bind, get, ret. simpl.
    rewrite Ha. split; reflexivity.
  - intros g Hf Hg. simpl.
    unfold _codegen_ID, _codegen_AssignStatement, bind, get, ret,
      self_main_symbol_table, raise. simpl.
    rewrite Hf, Hg. destruct (g !! id_name x); split; reflexivity.
Qed.

Lemma C2_witness :
  (_codegen (Ident (id_of "x")) shadowing_state).2
  = Ok (Some (LoadInstr 9 (AllocaInstr 8 DoubleType "x") "x"))
  /\ (_codegen (Ident (id_of "z")) shadowing_state).2
     = Ok (Some (LoadInstr 9 (AllocaInstr 6 DoubleType "z") "z"))
  /\ _codegen (AssignStatement (id_of "y") (Number false 1%float)) shadowing_state
     = (shadowing_state, Raise (CodegenError (NameNotDefined "y"))).
Proof.
  split; [|split].
  - rewrite (proj1 (proj1 (C2_resolution_order shadowing_state (id_of "x") PyNone)
                      _ eq_refl)).
    reflexivity.
  - pose proof (proj2 (C2_resolution_order shadowing_state (id_of "z") PyNone)
                  _ eq_refl eq_refl) as H.
    destruct (_ !! id_name (id_of "z")) eqn:E in H;
      vm_compute in E; [|discriminate].
    injection E as <-. rewrite (proj1 H). reflexivity.
  - pose proof (proj2 (C2_resolution_order shadowing_state (id_of "y")
                         (Number false 1%float)) _ eq_refl eq_refl) as H.
    destruct (_ !! id_name (id_of "y")) eqn:E in H;
      vm_compute in E; [discriminate|].
    exact (proj2 H).
Defined.

(** ** Function calls *)

(** C4. A call whose callee name is no module global does not raise the
    generator's unknown-function error: [get_global] raises KeyError for
    the name, and the test that follows it in [_codegen_FunctionCall] is
    not reached. *)
Theorem C4_unknown_callee_raises_KeyError
    (st : LLVMCodeGenerator) (flag : bool) (name : ID)
    (argument_list : option (list obj)) :
  globals st !! id_name name = None ->
  _codegen (FunctionCall flag name argument_list) st
  = (st, Raise (KeyError (id_name name))).
Proof.
  intros H. simpl. unfold _codegen_FunctionCall, get_global, bind, get. simpl.
  rewrite H. reflexivity.
Qed.

Lemma C4_witness :
  _codegen (FunctionCall false (id_of "foo") None) shell0
  = (shell0, Raise (KeyError "foo")).
Proof.
  apply (C4_unknown_callee_raises_KeyError shell0 false (id_of "foo") None).
  reflexivity.
Defined.

(** The example inputs are what the node constructors build. *)
Lemma examples_are_constructed :
  Init.FunctionCall (Ident (id_of "foo")) PyNone
  = Ok (FunctionCall false (id_of "foo") None)
  /\ Init.AssignStatement (Ident (id_of "x")) (FunctionCall false (id_of "foo") None)
     = Ok (AssignStatement (id_of "x") (FunctionCall false (id_of "foo") None))
  /\ Init.VariableDeclaration (PyList [Ident (id_of "x")])
     = Ok (VariableDeclaration [id_of "x"])
  /\ Init.Block (PyList [VariableDeclaration [id_of "x"]])
                (PyList [AssignStatement (id_of "x") (FunctionCall false (id_of "foo") None)])
     = Ok call_of_undefined
  /\ Init.FunctionDefinition (Ident (id_of "g")) (PyList [Ident (id_of "x")])
       (Block [] [AssignStatement (id_of "y") (Number false 1%float)])
     = Ok (FunctionDefinition (id_of "g") [id_of "x"]
             (Block [] [AssignStatement (id_of "y") (Number false 1%float)])).
Proof. repeat split; reflexivity. Qed.

(** [VAR x] and [x := foo()] in a new interactive session, [foo] never
    having been defined: the caller gets KeyError. *)
Lemma undefined_callee_in_a_session :
  (generate_code call_of_undefined shell0).2 = Raise (KeyError "foo").
Proof. reflexivity. Qed.

(** A callee name that denotes a global variable is reported as an unknown
    function. *)
Lemma callee_not_a_function st flag name argument_list t l c i :
  globals st !! id_name name = Some (GlobalVariable t l c i) ->
  _codegen (FunctionCall flag name argument_list) st
  = (st, Raise (CodegenError (CallToUnknownFunction (id_name name)))).
Proof.
  intros H. simpl. unfold _codegen_FunctionCall, get_global, bind, get. simpl.
  rewrite H. reflexivity.
Qed.

(** With an argument list, a call whose number of arguments differs from
    the callee's number of parameters raises the arity error, before any
    argument is lowered. *)
Lemma arity_mismatch st flag name l r callee_args va :
  globals st !! id_name name = Some (Function r callee_args va) ->
  length callee_args <> length l ->
  _codegen (FunctionCall flag name (Some l)) st
  = (st, Raise (CodegenError (CallArgumentLengthMismatch (length l) (id_name name)))).
Proof.
  intros H Hlen. simpl. unfold _codegen_FunctionCall, get_global, bind, get. simpl.
  rewrite H. simpl.
  destruct (Nat.eqb_spec (length callee_args) (length l)); [contradiction|].
  reflexivity.
Qed.

(** C5. A call without an argument list ([None], which stands for no
    arguments) to a function that has parameters is an arity mismatch, but
    it raises TypeError and not the arity error: the error message asks for
    the length of [None]. *)
Theorem C5_call_without_arguments_raises_TypeError
    (st : LLVMCodeGenerator) (flag : bool) (name : ID)
    (r : ty) (callee_args : list ty) (va : bool) :
  globals st !! id_name name = Some (Function r callee_args va) ->
  length callee_args <> 0 ->
  _codegen (FunctionCall flag name None) st
  = (st, Raise (TypeError "object of type 'NoneType' has no len()")).
Proof.
  intros H Hlen. simpl. unfold _codegen_FunctionCall, get_global, bind, get. simpl.
  rewrite H. simpl. destruct callee_args; [contradiction|]. reflexivity.
Qed.

Lemma C5_witness :
  _codegen (FunctionCall false (id_of "f") None) (generate_code define_f shell0).1
  = ((generate_code define_f shell0).1,
     Raise (TypeError "object of type 'NoneType' has no len()")).
Proof.
  apply (C5_call_without_arguments_raises_TypeError
           (generate_code define_f shell0).1 false (id_of "f")
           DoubleType [DoubleType] false).
  - reflexivity.
  - simpl. lia.
Defined.

(** After [FUNC f(a) { }] was lowered in an interactive session, [VAR x] and
    [x := f()] raise TypeError. *)
Lemma call_without_arguments_in_a_session :
  (generate_code define_f shell0).2 = Ok tt
  /\ globals (generate_code define_f shell0).1 !! "f"
     = Some (Function DoubleType [DoubleType] false)
  /\ (generate_code call_f_without_arguments (generate_code define_f shell0).1).2
     = Raise (TypeError "object of type 'NoneType' has no len()").
Proof. repeat split; reflexivity. Qed.

(** ** Conditionals *)

(** No visitor exists for [None]: dispatching on it is an AttributeError. *)
Lemma codegen_None st :
  _codegen PyNone st = (st, Raise (AttributeError "_codegen_NoneType")).
Proof. reflexivity. Qed.

(** The blocks that [_codegen_IfStatement] makes by hand defeat llvmlite's
    [if_else]: the builder is put on a block whose parent is a block, and
    the blocks of the two branches cannot be appended to a block.  So
    whatever the test and the branches are, the visitor raises, if not
    earlier then on entering [if_else], before either branch is lowered. *)
Lemma if_statement_raises (st : LLVMCodeGenerator) (test then_block else_block : obj) :
  exists st' e, _codegen (IfStatement test then_block else_block) st = (st', Raise e).
Proof.
  simpl. unfold _codegen_IfStatement.
  unfold bind at 1, self_builder at 1.
  destruct (builder st) as [b0|]; [|eauto].
  unfold bind at 1.
  destruct (_codegen test st) as [st1 [tv|e]]; [|eauto].
  unfold bind at 1.
  destruct (fcmp_ordered ">" tv (Some (Constant DoubleType (CFloat 0))) st1)
    as [st2 [cmp|e]]; [|eauto].
  unfold bind at 1, self_builder at 1.
  destruct st2 as [m mn G B bld mst fst u r w]. simpl.
  destruct bld as [b|]; [|eauto].
  unfold ran6, new_block, fresh_uid, append_basic_block, builder_function,
    Function_append_basic_block, new_block, fresh_uid, position_at_start,
    if_else_enter, self_builder, block_data, bind, get, update, ret, raise.
  simpl.
  destruct (decide (block b = u)) as [E|Hne].
  - rewrite E, lookup_insert_eq. simpl. eauto.
  - rewrite lookup_insert_ne by congruence.
    destruct (B !! block b) as [bb|]; [|simpl; eauto]. simpl.
    destruct (parent bb) as [fn|p]; [|simpl; eauto]. simpl.
    rewrite lookup_insert_ne by lia. rewrite lookup_insert_eq. simpl.
    unfold _label_suffix.
    destruct (Nat.ltb 50 _); simpl;
      unfold append_basic_block, builder_function, self_builder, block_data,
        bind, get, ret, raise; simpl;
      rewrite lookup_insert_ne by lia; rewrite lookup_insert_eq; simpl; eauto.
Qed.

(** C3. An If statement without else block, whose [else_block] is [None],
    never lowers: for every generator, test and then-block the visitor
    raises instead of returning. *)
Theorem C3_if_without_else_raises
    (st : LLVMCodeGenerator) (test then_block : obj) :
  exists st' e,
    _codegen (IfStatement test then_block PyNone) st = (st', Raise e).
Proof. apply if_statement_raises. Qed.

(** [IF 0 THEN PRINT "yes" FI] in a new interactive session raises
    AttributeError. *)
Lemma if_without_else_in_a_session :
  Init.IfStatement (Number false 0%float)
                   (Block [] [PrintStatement [Text (String dquote ("yes" ++ String dquote EmptyString))]])
                   PyNone
  = Ok if_without_else
  /\ is_AttributeError (generate_code (Block [] [if_without_else]) shell0).2 = true.
Proof. split; reflexivity. Qed.

(** ** The unary-minus flag *)

(** C8. Toggling the unary-minus flag of an expression does not change what
    is lowered: no visitor reads the flag. *)
Theorem C8_minus_flag_is_not_consulted (e e' : obj) (st : LLVMCodeGenerator) :
  change_minus_flag e = Ok e' -> _codegen e' st = _codegen e st.
Proof.
  destruct e; simpl; intros [= <-]; reflexivity.
Qed.

Lemma C8_witness :
  change_minus_flag (Number false 5%float) = Ok (Number true 5%float)
  /\ (_codegen (Number true 5%float) shell0).2
     = Ok (Some (Constant DoubleType (CFloat 5%float))).
Proof.
  split; [reflexivity|].
  rewrite (C8_minus_flag_is_not_consulted (Number false 5%float) (Number true 5%float)
             shell0 eq_refl).
  reflexivity.
Defined.

(** The constant emitted for the flagged literal 5.0 is not the constant
    -5.0. *)
Lemma flagged_number_is_not_negated :
  (_codegen (Number true 5%float) shell0).2
  <> Ok (Some (Constant DoubleType (CFloat (-5)%float))).
Proof.
  simpl. intros [= H];
    apply (f_equal (PrimFloat.ltb 0%float)) in H; vm_compute in H; discriminate.
Qed.

(** The parser's rule for unary minus binds the method's return value,
    which is [None], to the parsed expression. *)
Lemma uminus_yields_None e p :
  p_expression_uminus e = Ok p -> p.2 = PyNone.
Proof.
  unfold p_expression_uminus. destruct (change_minus_flag e); intros [= <-].
  reflexivity.
Qed.

(** ** Node constructors *)

(** The assertions that the constructor of BinaryOperation does make. *)
Lemma BinaryOperation_checks_left l op r :
  is_Expression l = false -> Init.BinaryOperation l op r = Raise AssertionError.
Proof. intros H. unfold Init.BinaryOperation. rewrite H. reflexivity. Qed.

Lemma BinaryOperation_checks_operator l op r n :
  Init.BinaryOperation l (PyStr op) r = Ok n -> op ∈ ["+"; "-"; "*"; "/"].
Proof.
  unfold Init.BinaryOperation. destruct (is_Expression l); simpl; [|discriminate].
  repeat match goal with
         | |- context [String.eqb op ?s] =>
             destruct (String.eqb_spec op s); [subst; intros _; set_solver|]
         end.
  discriminate.
Qed.

(** C9. Two structural constraints are not checked at construction: any
    object at all, [None] included, is accepted as the right operand of a
    BinaryOperation, and any list as the print list of a PrintStatement. *)
Theorem C9_unchecked_constructor_arguments :
  (forall r : obj,
      Init.BinaryOperation (Number false 1%float) (PyStr "+") r
      = Ok (BinaryOperation false (Number false 1%float) "+" r))
  /\ (forall items : list obj,
      Init.PrintStatement (PyList items) = Ok (PrintStatement items))
  /\ is_Expression PyNone = false
  /\ is_Text PyNone = false.
Proof. repeat split; reflexivity. Qed.

(** ** A failed function definition *)

(** C7. [VAR x] binds [x] in the global tier.  Then lowering
    [FUNC g(x) { y := 1.0 }] fails with the name error for [y], and leaves
    the function tier holding the parameter [x] and the builder inside [g]:
    reading [x] afterwards loads from the parameter's location, not from
    the location [VAR x] had bound. *)
Theorem C7_failed_function_leaves_its_tier :
  let st1 := (generate_code declare_x shell0).1 in
  let st2 := (generate_code define_g st1).1 in
  (generate_code declare_x shell0).2 = Ok tt
  /\ (generate_code define_g st1).2 = Raise (CodegenError (NameNotDefined "y"))
  /\ function_symbol_table st1 = ∅
  /\ function_symbol_table st2 !! "x" = Some (AllocaInstr 3 DoubleType "x")
  /\ builder st1 = Some (mkBuilder 0 2)
  /\ builder st2 = Some (mkBuilder 2 2)
  /\ main_symbol_table st2 = Some {[ "x" := AllocaInstr 1 DoubleType "x" ]}
  /\ (_codegen (Ident (id_of "x")) st1).2
     = Ok (Some (LoadInstr 2 (AllocaInstr 1 DoubleType "x") "x"))
  /\ (_codegen (Ident (id_of "x")) st2).2
     = Ok (Some (LoadInstr 4 (AllocaInstr 3 DoubleType "x") "x")).
Proof. repeat split; reflexivity. Qed.

(** ** Declarations *)

(** C6 (amended). Lowering a declaration of a name that the active tier
    already binds succeeds, allocates a new location, stores zero to it, and
    rebinds the name to it: the tier keeps one binding per name and the
    same names as before, and the new location is not the one the name was
    bound to.  The alloca and the store go into the builder's block, next
    to what the block held. *)
Theorem C6_redeclaration_binds_a_new_location
    (st : LLVMCodeGenerator) (x : ID) (tier : gmap string Value) (old : Value) :
  active_tier st = Some tier ->
  tier !! id_name x = Some old ->
  value_uid old <> Some (next_uid st) ->
  let new := AllocaInstr (next_uid st) DoubleType (id_name x) in
  exists st',
    _codegen (VariableDeclaration [x]) st = (st', Ok None)
    /\ active_tier st' = Some (<[id_name x := new]> tier)
    /\ new <> old
    /\ dom (<[id_name x := new]> tier) = dom tier
    /\ next_uid st' = S (next_uid st)
    /\ exists b bb,
         builder st = Some b /\ blocks st !! block b = Some bb
         /\ instructions <$> blocks st' !! block b
            = Some (list_insert_at (S (anchor b))
                      (IStore (Constant DoubleType (CFloat 0)) new)
                      (list_insert_at (anchor b) (IValue new) (instructions bb))).
Proof.
  intros Hact Hold Hfresh new.
  unfold active_tier, builder_in_main in Hact.
  destruct st as [m mn G B bld mst fst n r w]. simpl in *.
  destruct bld as [b|]; [|discriminate].
  destruct (B !! block b) as [bb|] eqn:HB; [|discriminate].
  unfold _codegen_VariableDeclaration, forM_, alloca, store, _insert,
    builder_function, parent_name, block_data, self_builder, self_main_symbol_table, fresh_uid, type_attr,
    bind, ret, get, update, raise. simpl.
  assert (Hnew : new <> old).
  { intros <-. apply Hfresh. reflexivity. }
  assert (Hdom : dom (<[id_name x := new]> tier) = dom tier).
  { apply dom_insert_lookup_L. eauto. }
  assert (Hname : forall u,
    block_name <$> (alter (fun bb0 => mkBlock (parent bb0) (block_name bb0)
                       (list_insert_at (S (anchor b))
                          (IStore (Constant DoubleType (CFloat 0)) new) (instructions bb0))
                       (terminator bb0)) (block b)
                 (alter (fun bb0 => mkBlock (parent bb0) (block_name bb0)
                       (list_insert_at (anchor b) (IValue new) (instructions bb0))
                       (terminator bb0)) (block b) B) !! u)
    = block_name <$> (B !! u)).
  { intros u. destruct (decide (u = block b)) as [->|Hne].
    - rewrite !lookup_alter_eq, HB. reflexivity.
    - rewrite !lookup_alter_ne by congruence. reflexivity. }
  rewrite !lookup_alter_eq, HB. simpl.
  destruct (parent bb) as [fn|u] eqn:Hp; simpl.
  - destruct (String.eqb fn "main") eqn:Hmain; simpl in *.
    + subst mst. simpl. eexists. split; [reflexivity|].
      unfold active_tier, builder_in_main. simpl.
      rewrite !lookup_alter_eq, HB. simpl. rewrite Hp. simpl. rewrite Hmain.
      repeat split; auto. exists b, bb. rewrite !lookup_alter_eq, HB. auto.
    + injection Hact as <-. eexists. split; [reflexivity|].
      unfold active_tier, builder_in_main. simpl.
      rewrite !lookup_alter_eq, HB. simpl. rewrite Hp. simpl. rewrite Hmain.
      repeat split; auto. exists b, bb. rewrite !lookup_alter_eq, HB. auto.
  - specialize (Hname u). fold new. fold new in Hname.
    destruct (B !! u) as [pb|] eqn:Hu; [|discriminate].
    destruct (alter _ (block b) (alter _ (block b) B) !! u) as [pb'|] eqn:Hu';
      [|discriminate].
    injection Hname as Hname. simpl. rewrite Hname.
    destruct (label_is (block_name pb) "main") eqn:Hmain; simpl in *.
    + subst mst. simpl. eexists. split; [reflexivity|].
      unfold active_tier, builder_in_main. simpl.
      rewrite !lookup_alter_eq, HB. simpl. rewrite Hp. fold new. rewrite Hu'.
      rewrite Hname, Hmain.
      repeat split; auto. exists b, bb. rewrite !lookup_alter_eq, HB. auto.
    + injection Hact as <-. eexists. split; [reflexivity|].
      unfold active_tier, builder_in_main. simpl.
      rewrite !lookup_alter_eq, HB. simpl. rewrite Hp. fold new. rewrite Hu'.
      rewrite Hname, Hmain.
      repeat split; auto. exists b, bb. rewrite !lookup_alter_eq, HB. auto.
Qed.

Lemma C6_witness :
  exists st',
    _codegen (VariableDeclaration [id_of "x"]) (generate_code declare_x shell0).1
    = (st', Ok None)
    /\ active_tier st'
       = Some (<["x" := AllocaInstr 2 DoubleType "x"]>
                 {[ "x" := AllocaInstr 1 DoubleType "x" ]}).
Proof.
  destruct (C6_redeclaration_binds_a_new_location
              (generate_code declare_x shell0).1 (id_of "x")
              {[ "x" := AllocaInstr 1 DoubleType "x" ]}
              (AllocaInstr 1 DoubleType "x"))
    as (st' & H1 & H2 & _).
  - reflexivity.
  - reflexivity.
  - vm_compute. discriminate.
  - exists st'. split; [exact H1 | exact H2].
Defined.

(** C6, as stated, fails: after [VAR x] twice in an interactive session the
    entry block holds two locations for [x], and the name is bound to the
    second one, which is not the location of the first declaration. *)
Lemma C6_counterexample :
  let st1 := (generate_code declare_x shell0).1 in
  let st2 := (generate_code declare_x st1).1 in
  main_symbol_table st1 = Some {[ "x" := AllocaInstr 1 DoubleType "x" ]}
  /\ (generate_code declare_x st1).2 = Ok tt
  /\ main_symbol_table st2 = Some {[ "x" := AllocaInstr 2 DoubleType "x" ]}
  /\ AllocaInstr 2 DoubleType "x" <> AllocaInstr 1 DoubleType "x"
  /\ instructions <$> blocks st2 !! 0
     = Some [ IValue (AllocaInstr 1 DoubleType "x");
              IStore (Constant DoubleType (CFloat 0)) (AllocaInstr 1 DoubleType "x");
              IValue (AllocaInstr 2 DoubleType "x");
              IStore (Constant DoubleType (CFloat 0)) (AllocaInstr 2 DoubleType "x");
              IRet None ].
Proof. repeat split; try reflexivity. discriminate. Qed.

(** ** Lowering straight-line functions

    The rules of [hoare] for the monad, the builder calls under the
    invariant [inside], and from them the lowering of expressions,
    statements, declarations and whole function definitions. *)

Lemma hoare_ret {A} (P : LLVMCodeGenerator -> Prop) (a : A)
    (Q : A -> LLVMCodeGenerator -> Prop) :
  (forall st, P st -> Q a st) -> hoare P (ret a) Q.
Proof. intros H st HP. exists st, a. split; [reflexivity | auto]. Qed.

Lemma hoare_bind {A B} P (m : M A) R (k : A -> M B) Q :
  hoare P m R -> (forall a, hoare (R a) (k a) Q) -> hoare P (bind m k) Q.
Proof.
  intros Hm Hk st HP. destruct (Hm st HP) as (st1 & a & E & HR).
  destruct (Hk a st1 HR) as (st2 & b & E2 & HQ).
  exists st2, b. split; [|assumption]. unfold bind. rewrite E. exact E2.
Qed.

Lemma hoare_pure {A} (P : LLVMCodeGenerator -> Prop) (phi : Prop) (m : M A) Q :
  (phi -> hoare P m Q) -> hoare (fun st => P st /\ phi) m Q.
Proof. intros H st [HP Hphi]. exact (H Hphi st HP). Qed.

Lemma hoare_pre {A} (P P' : LLVMCodeGenerator -> Prop) (m : M A) Q :
  hoare P m Q -> (forall st, P' st -> P st) -> hoare P' m Q.
Proof. intros H HP st HP'. apply H, HP, HP'. Qed.

Lemma bind_ret {A B} (a : A) (k : A -> M B) : bind (ret a) k = k a.
Proof. reflexivity. Qed.

(** Reading an attribute and going on with it. *)
Lemma hoare_get_bind {A B} P (f : LLVMCodeGenerator -> A) (k : A -> M B) Q :
  (forall st0, P st0 -> hoare (fun st => st = st0) (k (f st0)) Q) ->
  hoare P (bind (get f) k) Q.
Proof. intros H st HP. exact (H st HP st eq_refl). Qed.

Section inside_a_function.

Variables (G : gmap string GlobalValue) (fn : string).

Lemma inside_self_builder sc :
  hoare (inside G fn sc) self_builder (fun _ => inside G fn sc).
Proof.
  intros st Hin. pose proof Hin as (_ & (b & bb & Hb & _) & _).
  exists st, b. unfold self_builder. rewrite Hb. auto.
Qed.

Lemma inside_fresh_uid sc :
  hoare (inside G fn sc) fresh_uid (fun _ => inside G fn sc).
Proof. intros [] Hin. eexists _, _. split; [reflexivity | exact Hin]. Qed.

Lemma inside__insert sc i :
  hoare (inside G fn sc) (_insert i) (fun _ => inside G fn sc).
Proof.
  intros st (HG & (b & bb & Hb & HB & Hp & Ht) & Hsc).
  destruct st; simpl in *; subst.
  eexists _, _. split; [reflexivity|]. split; [reflexivity|]. split; [|exact Hsc].
  do 2 eexists. simpl. split; [reflexivity|]. simpl.
  rewrite lookup_alter_eq, HB. simpl. split; [reflexivity|]. auto.
Qed.

Lemma inside_alloca sc n :
  hoare (inside G fn sc) (alloca DoubleType n)
        (fun v st => inside G fn sc st /\ type_of v = PointerType DoubleType).
Proof.
  unfold alloca.
  eapply hoare_bind; [apply inside_self_builder | intros ?].
  eapply hoare_bind; [apply inside_fresh_uid | intros uid].
  eapply hoare_bind; [apply inside__insert | intros ?].
  apply hoare_ret. auto.
Qed.

Lemma inside_store sc v p :
  type_of v = DoubleType -> type_of p = PointerType DoubleType ->
  hoare (inside G fn sc) (store (Some v) p) (fun _ => inside G fn sc).
Proof.
  intros Hv Hp. unfold store.
  eapply hoare_bind; [apply inside_self_builder | intros ?].
  rewrite Hp. simpl. rewrite bind_ret, Hv. simpl. apply inside__insert.
Qed.

Lemma inside_load sc p n :
  type_of p = PointerType DoubleType ->
  hoare (inside G fn sc) (load p n)
        (fun v st => inside G fn sc st /\ type_of v = DoubleType).
Proof.
  intros Hp. unfold load.
  eapply hoare_bind; [apply inside_self_builder | intros ?].
  rewrite Hp. simpl.
  eapply hoare_bind; [apply inside_fresh_uid | intros uid].
  eapply hoare_bind; [apply inside__insert | intros ?].
  apply hoare_ret. intros st H. split; [exact H|]. simpl. rewrite Hp. reflexivity.
Qed.

Lemma inside_binop sc o l r n :
  type_of l = DoubleType -> type_of r = DoubleType ->
  hoare (inside G fn sc) (binop o (Some l) (Some r) n)
        (fun v st => inside G fn sc st /\ type_of v = DoubleType).
Proof.
  intros Hl Hr. unfold binop.
  eapply hoare_bind; [apply inside_self_builder | intros ?].
  simpl. rewrite !bind_ret, Hl, Hr. simpl.
  eapply hoare_bind; [apply inside_fresh_uid | intros uid].
  eapply hoare_bind; [apply inside__insert | intros ?].
  apply hoare_ret. intros st H. split; [exact H|]. simpl. exact Hl.
Qed.

Lemma inside_builder_function sc :
  hoare (inside G fn sc) builder_function
        (fun p st => inside G fn sc st /\ p = InFunction fn).
Proof.
  intros st Hin. pose proof Hin as (_ & (b & bb & Hb & HB & Hp & _) & _).
  exists st, (InFunction fn). split; [|auto].
  unfold builder_function, self_builder, block_data, bind, get, ret.
  rewrite Hb. simpl. rewrite HB. simpl. rewrite Hp. reflexivity.
Qed.

Lemma inside_bind_name sc x a :
  type_of a = PointerType DoubleType ->
  hoare (inside G fn sc)
        (update (fun st =>
           set_function_symbol_table (<[x := a]> (function_symbol_table st)) st))
        (fun _ => inside G fn (sc ++ [x])).
Proof.
  intros Ha st (HG & Hb & Hsc). eexists _, tt. split; [reflexivity|].
  destruct st; simpl in *. split; [exact HG|]. split; [exact Hb|].
  intros y Hy. simpl. destruct (decide (y = x)) as [->|Hne].
  - exists a. rewrite lookup_insert_eq. auto.
  - rewrite lookup_insert_ne by congruence. apply Hsc.
    apply elem_of_app in Hy as [Hy|Hy]; [exact Hy|].
    apply list_elem_of_singleton in Hy. contradiction.
Qed.

Lemma inside_builder_ret sc v :
  hoare (inside G fn sc) (builder_ret v)
        (fun _ st => globals st = G /\ is_Some (builder st)).
Proof.
  intros st (HG & (b & bb & Hb & HB & Hp & Ht) & Hsc).
  destruct st; simpl in *; subst.
  unfold builder_ret, _set_terminator, _insert, self_builder, block_data,
    bind, get, update, ret. simpl. rewrite HB. simpl. rewrite Ht. simpl.
  eexists _, _. split; [reflexivity|]. simpl. eauto.
Qed.

(** Lowering a simple expression emits code and yields a double. *)
Lemma simple_expression_lowers sc e :
  simple_expression sc e = true ->
  hoare (inside G fn sc) (_codegen e)
        (fun r st => inside G fn sc st
                     /\ exists v, r = Some v /\ type_of v = DoubleType).
Proof.
  induction e using obj_ind'; simpl; try discriminate.
  - (* BinaryOperation *)
    intros H. apply andb_prop in H as [H Hr]. apply andb_prop in H as [Hl Hop].
    unfold _codegen_BinaryOperation.
    eapply hoare_bind; [apply IHe1, Hl | intros lhs].
    apply hoare_pure. intros (l & -> & Htl).
    eapply hoare_bind; [apply IHe2, Hr | intros rhs].
    apply hoare_pure. intros (r & -> & Htr).
    revert Hop. simpl.
    repeat match goal with
           | |- context [String.eqb op ?s] =>
               destruct (String.eqb op s); simpl;
                 [intros _;
                  eapply hoare_bind; [apply inside_binop; assumption | intros v];
                  apply hoare_pure; intros Hv; apply hoare_ret; eauto|]
           end.
    discriminate.
  - (* Number *)
    intros _. apply hoare_ret. eauto.
  - (* ID *)
    intros H. apply bool_decide_eq_true in H.
    unfold _codegen_ID. apply hoare_get_bind. intros st0 Hin.
    pose proof Hin as (_ & _ & Hsc). destruct (Hsc _ H) as (a & Ha & Hty).
    rewrite Ha.
    eapply hoare_pre; [|intros st ->; exact Hin].
    rewrite bind_ret.
    eapply hoare_bind; [apply (inside_load sc a), Hty | intros v]. apply hoare_pure. intros Hv. apply hoare_ret. eauto.
Qed.


Lemma simple_statement_lowers sc s :
  simple_statement sc s = true ->
  hoare (inside G fn sc) (_codegen s) (fun _ => inside G fn sc).
Proof.
  destruct s; simpl; try discriminate.
  - (* AssignStatement *)
    intros H. apply andb_prop in H as [Hx He]. apply bool_decide_eq_true in Hx.
    unfold _codegen_AssignStatement. apply hoare_get_bind. intros st0 Hin.
    pose proof Hin as (_ & _ & Hsc). destruct (Hsc _ Hx) as (a & Ha & Hty).
    rewrite Ha, bind_ret.
    eapply hoare_pre; [|intros st ->; exact Hin].
    eapply hoare_bind; [apply simple_expression_lowers, He | intros r].
    apply hoare_pure. intros (v & -> & Hv).
    eapply hoare_bind; [apply inside_store; assumption | intros ?].
    apply hoare_ret. auto.
  - (* WhileStatement *)
    intros _. apply hoare_ret. auto.
Qed.

Lemma forM__preserves {A B} (P : LLVMCodeGenerator -> Prop) (f : A -> M B) l :
  Forall (fun x => hoare P (f x) (fun _ => P)) l ->
  hoare P (forM_ f l) (fun _ => P).
Proof.
  induction 1 as [|x l Hx _ IH]; simpl.
  - apply hoare_ret. auto.
  - eapply hoare_bind; [exact Hx | intros ?; exact IH].
Qed.

Hypothesis fn_not_main : fn <> "main".

(** A declaration inside the function binds its names in the function
    tier. *)
Lemma declaration_lowers l sc :
  hoare (inside G fn sc) (_codegen (VariableDeclaration l))
        (fun _ => inside G fn (sc ++ map id_name l)).
Proof.
  simpl. unfold _codegen_VariableDeclaration.
  eapply hoare_bind; [|intros ?; apply hoare_ret; intros st H; exact H].
  revert sc. induction l as [|x l IH]; intros sc; simpl.
  - rewrite app_nil_r. apply hoare_ret. auto.
  - eapply hoare_bind.
    + eapply hoare_bind; [apply inside_alloca | intros var_addr].
      apply hoare_pure. intros Hty.
      eapply hoare_bind; [apply inside_store; [reflexivity | exact Hty] | intros ?].
      eapply hoare_bind; [apply inside_builder_function | intros p].
      apply hoare_pure. intros ->. simpl. rewrite bind_ret. simpl.
      destruct (String.eqb_spec fn "main") as [E|_]; [contradiction|].
      apply inside_bind_name, Hty.
    + intros ?. specialize (IH (sc ++ [id_name x])%list).
      rewrite <- app_assoc in IH. exact IH.
Qed.

(** The loop over the parameters binds them in the function tier. *)
Lemma parameters_lower (l : list (nat * ID)) sc :
  hoare (inside G fn sc)
        (forM_ (fun '(i, arg_name) =>
                  do a <- alloca DoubleType (id_name arg_name);
                  run store (Some (Argument fn i DoubleType)) a;
                  update (fun st =>
                    set_function_symbol_table
                      (<[id_name arg_name := a]> (function_symbol_table st)) st))
               l)
        (fun _ => inside G fn (sc ++ map (fun p => id_name p.2) l)).
Proof.
  revert sc. induction l as [|[i x] l IH]; intros sc; simpl.
  - rewrite app_nil_r. apply hoare_ret. auto.
  - eapply hoare_bind.
    + eapply hoare_bind; [apply inside_alloca | intros a].
      apply hoare_pure. intros Hty.
      eapply hoare_bind; [apply inside_store; [reflexivity | exact Hty] | intros ?].
      apply inside_bind_name, Hty.
    + intros ?. specialize (IH (sc ++ [id_name x])%list).
      rewrite <- app_assoc in IH. exact IH.
Qed.

Lemma declarations_lower ds sc :
  forallb is_VariableDeclaration ds = true ->
  hoare (inside G fn sc) (forM_ _codegen ds)
        (fun _ => inside G fn (sc ++ declared_names ds)).
Proof.
  revert sc. induction ds as [|d ds IH]; intros sc; simpl.
  - intros _. rewrite app_nil_r. apply hoare_ret. auto.
  - intros H. apply andb_prop in H as [Hd Hds].
    destruct d; try discriminate.
    eapply hoare_bind; [apply declaration_lowers | intros ?].
    specialize (IH (sc ++ map id_name variable_list)%list Hds).
    rewrite <- app_assoc in IH. exact IH.
Qed.

(** The body of a simple function, lowered with its parameters in scope. *)
Lemma simple_body_lowers ps ds ss :
  forallb is_VariableDeclaration ds = true ->
  forallb (simple_statement (map id_name ps ++ declared_names ds)) ss = true ->
  hoare (inside G fn (map id_name ps)) (_codegen (Block ds ss))
        (fun _ => inside G fn (map id_name ps ++ declared_names ds)).
Proof.
  intros Hds Hss. simpl. unfold _codegen_Block.
  eapply hoare_bind; [apply declarations_lower, Hds | intros ?].
  eapply hoare_bind; [|intros ?; apply hoare_ret; intros st H; exact H].
  apply forM__preserves. apply Forall_forall. intros s Hs.
  apply simple_statement_lowers.
  rewrite forallb_forall in Hss. apply Hss. apply list_elem_of_In, Hs.
Qed.

End inside_a_function.

Lemma imap_pair_names (ps : list ID) :
  map (fun p : nat * ID => id_name p.2) (imap pair ps) = map id_name ps.
Proof.
  change (map (fun p : nat * ID => id_name p.2) (imap pair ps))
    with ((fun p : nat * ID => id_name p.2) <$> imap pair ps).
  rewrite fmap_imap. apply (imap_const id_name).
Qed.

(** A simple function whose name is new lowers: the module gains the
    function, of the arity of the parameter list, and the builder and the
    function tier are as before the definition. *)
Lemma simple_function_lowers st n ps ds ss :
  is_Some (builder st) ->
  globals st !! id_name n = None ->
  id_name n <> "main" ->
  id_name n <> "" ->
  simple_function (FunctionDefinition n ps (Block ds ss)) = true ->
  exists st' r,
    _codegen (FunctionDefinition n ps (Block ds ss)) st = (st', Ok r)
    /\ globals st'
       = <[id_name n := Function DoubleType (replicate (length ps) DoubleType) false]>
           (globals st)
    /\ builder st' = builder st
    /\ function_symbol_table st' = ∅.
Proof.
  intros [b Hb] Hfresh Hmain Hempty Hsimple. simpl in Hsimple.
  apply String.eqb_neq in Hempty.
  apply andb_prop in Hsimple as [Hds Hss].
  set (F := Function DoubleType (replicate (length ps) DoubleType) false).
  set (G := <[id_name n := F]> (globals st)).
  (* the statements after the function's block has been entered *)
  pose (rest := fun stored_builder : IRBuilder =>
    run forM_ (fun '(i, arg_name) =>
          do a <- alloca DoubleType (id_name arg_name);
          run store (Some (Argument (id_name n) i DoubleType)) a;
          update (fun st =>
            set_function_symbol_table
              (<[id_name arg_name := a]> (function_symbol_table st)) st))
        (imap pair ps);
    run _codegen (Block ds ss);
    run builder_ret (Some (Constant DoubleType (CFloat 0)));
    run update (set_function_symbol_table ∅);
    run update (set_builder (Some stored_builder));
    ret (Some (global_ref (id_name n) F))).
  assert (Hrest : hoare (inside G (id_name n) [])
                    (rest b)
                    (fun _ st' => globals st' = G /\ builder st' = Some b
                                  /\ function_symbol_table st' = ∅)).
  { unfold rest.
    eapply hoare_bind; [apply parameters_lower | intros ?].
    rewrite imap_pair_names. simpl.
    eapply hoare_bind; [apply simple_body_lowers; assumption | intros ?].
    eapply hoare_bind; [apply inside_builder_ret | intros ?].
    intros st1 [HG _]. destruct st1; simpl in *.
    eexists _, _. split; [reflexivity|]. simpl. auto. }
  destruct st as [m mn G0 B bld mst fst u r w]. simpl in *. subst bld.
  set (st1 := mkGen m mn G
                (<[u := mkBlock (InFunction (id_name n)) (Label "entry") [] None]> B)
                (Some (mkBuilder u 0)) mst ∅ (S u) r w).
  assert (Hin : inside G (id_name n) [] st1).
  { split; [reflexivity|]. split.
    - exists (mkBuilder u 0), (mkBlock (InFunction (id_name n)) (Label "entry") [] None).
      simpl. rewrite lookup_insert_eq. auto.
    - intros x Hx. inversion Hx. }
  destruct (Hrest st1 Hin) as (st' & r0 & E & HG & Hb & Hf).
  exists st', r0. split; [|auto].
  rewrite <- E. unfold rest, _codegen_FunctionDefinition.
  unfold bind at 1, get at 1. simpl. rewrite Hfresh.
  unfold bind at 1, add_global at 1, bind at 1, get at 1. simpl.
  rewrite Hempty, Hfresh.
  unfold update at 1. simpl.
  unfold bind at 1, update at 1. simpl.
  unfold bind at 1, self_builder at 1. simpl.
  unfold bind at 1, Function_append_basic_block, new_block, bind at 1, fresh_uid.
  simpl. unfold bind at 1, update at 1. simpl.
  unfold bind at 1, IRBuilder_new, bind at 1, block_data, bind at 1, get at 1. simpl.
  rewrite lookup_insert_eq. simpl.
  unfold bind at 1, update at 1. simpl. reflexivity.
Qed.

(** ** Programs *)

Lemma simple_functions_lower fs : forall st,
  is_Some (builder st) ->
  is_Some (globals st !! "main") ->
  NoDup (function_names fs) ->
  "" ∉ function_names fs ->
  (forall k, k ∈ function_names fs -> globals st !! k = None) ->
  forallb simple_function fs = true ->
  exists st',
    forM_ _codegen fs st = (st', Ok tt)
    /\ builder st' = builder st
    /\ (forall n ps body,
          FunctionDefinition n ps body ∈ fs ->
          globals st' !! id_name n
          = Some (Function DoubleType (replicate (length ps) DoubleType) false))
    /\ (forall k, k ∉ function_names fs -> globals st' !! k = globals st !! k)
    /\ size (globals st') = size (globals st) + length fs.
Proof.
  induction fs as [|f fs IH]; intros st Hb Hmain Hnd Hempty Hfresh Hsimple.
  - exists st. split; [reflexivity|]. split; [reflexivity|].
    split; [|split; [reflexivity | simpl; lia]].
    intros n ps body H. inversion H.
  - simpl in Hsimple. apply andb_prop in Hsimple as [Hf Hfs].
    destruct f; try discriminate. destruct f; try discriminate.
    change (function_names (FunctionDefinition name parameter_list
                              (Block declaration_list statement_list) :: fs))
      with (id_name name :: function_names fs) in *.
    apply NoDup_cons in Hnd as [Hnotin Hnd].
    apply not_elem_of_cons in Hempty as [Hnonempty Hempty].
    assert (Hname : globals st !! id_name name = None)
      by (apply Hfresh; left).
    assert (Hnm : id_name name <> "main").
    { intros E. rewrite E in Hname. rewrite Hname in Hmain.
      destruct Hmain; discriminate. }
    destruct (simple_function_lowers st name parameter_list declaration_list
                statement_list Hb Hname Hnm (not_eq_sym Hnonempty) Hf)
      as (st1 & r & E1 & HG1 & Hb1 & _).
    destruct (IH st1) as (st' & E2 & Hb2 & Hin & Hout & Hsize); try assumption.
    + rewrite Hb1. exact Hb.
    + rewrite HG1, lookup_insert_ne by exact Hnm. exact Hmain.
    + intros k Hk. rewrite HG1, lookup_insert_ne by (intros E; subst k; contradiction).
      apply Hfresh. right. exact Hk.
    + exists st'. split; [|split; [|split; [|split]]].
      * change (forM_ _codegen (?x :: fs)) with
          (run _codegen x; forM_ _codegen fs).
        unfold bind. rewrite E1. exact E2.
      * rewrite Hb2. exact Hb1.
      * intros n ps body H. apply elem_of_cons in H as [H|H].
        -- injection H as -> -> ->.
           rewrite (Hout _ Hnotin), HG1. apply lookup_insert_eq.
        -- apply (Hin n ps body H).
      * intros k Hk. apply not_elem_of_cons in Hk as [Hne Hk].
        rewrite (Hout _ Hk), HG1. apply lookup_insert_ne. congruence.
      * rewrite Hsize, HG1, map_size_insert_None by exact Hname. simpl. lia.
Qed.

(** C1. Lowering a Program does not succeed.  In compile mode, the mode
    in which Programs are lowered, every Program with a function fails at
    its first function, whatever the names are: [__init__] has set no
    builder, and the visitor reads [self.builder] before it makes one, so
    the call raises AttributeError, or DuplicatedNameError when the name is
    empty.  In interactive mode the Program [FUNC f(a) { RETURN a }] fails
    as well, with the AssertionError of the second [ret] in one block. *)
Theorem C1_programs_are_not_lowered
    (module_name : string) (w : World) (n : ID) (ps : list ID) (body : obj)
    (fs : list obj) :
  (exists st',
     generate_code (Program (FunctionDefinition n ps body :: fs))
       (compile_state module_name w)
     = (st', Raise (if String.eqb (id_name n) ""
                    then DuplicatedNameError ""
                    else AttributeError "builder")))
  /\ (generate_code
        (Program [FunctionDefinition (id_of "f") [id_of "a"]
                    (Block [] [ReturnStatement (Ident (id_of "a"))])])
        (shell_state module_name w)).2
     = Raise AssertionError.
Proof.
  split; [|reflexivity].
  simpl. unfold _codegen_Program. simpl.
  unfold _codegen_FunctionDefinition, add_global, self_builder, bind, get, update, raise.
  simpl. rewrite lookup_empty.
  destruct (String.eqb_spec (id_name n) "") as [->|_]; simpl; eexists; reflexivity.
Qed.

(** X25. In a generator that has a builder and the entry function main,
    that is in interactive mode, a Program of straight-line functions with
    pairwise distinct names, none of them empty or a module global yet,
    lowers without error; afterwards each function definition's name
    denotes an IR function with as many double parameters as the
    definition's parameter list is long, every other global is as it was,
    and the module has gained as many globals as the Program has
    definitions. *)
Theorem simple_programs_lower (st : LLVMCodeGenerator) (fs : list obj) :
  is_Some (builder st) ->
  is_Some (globals st !! "main") ->
  NoDup (function_names fs) ->
  "" ∉ function_names fs ->
  (forall k, k ∈ function_names fs -> globals st !! k = None) ->
  forallb simple_function fs = true ->
  exists st',
    generate_code (Program fs) st = (st', Ok tt)
    /\ (forall n ps body,
          FunctionDefinition n ps body ∈ fs ->
          globals st' !! id_name n
          = Some (Function DoubleType (replicate (length ps) DoubleType) false))
    /\ (forall k, k ∉ function_names fs -> globals st' !! k = globals st !! k)
    /\ size (globals st') = size (globals st) + length fs.
Proof.
  intros Hb Hmain Hnd Hempty Hfresh Hsimple.
  destruct (simple_functions_lower fs st Hb Hmain Hnd Hempty Hfresh Hsimple)
    as (st' & E & _ & Hin & Hout & Hsize).
  exists st'. split; [|split; [|split]; assumption].
  simpl. unfold _codegen_Program, bind. rewrite E. reflexivity.
Qed.

Lemma simple_programs_lower_witness :
  exists st',
    generate_code (Program inc_and_zero) shell0 = (st', Ok tt)
    /\ globals st' !! "inc" = Some (Function DoubleType [DoubleType] false)
    /\ globals st' !! "zero" = Some (Function DoubleType [] false)
    /\ globals st' !! "main" = Some (Function VoidType [] false).
Proof.
  destruct (simple_programs_lower shell0 inc_and_zero)
    as (st' & E & Hin & Hout & _).
  - eexists. reflexivity.
  - eexists. reflexivity.
  - apply (bool_decide_unpack _). vm_compute. exact I.
  - intros Hk. apply list_elem_of_In in Hk. simpl in Hk.
    destruct Hk as [Hk|[Hk|[]]]; discriminate.
  - intros k Hk. apply list_elem_of_In in Hk. simpl in Hk.
    destruct Hk as [<-|[<-|[]]]; reflexivity.
  - reflexivity.
  - exists st'. split; [exact E|]. split; [|split].
    + eapply (Hin (id_of "inc") [id_of "a"]). unfold inc_and_zero. left.
    + eapply (Hin (id_of "zero") []). unfold inc_and_zero. right. left.
    + rewrite Hout; [reflexivity|]. intros Hk. apply list_elem_of_In in Hk.
      simpl in Hk. destruct Hk as [Hk|[Hk|[]]]; discriminate.
Defined.

(** Distinct names alone are not enough in interactive mode either: the
    one-function Program [FUNC h() { x := 1.0 }] raises the name error for
    [x] there, and AttributeError in compile mode. *)
Lemma a_function_with_an_undeclared_name :
  NoDup (function_names [FunctionDefinition (id_of "h") []
           (Block [] [AssignStatement (id_of "x") (Number false 1%float)])])
  /\ (generate_code program_h shell0).2 = Raise (CodegenError (NameNotDefined "x"))
  /\ (generate_code program_h (compile_state "a.vsl" example_world)).2
     = Raise (AttributeError "builder").
Proof.
  split; [|split; reflexivity].
  apply (bool_decide_unpack _). vm_compute. exact I.
Qed.

(** * Further properties *)

(** ** What each statement keeps *)

Section keeps_rules.

Variable J : LLVMCodeGenerator -> Prop.

Lemma keeps_ret {A} (a : A) : keeps J (ret a).
Proof. intros st H. exact H. Qed.

Lemma keeps_raise {A} e : keeps J (@raise A e).
Proof. intros st H. exact H. Qed.

Lemma keeps_lift {A} (r : Result A) : keeps J (lift r).
Proof. intros st H. exact H. Qed.

Lemma keeps_get {A} (f : LLVMCodeGenerator -> A) : keeps J (get f).
Proof. intros st H. exact H. Qed.

Lemma keeps_self_builder : keeps J self_builder.
Proof. intros st H. unfold self_builder. destruct (builder st); exact H. Qed.

Lemma keeps_self_main_symbol_table : keeps J self_main_symbol_table.
Proof.
  intros st H. unfold self_main_symbol_table.
  destruct (main_symbol_table st); exact H.
Qed.

Lemma keeps_update f : (forall st, J st -> J (f st)) -> keeps J (update f).
Proof. intros H st HJ. apply H, HJ. Qed.

Lemma keeps_bind {A B} (m : M A) (k : A -> M B) :
  keeps J m -> (forall a, keeps J (k a)) -> keeps J (bind m k).
Proof.
  intros Hm Hk st HJ. unfold bind. specialize (Hm st HJ).
  destruct (m st) as [st' [a|e]]; simpl in *; [|assumption].
  apply Hk, Hm.
Qed.

Lemma keeps_forM_ {A B} (f : A -> M B) l :
  Forall (fun x => keeps J (f x)) l -> keeps J (forM_ f l).
Proof.
  induction 1 as [|x l Hx _ IH]; simpl.
  - apply keeps_ret.
  - apply keeps_bind; [exact Hx | intros _; exact IH].
Qed.

Lemma keeps_mapM {A B} (f : A -> M B) l :
  Forall (fun x => keeps J (f x)) l -> keeps J (mapM f l).
Proof.
  induction 1 as [|x l Hx _ IH]; simpl.
  - apply keeps_ret.
  - apply keeps_bind; [exact Hx | intros y].
    apply keeps_bind; [exact IH | intros ys; apply keeps_ret].
Qed.

End keeps_rules.

(** ** Compile mode *)

(** Without a builder, whatever asks for it raises on the spot. *)
Lemma no_builder_self_builder {A} (k : IRBuilder -> M A) :
  keeps no_builder (bind self_builder k).
Proof.
  intros st [Hb Hm]. unfold bind, self_builder. rewrite Hb. simpl. split; assumption.
Qed.

Lemma no_builder_self_main_symbol_table {A} (k : gmap string Value -> M A) :
  keeps no_builder (bind self_main_symbol_table k).
Proof.
  intros st [Hb Hm]. unfold bind, self_main_symbol_table. rewrite Hm. simpl. split; assumption.
Qed.

Create HintDb no_builder.

Ltac no_builder_step :=
  first
    [ solve [auto with no_builder]
    | apply no_builder_self_builder
    | apply no_builder_self_main_symbol_table
    | apply keeps_ret | apply keeps_raise | apply keeps_lift | apply keeps_get
    | apply keeps_update; intros [] [? ?]; split; assumption
    | apply keeps_forM_; apply Forall_forall; intros ? _; cbv beta
    | apply keeps_mapM; apply Forall_forall; intros ? _; cbv beta
    | apply keeps_bind; [| intros ?]
    | match goal with
      | |- keeps _ (match ?x with _ => _ end) => destruct x
      | |- keeps _ (let '(_, _) := ?x in _) => destruct x
      end ].

Ltac no_builder := repeat no_builder_step.

Lemma no_builder_fresh_uid : keeps no_builder fresh_uid.
Proof. intros [] H; exact H. Qed.

Lemma no_builder_ran6 : keeps no_builder ran6.
Proof. intros [] H; exact H. Qed.

#[local] Hint Resolve no_builder_fresh_uid no_builder_ran6 : no_builder.

Lemma no_builder_type_attr x : keeps no_builder (type_attr x).
Proof. unfold type_attr. no_builder. Qed.

Lemma no_builder_add_global n g : keeps no_builder (add_global n g).
Proof. unfold add_global. no_builder. Qed.

Lemma no_builder_get_global n : keeps no_builder (get_global n).
Proof. unfold get_global. no_builder. Qed.

Lemma no_builder_new_block p n : keeps no_builder (new_block p n).
Proof. unfold new_block. no_builder. Qed.

Lemma no_builder_block_data u : keeps no_builder (block_data u).
Proof. unfold block_data. no_builder. Qed.

#[local] Hint Resolve no_builder_type_attr no_builder_add_global
  no_builder_get_global no_builder_new_block no_builder_block_data : no_builder.

Lemma no_builder_IRBuilder_new u : keeps no_builder (IRBuilder_new u).
Proof. unfold IRBuilder_new. no_builder. Qed.

Lemma no_builder_position_at_start u : keeps no_builder (position_at_start u).
Proof. unfold position_at_start. no_builder. Qed.

Lemma no_builder_position_at_end u : keeps no_builder (position_at_end u).
Proof. unfold position_at_end. no_builder. Qed.

Lemma no_builder__insert i : keeps no_builder (_insert i).
Proof. unfold _insert. no_builder. Qed.

Lemma no_builder__set_terminator t : keeps no_builder (_set_terminator t).
Proof. unfold _set_terminator. no_builder. Qed.

Lemma no_builder_builder_function : keeps no_builder builder_function.
Proof. unfold builder_function. no_builder. Qed.

Lemma no_builder_parent_name p : keeps no_builder (parent_name p).
Proof. unfold parent_name. no_builder. Qed.

#[local] Hint Resolve no_builder_IRBuilder_new no_builder_position_at_start
  no_builder_position_at_end no_builder__insert no_builder__set_terminator
  no_builder_builder_function no_builder_parent_name : no_builder.

Lemma no_builder_append_basic_block n : keeps no_builder (append_basic_block n).
Proof. unfold append_basic_block, Function_append_basic_block. no_builder. Qed.

Lemma no_builder_alloca t n : keeps no_builder (alloca t n).
Proof. unfold alloca. no_builder. Qed.

Lemma no_builder_store v p : keeps no_builder (store v p).
Proof. unfold store. no_builder. Qed.

Lemma no_builder_load p n : keeps no_builder (load p n).
Proof. unfold load. no_builder. Qed.

Lemma no_builder_binop o l r n : keeps no_builder (binop o l r n).
Proof. unfold binop. no_builder. Qed.

Lemma no_builder_fcmp_ordered o l r : keeps no_builder (fcmp_ordered o l r).
Proof. unfold fcmp_ordered. no_builder. Qed.

Lemma no_builder_call c f a n : keeps no_builder (call c f a n).
Proof. unfold call. no_builder. Qed.

Lemma no_builder_bitcast v t : keeps no_builder (bitcast v t).
Proof. unfold bitcast. no_builder. Qed.

Lemma no_builder_builder_ret v : keeps no_builder (builder_ret v).
Proof. unfold builder_ret. no_builder. Qed.

Lemma no_builder_branch t : keeps no_builder (branch t).
Proof. unfold branch. no_builder. Qed.

Lemma no_builder_cbranch c t f : keeps no_builder (cbranch c t f).
Proof. unfold cbranch. no_builder. Qed.

Lemma no_builder__label_suffix l s : keeps no_builder (_label_suffix l s).
Proof. unfold _label_suffix. no_builder. Qed.

#[local] Hint Resolve no_builder_append_basic_block no_builder_alloca
  no_builder_store no_builder_load no_builder_binop no_builder_fcmp_ordered
  no_builder_call no_builder_bitcast no_builder_builder_ret no_builder_branch
  no_builder_cbranch no_builder__label_suffix : no_builder.

Lemma no_builder_if_else_enter p : keeps no_builder (if_else_enter p).
Proof. unfold if_else_enter. no_builder. Qed.

Lemma no_builder__branch_helper {A} e x (body : M A) :
  keeps no_builder body -> keeps no_builder (_branch_helper e x body).
Proof. intros H. unfold _branch_helper. no_builder. Qed.

#[local] Hint Resolve no_builder_if_else_enter no_builder__branch_helper
  keeps_forM_ keeps_mapM : no_builder.

Lemma no_builder__codegen node : keeps no_builder (_codegen node).
Proof.
  induction node using obj_ind'; simpl;
    try (apply keeps_raise);
    unfold _codegen_Number, _codegen_Text, _codegen_ID, _codegen_AssignStatement,
      _codegen_BinaryOperation, _codegen_IfStatement, _codegen_WhileStatement,
      _codegen_VariableDeclaration, _codegen_FunctionCall,
      _codegen_FunctionDefinition, _codegen_Block, _codegen_Program,
      _codegen_ReturnStatement, _codegen_PrintStatement, Function_append_basic_block;
    no_builder.
Qed.

Lemma no_builder_generate_code node : keeps no_builder (generate_code node).
Proof.
  destruct node; simpl; try apply keeps_raise.
  - apply keeps_forM_, Forall_forall. intros i _.
    destruct (is_FunctionDefinition i); [apply no_builder__codegen | apply keeps_raise].
  - apply keeps_bind; [apply (no_builder__codegen (Program _)) | intros; apply keeps_ret].
  - apply keeps_bind; [apply (no_builder__codegen (Block _ _)) | intros; apply keeps_ret].
Qed.

Lemma later_compile_state module_name w st :
  later (compile_state module_name w) st -> no_builder st.
Proof.
  induction 1 as [|st' node _ IH|st' node _ IH].
  - split; reflexivity.
  - apply no_builder_generate_code, IH.
  - apply no_builder__codegen, IH.
Qed.

(** X1. In compile mode the generator never gets a builder nor a global
    tier: [__init__] assigns neither attribute, and no statement of any
    visitor assigns one unless a builder is there already. *)
Theorem compile_mode_never_gets_a_builder module_name w st :
  later (compile_state module_name w) st ->
  builder st = None /\ main_symbol_table st = None.
Proof. apply later_compile_state. Qed.

Lemma compile_mode_never_gets_a_builder_witness :
  builder (generate_code program_h (compile_state "a.vsl" example_world)).1 = None
  /\ main_symbol_table (generate_code program_h (compile_state "a.vsl" example_world)).1
     = None.
Proof.
  apply (compile_mode_never_gets_a_builder "a.vsl" example_world).
  apply later_generate_code, later_refl.
Defined.

Lemma no_builder_function_definition st n ps body :
  builder st = None ->
  exists st',
    _codegen (FunctionDefinition n ps body) st
    = (st', Raise match globals st !! id_name n with
                  | Some _ => CodegenError (RedefinitionOfFunction (id_name n))
                  | None => if String.eqb (id_name n) ""
                            then DuplicatedNameError ""
                            else AttributeError "builder"
                  end).
Proof.
  intros Hb. simpl. unfold _codegen_FunctionDefinition.
  unfold bind at 1, get at 1.
  destruct (globals st !! id_name n) as [g|] eqn:E.
  - eexists. reflexivity.
  - unfold add_global, self_builder, bind, get, update, raise. simpl.
    rewrite E. destruct (String.eqb_spec (id_name n) "") as [->|_]; simpl.
    + eexists. reflexivity.
    + rewrite Hb. eexists. reflexivity.
Qed.

(** X2. In compile mode no Program with a function is lowered: the first
    function definition raises, the redefinition error when its name is a
    module global already, llvmlite's DuplicatedNameError when the name is
    empty, and else an AttributeError, the generator having no builder to
    store. *)
Theorem compile_mode_lowers_no_function module_name w st n ps body fs :
  later (compile_state module_name w) st ->
  exists st',
    generate_code (Program (FunctionDefinition n ps body :: fs)) st
    = (st', Raise match globals st !! id_name n with
                  | Some _ => CodegenError (RedefinitionOfFunction (id_name n))
                  | None => if String.eqb (id_name n) ""
                            then DuplicatedNameError ""
                            else AttributeError "builder"
                  end).
Proof.
  intros Hst. apply later_compile_state in Hst as [Hb _].
  destruct (no_builder_function_definition st n ps body Hb) as (st' & E).
  exists st'.
  simpl. unfold _codegen_Program. simpl. unfold bind. simpl in E. rewrite E. reflexivity.
Qed.

Lemma compile_mode_lowers_no_function_witness :
  exists st',
    generate_code (Program (FunctionDefinition (id_of "h") [] (Block [] []) :: []))
      (generate_code program_h (compile_state "a.vsl" example_world)).1
    = (st', Raise (CodegenError (RedefinitionOfFunction "h"))).
Proof.
  apply (compile_mode_lowers_no_function "a.vsl" example_world
           (generate_code program_h (compile_state "a.vsl" example_world)).1
           (id_of "h") [] (Block [] []) []).
  apply later_generate_code, later_refl.
Defined.

(** ** A function definition that returns *)

Lemma bind_Ok {A B} (m : M A) (k : A -> M B) st st' b :
  bind m k st = (st', Ok b) ->
  exists st1 a, m st = (st1, Ok a) /\ k a st1 = (st', Ok b).
Proof.
  unfold bind. destruct (m st) as [st1 [a|e]]; [eauto | discriminate].
Qed.

Lemma grows_run {A} (m : M A) st st' r :
  grows m -> m st = (st', r) -> globals st ⊆ globals st'.
Proof. intros H E. specialize (H st). rewrite E in H. exact H. Qed.

(** X3. A function definition that returns has emptied the function tier and
    put the builder back; the generator had a builder, the name was new, and
    the module now holds the function with one double per parameter. *)
Theorem function_definition_restores st n ps body st' r :
  _codegen (FunctionDefinition n ps body) st = (st', Ok r) ->
  function_symbol_table st' = ∅
  /\ builder st' = builder st
  /\ is_Some (builder st)
  /\ globals st !! id_name n = None
  /\ globals st' !! id_name n
     = Some (Function DoubleType (replicate (length ps) DoubleType) false).
Proof.
  simpl. unfold _codegen_FunctionDefinition. intros H.
  apply bind_Ok in H as (st0 & gs & E0 & H). injection E0 as <- <-.
  destruct (globals st !! id_name n) eqn:Efresh; [discriminate|].
  apply bind_Ok in H as (st1 & [] & E1 & H).
  apply bind_Ok in H as (st2 & [] & E2 & H).
  apply bind_Ok in H as (st3 & stored & E3 & H).
  apply bind_Ok in H as (st4 & bb_entry & E4 & H).
  apply bind_Ok in H as (st5 & nb & E5 & H).
  apply bind_Ok in H as (st6 & [] & E6 & H).
  apply bind_Ok in H as (st7 & [] & E7 & H).
  apply bind_Ok in H as (st8 & rb & E8 & H).
  apply bind_Ok in H as (st9 & [] & E9 & H).
  apply bind_Ok in H as (st10 & [] & E10 & H).
  apply bind_Ok in H as (st11 & [] & E11 & H).
  injection H as <- <-. injection E11 as <-. injection E10 as <-.
  unfold add_global, bind, get, update in E1. simpl in E1.
  destruct (String.eqb (id_name n) ""); [discriminate|]. rewrite Efresh in E1.
  injection E1 as <-. injection E2 as <-.
  unfold self_builder in E3. simpl in E3.
  destruct (builder st) as [b|] eqn:Hb; [|discriminate]. injection E3 as <- <-.
  split; [reflexivity|]. split; [reflexivity|]. split; [eauto|]. split; [reflexivity|].
  simpl.
  assert (Hsub : globals (set_function_symbol_table ∅
            (set_globals (<[id_name n := Function DoubleType
                              (replicate (length ps) DoubleType) false]> (globals st)) st))
          ⊆ globals st9).
  { etrans; [exact (grows_run _ _ _ _ (grows_new_block _ _) E4)|].
    etrans; [exact (grows_run _ _ _ _ (grows_IRBuilder_new _) E5)|].
    injection E6 as <-.
    etrans; [|exact (grows_run _ _ _ _ (grows_builder_ret _) E9)].
    etrans; [|exact (grows_run _ _ _ _ (grows__codegen _) E8)].
    refine (grows_run _ _ _ _ _ E7).
    apply grows_forM_, Forall_forall. intros [i a] _.
    apply grows_bind; [apply grows_alloca | intros ?].
    apply grows_bind; [apply grows_store | intros ?].
    apply grows_update. intros []; reflexivity. }
  eapply lookup_weaken; [|exact Hsub]. simpl. apply lookup_insert_eq.
Qed.

Lemma function_definition_restores_witness :
  function_symbol_table
    (_codegen (FunctionDefinition (id_of "f") [id_of "a"] (Block [] [])) shell0).1 = ∅
  /\ builder (_codegen (FunctionDefinition (id_of "f") [id_of "a"] (Block [] [])) shell0).1
     = builder shell0.
Proof.
  destruct (function_definition_restores shell0 (id_of "f") [id_of "a"] (Block [] [])
              (_codegen (FunctionDefinition (id_of "f") [id_of "a"] (Block [] [])) shell0).1
              (Some (global_ref "f" (Function DoubleType [DoubleType] false))))
    as (H1 & H2 & _).
  - vm_compute. reflexivity.
  - split; [exact H1 | exact H2].
Defined.

(** ** Statements that leave the scopes alone *)

Lemma ext_refl st : ext st st.
Proof.
  repeat split; eauto.
Qed.

Lemma ext_trans st1 st2 st3 : ext st1 st2 -> ext st2 st3 -> ext st1 st3.
Proof.
  intros (Hm1 & Hf1 & Hn1 & Hb1 & HB1 & HN1) (Hm2 & Hf2 & Hn2 & Hb2 & HB2 & HN2).
  repeat split.
  - congruence.
  - congruence.
  - lia.
  - intros b Hb. destruct (Hb1 b Hb) as (b' & Hb' & E1).
    destruct (Hb2 b' Hb') as (b'' & Hb'' & E2). exists b''. split; [assumption|congruence].
  - intros u bb H. destruct (HB1 u bb H) as (bb' & H' & Ep & En & Et).
    destruct (HB2 u bb' H') as (bb'' & H'' & Ep' & En' & Et').
    exists bb''. repeat split; [assumption|congruence|congruence|auto].
  - auto.
Qed.

Lemma frames_ret {A} (a : A) : frames (ret a).
Proof. intros st. apply ext_refl. Qed.

Lemma frames_raise {A} e : frames (@raise A e).
Proof. intros st. apply ext_refl. Qed.

Lemma frames_lift {A} (r : Result A) : frames (lift r).
Proof. intros st. apply ext_refl. Qed.

Lemma frames_get {A} (f : LLVMCodeGenerator -> A) : frames (get f).
Proof. intros st. apply ext_refl. Qed.

Lemma frames_bind {A B} (m : M A) (k : A -> M B) :
  frames m -> (forall a, frames (k a)) -> frames (bind m k).
Proof.
  intros Hm Hk st. unfold bind. specialize (Hm st).
  destruct (m st) as [st' [a|e]]; simpl in *; [|assumption].
  eapply ext_trans; [exact Hm | apply Hk].
Qed.

Lemma frames_forM_ {A B} (f : A -> M B) l :
  Forall (fun x => frames (f x)) l -> frames (forM_ f l).
Proof.
  induction 1 as [|x l Hx _ IH]; simpl.
  - apply frames_ret.
  - apply frames_bind; [exact Hx | intros _; exact IH].
Qed.

Lemma frames_mapM {A B} (f : A -> M B) l :
  Forall (fun x => frames (f x)) l -> frames (mapM f l).
Proof.
  induction 1 as [|x l Hx _ IH]; simpl.
  - apply frames_ret.
  - apply frames_bind; [exact Hx | intros y].
    apply frames_bind; [exact IH | intros ys; apply frames_ret].
Qed.

Lemma frames_set_globals g : frames (update (set_globals g)).
Proof. intros []. simpl. repeat split; simpl; eauto. Qed.

Lemma frames_set_next_uid : frames fresh_uid.
Proof.
  intros []. simpl. repeat split; simpl; eauto.
Qed.

Lemma frames_ran6 : frames ran6.
Proof. intros []. simpl. repeat split; simpl; eauto. Qed.

Lemma frames_self_builder : frames self_builder.
Proof. intros st. unfold self_builder. destruct (builder st); apply ext_refl. Qed.

Lemma frames_self_main_symbol_table : frames self_main_symbol_table.
Proof.
  intros st. unfold self_main_symbol_table.
  destruct (main_symbol_table st); apply ext_refl.
Qed.

(** Changing the instructions or the terminator of one block. *)
Lemma frames_alter_block (f : BasicBlock -> BasicBlock) u :
  (forall bb, parent (f bb) = parent bb /\ block_name (f bb) = block_name bb
              /\ (is_Some (terminator bb) -> is_Some (terminator (f bb)))) ->
  frames (update (fun st => set_blocks (alter f u (blocks st)) st)).
Proof.
  intros Hf []. simpl. repeat split; simpl; eauto.
  - intros v bb H. destruct (decide (v = u)) as [->|Hne].
    + exists (f bb). rewrite lookup_alter_eq, H. simpl. split; [reflexivity | apply Hf].
    + exists bb. rewrite lookup_alter_ne by congruence. auto.
  - intros v H. destruct (decide (v = u)) as [->|Hne].
    + rewrite lookup_alter_eq, H. reflexivity.
    + rewrite lookup_alter_ne by congruence. exact H.
Qed.

Create HintDb frames.

Ltac frames_step :=
  first
    [ solve [auto with frames]
    | apply frames_ret | apply frames_raise | apply frames_lift | apply frames_get
    | apply frames_forM_; apply Forall_forall; intros ? _; cbv beta
    | apply frames_mapM; apply Forall_forall; intros ? _; cbv beta
    | apply frames_bind; [| intros ?]
    | match goal with
      | |- frames (match ?x with _ => _ end) => destruct x
      | |- frames (let '(_, _) := ?x in _) => destruct x
      end ].

Ltac frames := repeat frames_step.

#[local] Hint Resolve frames_set_globals frames_set_next_uid frames_ran6
  frames_self_builder frames_self_main_symbol_table : frames.

Lemma frames_type_attr x : frames (type_attr x).
Proof. unfold type_attr. frames. Qed.

Lemma frames_add_global n g : frames (add_global n g).
Proof. unfold add_global. frames. Qed.

Lemma frames_get_global n : frames (get_global n).
Proof. unfold get_global. frames. Qed.

Lemma frames_block_data u : frames (block_data u).
Proof. unfold block_data. frames. Qed.

Lemma frames__insert i : frames (_insert i).
Proof.
  intros st. unfold _insert, bind, self_builder.
  destruct (builder st) as [b|] eqn:Hb; [|apply ext_refl]. simpl.
  eapply ext_trans.
  - apply (frames_alter_block
             (fun bb => mkBlock (parent bb) (block_name bb)
                          (list_insert_at (anchor b) i (instructions bb))
                          (terminator bb)) (block b)).
    intros bb. auto.
  - simpl. destruct st; simpl in *. repeat split; simpl; eauto.
    intros b0 Hb0. rewrite Hb in Hb0. injection Hb0 as <-.
    eexists. split; reflexivity.
Qed.

#[local] Hint Resolve frames_type_attr frames_add_global frames_get_global
  frames_block_data frames__insert : frames.

Lemma frames__set_terminator t : frames (_set_terminator t).
Proof.
  unfold _set_terminator. frames.
  apply (frames_alter_block
           (fun bb => mkBlock (parent bb) (block_name bb) (instructions bb) (Some t))).
  intros bb. simpl. eauto.
Qed.

Lemma frames_builder_function : frames builder_function.
Proof. unfold builder_function. frames. Qed.

Lemma frames_parent_name p : frames (parent_name p).
Proof. unfold parent_name. frames. Qed.

#[local] Hint Resolve frames__set_terminator frames_builder_function
  frames_parent_name : frames.

Lemma frames_alloca t n : frames (alloca t n).
Proof. unfold alloca. frames. Qed.

Lemma frames_store v p : frames (store v p).
Proof. unfold store. frames. Qed.

Lemma frames_load p n : frames (load p n).
Proof. unfold load. frames. Qed.

Lemma frames_binop o l r n : frames (binop o l r n).
Proof. unfold binop. frames. Qed.

Lemma frames_fcmp_ordered o l r : frames (fcmp_ordered o l r).
Proof. unfold fcmp_ordered. frames. Qed.

Lemma frames_call c f a n : frames (call c f a n).
Proof. unfold call. frames. Qed.

Lemma frames_bitcast v t : frames (bitcast v t).
Proof. unfold bitcast. frames. Qed.

Lemma frames_builder_ret v : frames (builder_ret v).
Proof. unfold builder_ret. frames. Qed.

Lemma frames_branch t : frames (branch t).
Proof. unfold branch. frames. Qed.

Lemma frames_cbranch c t f : frames (cbranch c t f).
Proof. unfold cbranch. frames. Qed.

Lemma frames__label_suffix l s : frames (_label_suffix l s).
Proof. unfold _label_suffix. frames. Qed.

#[local] Hint Resolve frames_alloca frames_store frames_load frames_binop
  frames_fcmp_ordered frames_call frames_bitcast frames_builder_ret
  frames_branch frames_cbranch frames__label_suffix frames_forM_ frames_mapM : frames.

Lemma binds_nothing_frames node :
  binds_nothing node = true -> frames (_codegen node).
Proof.
  induction node using obj_ind'; simpl; try discriminate; intros Hn;
    unfold _codegen_Number, _codegen_Text, _codegen_ID, _codegen_AssignStatement,
      _codegen_BinaryOperation, _codegen_WhileStatement, _codegen_FunctionCall,
      _codegen_ReturnStatement, _codegen_PrintStatement.
  - (* AssignStatement *) specialize (IHnode Hn). frames.
  - (* WhileStatement *) frames.
  - (* ReturnStatement *) specialize (IHnode Hn). frames.
  - (* PrintStatement *)
    assert (Forall (fun x => frames (_codegen x)) l).
    { rewrite forallb_forall in Hn. rewrite Forall_forall in H |- *.
      intros x Hx. apply H; [exact Hx|]. apply Hn, list_elem_of_In, Hx. }
    frames.
  - (* BinaryOperation *)
    apply andb_prop in Hn as [H1 H2]. specialize (IHnode1 H1). specialize (IHnode2 H2).
    frames.
  - (* Number *) frames.
  - (* ID *) frames.
  - (* FunctionCall *)
    assert (match a with Some l => Forall (fun x => frames (_codegen x)) l | None => True end).
    { destruct a as [l|]; [|exact I].
      rewrite forallb_forall in Hn. rewrite Forall_forall in H |- *.
      intros x Hx. apply H; [exact Hx|]. apply Hn, list_elem_of_In, Hx. }
    frames.
  - (* Text *) frames.
Qed.

(** X4. Statements and expressions other than declarations, IFs and function
    definitions leave the scopes alone: both symbol tables are as before,
    the builder is on the block it was on, no block is added or removed,
    and no block changes its parent or name or loses its terminator. *)
Theorem statements_leave_scopes node st :
  binds_nothing node = true -> ext st (_codegen node st).1.
Proof. intros H. apply binds_nothing_frames, H. Qed.

Lemma statements_leave_scopes_witness :
  ext shell0
    (_codegen (PrintStatement [BinaryOperation false (Number false 1%float) "+"
                                 (Ident (id_of "x"))]) shell0).1.
Proof. apply statements_leave_scopes. reflexivity. Defined.

(** ** What no call takes away *)

Section survives_assignments.

(** A property of the generator that survives every single assignment the
    code makes to an attribute, to a block or to the module. *)
Variable J : LLVMCodeGenerator -> Prop.

Hypothesis J_globals : forall g st, J st -> J (set_globals g st).

Hypothesis J_new_block : forall u bb st, J st -> J (set_blocks (<[u := bb]> (blocks st)) st).

Hypothesis J_alter_block : forall f u st, J st -> J (set_blocks (alter f u (blocks st)) st).

Hypothesis J_builder : forall b st, J st -> J (set_builder (Some b) st).

Hypothesis J_main : forall x v t st,
  main_symbol_table st = Some t -> J st ->
  J (set_main_symbol_table (Some (<[x := v]> t)) st).

Hypothesis J_function : forall t st, J st -> J (set_function_symbol_table t st).

Hypothesis J_uid : forall st, J st -> J (set_next_uid (S (next_uid st)) st).

Hypothesis J_ran6 : forall st, J st -> J (set_ran6_calls (S (ran6_calls st)) st).

(** Binding a name in the global tier, the one assignment to it. *)
Lemma survives_bind_main x v :
  keeps J (do mst <- self_main_symbol_table;
           update (set_main_symbol_table (Some (<[x := v]> mst)))).
Proof.
  intros st H. unfold bind, self_main_symbol_table, update.
  destruct (main_symbol_table st) eqn:E; simpl; [apply J_main; assumption | exact H].
Qed.

Ltac survives_step :=
  first
    [ assumption
    | apply keeps_ret | apply keeps_raise | apply keeps_lift | apply keeps_get
    | apply survives_bind_main
    | apply keeps_self_builder | apply keeps_self_main_symbol_table
    | apply keeps_update; intros ? ?;
      first [ apply J_globals | apply J_new_block | apply J_alter_block
            | apply J_builder | apply J_function ]; assumption
    | apply keeps_forM_; first [assumption | apply Forall_forall; intros ? _; cbv beta]
    | apply keeps_mapM; first [assumption | apply Forall_forall; intros ? _; cbv beta]
    | apply keeps_bind; [| intros ?]
    | match goal with
      | |- keeps _ fresh_uid => intros ? ?; apply J_uid; assumption
      | |- keeps _ ran6 => intros ? ?; apply J_ran6; assumption
      | |- keeps _ (match ?x with _ => _ end) => destruct x
      | |- keeps _ (let '(_, _) := ?x in _) => destruct x
      end ].

Lemma survives_new_block p n : keeps J (new_block p n).
Proof. unfold new_block. repeat survives_step. Qed.

Lemma survives_append_basic_block n : keeps J (append_basic_block n).
Proof.
  unfold append_basic_block, Function_append_basic_block, builder_function,
    block_data, new_block.
  repeat survives_step.
Qed.

Lemma survives_alloca t n : keeps J (alloca t n).
Proof. unfold alloca, _insert. repeat survives_step. Qed.

Lemma survives_store v p : keeps J (store v p).
Proof. unfold store, type_attr, _insert. repeat survives_step. Qed.

Lemma survives_builder_ret v : keeps J (builder_ret v).
Proof.
  unfold builder_ret, _set_terminator, _insert, block_data. repeat survives_step.
Qed.

Lemma survives__codegen node : keeps J (_codegen node).
Proof.
  induction node using obj_ind'; simpl;
    unfold _codegen_Number, _codegen_Text, _codegen_ID, _codegen_AssignStatement,
      _codegen_BinaryOperation, _codegen_IfStatement, _codegen_WhileStatement,
      _codegen_VariableDeclaration, _codegen_FunctionCall,
      _codegen_FunctionDefinition, _codegen_Block, _codegen_Program,
      _codegen_ReturnStatement, _codegen_PrintStatement,
      if_else_enter, _branch_helper, append_basic_block, Function_append_basic_block,
      alloca, store, load, binop, fcmp_ordered, call, bitcast, builder_ret, ret_void,
      branch, cbranch, _set_terminator, _insert, position_at_start, position_at_end,
      IRBuilder_new, builder_function, parent_name, new_block, block_data,
      add_global, get_global, type_attr, _label_suffix;
    repeat survives_step.
Qed.

Lemma survives_generate_code node : keeps J (generate_code node).
Proof.
  destruct node; simpl; try apply keeps_raise.
  - apply keeps_forM_, Forall_forall. intros i _.
    destruct (is_FunctionDefinition i); [apply survives__codegen | apply keeps_raise].
  - apply keeps_bind; [apply (survives__codegen (Program _)) | intros; apply keeps_ret].
  - apply keeps_bind; [apply (survives__codegen (Block _ _)) | intros; apply keeps_ret].
Qed.

Lemma survives_later st st' : later st st' -> J st -> J st'.
Proof.
  induction 1 as [|st' node _ IH|st' node _ IH]; intros H; [exact H | |].
  - apply survives_generate_code, IH, H.
  - apply survives__codegen, IH, H.
Qed.

End survives_assignments.

Lemma has_block_insert u v bb st :
  has_block u st -> has_block u (set_blocks (<[v := bb]> (blocks st)) st).
Proof.
  unfold has_block. destruct st; simpl. intros H.
  apply lookup_insert_is_Some'. right. exact H.
Qed.

Lemma has_block_alter u f v st :
  has_block u st -> has_block u (set_blocks (alter f v (blocks st)) st).
Proof.
  unfold has_block. destruct st; simpl. intros [bb H].
  destruct (decide (u = v)) as [->|Hne].
  - rewrite lookup_alter_eq, H. simpl. eauto.
  - rewrite lookup_alter_ne by congruence. eauto.
Qed.

Ltac has_block_side :=
  intros;
  first [ apply has_block_insert; assumption
        | apply has_block_alter; assumption
        | match goal with
          | H : has_block _ ?s |- _ => destruct s; exact H
          end ].

Lemma has_block__codegen u node : keeps (has_block u) (_codegen node).
Proof. apply survives__codegen; has_block_side. Qed.

Lemma has_block_new_block u p n : keeps (has_block u) (new_block p n).
Proof. apply survives_new_block; has_block_side. Qed.

Lemma has_block_append_basic_block u n : keeps (has_block u) (append_basic_block n).
Proof. apply survives_append_basic_block; has_block_side. Qed.

Ltac survives_side :=
  intros;
  repeat match goal with s : LLVMCodeGenerator |- _ => destruct s end;
  simpl in *; eauto; try lia.

(** X5. Whatever is lowered afterwards, and whether it fails or not, a global
    of the module is never removed nor replaced. *)
Theorem module_globals_are_never_replaced st st' name g :
  later st st' -> globals st !! name = Some g -> globals st' !! name = Some g.
Proof.
  intros H Hg. eapply lookup_weaken; [exact Hg | apply later_globals, H].
Qed.

Lemma module_globals_are_never_replaced_witness :
  globals (generate_code define_g (generate_code declare_x shell0).1).1 !! "main"
  = Some (Function VoidType [] false).
Proof.
  apply (module_globals_are_never_replaced shell0 _ "main" (Function VoidType [] false)).
  - apply later_generate_code, later_generate_code, later_refl.
  - reflexivity.
Defined.

(** X6. What no call takes away from the generator: its mode, module name
    and world stay, the counters never decrease, a builder and a global
    tier stay once they exist, and so does every block. *)
Theorem generator_attributes_persist st st' :
  later st st' ->
  mode st' = mode st /\ module_name st' = module_name st /\ world st' = world st
  /\ next_uid st <= next_uid st' /\ ran6_calls st <= ran6_calls st'
  /\ (is_Some (builder st) -> is_Some (builder st'))
  /\ (is_Some (main_symbol_table st) -> is_Some (main_symbol_table st'))
  /\ (forall u, is_Some (blocks st !! u) -> is_Some (blocks st' !! u)).
Proof.
  intros H. repeat split.
  - eapply (survives_later (fun s => mode s = mode st)); [survives_side.. | exact H | reflexivity].
  - eapply (survives_later (fun s => module_name s = module_name st));
      [survives_side.. | exact H | reflexivity].
  - eapply (survives_later (fun s => world s = world st)); [survives_side.. | exact H | reflexivity].
  - eapply (survives_later (fun s => next_uid st <= next_uid s));
      [survives_side.. | exact H | reflexivity].
  - eapply (survives_later (fun s => ran6_calls st <= ran6_calls s));
      [survives_side.. | exact H | reflexivity].
  - eapply (survives_later (fun s => is_Some (builder s))); [survives_side.. | exact H].
  - eapply (survives_later (fun s => is_Some (main_symbol_table s)));
      [survives_side.. | exact H].
  - intros u. eapply (survives_later (has_block u)); [has_block_side.. | exact H].
Qed.

Lemma generator_attributes_persist_witness :
  mode (generate_code define_g shell0).1 = "shell"
  /\ 1 <= next_uid (generate_code define_g shell0).1.
Proof.
  pose proof (generator_attributes_persist shell0 (generate_code define_g shell0).1
                (later_generate_code _ _ define_g (later_refl _)))
    as (Hm & _ & _ & Hu & _).
  split; [exact Hm | exact Hu].
Defined.

(** X7. A name declared in the global tier stays bound there, whatever is
    lowered afterwards. *)
Theorem global_names_stay_bound st st' x :
  later st st' -> globally_bound x st -> globally_bound x st'.
Proof.
  intros H. eapply (survives_later (globally_bound x)); [..| exact H];
    unfold globally_bound; intros;
    repeat match goal with s : LLVMCodeGenerator |- _ => destruct s end;
    simpl in *; eauto.
  match goal with H : exists _, _ |- _ => destruct H as (g & Hg & Hx) end.
  eexists. split; [reflexivity|]. apply lookup_insert_is_Some'. right.
  congruence.
Qed.

Lemma global_names_stay_bound_witness :
  globally_bound "x" (generate_code define_g (generate_code declare_x shell0).1).1.
Proof.
  apply (global_names_stay_bound (generate_code declare_x shell0).1 _ "x").
  - apply later_generate_code, later_refl.
  - eexists. split; [reflexivity|]. vm_compute. eauto.
Defined.

(** ** The generator of an interactive session *)

Lemma bound_ok_mono n n' t : n <= n' -> bound_ok n t -> bound_ok n' t.
Proof.
  intros Hn H x a Ha. destruct (H x a Ha) as (u & name & -> & Hu).
  exists u, name. split; [reflexivity | lia].
Qed.

Lemma bound_ok_empty n : bound_ok n ∅.
Proof. intros x a H. rewrite lookup_empty in H. discriminate. Qed.

Lemma bound_ok_insert n t x u name :
  u < n -> bound_ok n t -> bound_ok n (<[x := AllocaInstr u DoubleType name]> t).
Proof.
  intros Hu H y a Ha. destruct (decide (y = x)) as [->|Hne].
  - rewrite lookup_insert_eq in Ha. injection Ha as <-. eauto.
  - rewrite lookup_insert_ne in Ha by congruence. eauto.
Qed.

Lemma ext_key st st' u : ext st st' -> is_Some (blocks st !! u) -> is_Some (blocks st' !! u).
Proof.
  intros (_ & _ & _ & _ & HB & _) [bb H]. destruct (HB u bb H) as (bb' & H' & _). eauto.
Qed.

Lemma ext_key_back st st' u : ext st st' -> is_Some (blocks st' !! u) -> is_Some (blocks st !! u).
Proof.
  intros (_ & _ & _ & _ & _ & HN) H. destruct (blocks st !! u) eqn:E; [eauto|].
  rewrite (HN u E) in H. destruct H; discriminate.
Qed.

Lemma session_ext st st' : ext st st' -> session st -> session st'.
Proof.
  intros Hext ((b & Hb & Hk) & Hp & Hu & (g & Hg & Hgok) & Hf).
  pose proof Hext as (Em & Ef & En & Eb & EB & EN).
  repeat split.
  - destruct (Eb b Hb) as (b' & Hb' & E). exists b'. split; [assumption|].
    rewrite E. eapply ext_key; eassumption.
  - intros u bb' p H' Hpar.
    assert (Hin : is_Some (blocks st !! u)) by (eapply ext_key_back; eauto).
    destruct Hin as [bb H]. destruct (EB u bb H) as (bb'' & H'' & Epar & _).
    rewrite H' in H''. injection H'' as <-.
    eapply ext_key; [eassumption|]. eapply Hp; [eassumption|]. congruence.
  - intros u H. apply (ext_key_back _ _ _ Hext) in H. apply Hu in H. lia.
  - exists g. split; [congruence|]. eapply bound_ok_mono; eassumption.
  - rewrite Ef. eapply bound_ok_mono; eassumption.
Qed.

Lemma frames_session {A} (m : M A) : frames m -> keeps session m.
Proof. intros H st Hs. eapply session_ext; [apply H | exact Hs]. Qed.

(** A new block, with a parent that exists. *)
Lemma session_new_block st p name :
  session st ->
  match p with InBlock q => is_Some (blocks st !! q) | InFunction _ => True end ->
  exists st', new_block p name st = (st', Ok (next_uid st))
              /\ session st' /\ is_Some (blocks st' !! next_uid st).
Proof.
  intros ((b & Hb & Hk) & Hp & Hu & (g & Hg & Hgok) & Hf) Hpar.
  destruct st as [m mn G B bld mst fst n r w]. simpl in *.
  eexists. split; [reflexivity|]. simpl.
  assert (Hfresh : B !! n = None).
  { destruct (B !! n) eqn:E; [|reflexivity].
    assert (n < n) by (apply Hu; eauto). lia. }
  split; [|rewrite lookup_insert_eq; eauto].
  repeat split; simpl.
  - exists b. split; [assumption|].
    destruct (decide (block b = n)) as [->|Hne];
      [rewrite lookup_insert_eq | rewrite lookup_insert_ne by congruence]; eauto.
  - intros u bb q H Hq.
    assert (Hq' : is_Some (B !! q)).
    { destruct (decide (u = n)) as [->|Hne].
      - rewrite lookup_insert_eq in H. injection H as <-. simpl in Hq. subst p. exact Hpar.
      - rewrite lookup_insert_ne in H by congruence. eapply Hp; eassumption. }
    destruct (decide (q = n)) as [->|Hne];
      [rewrite lookup_insert_eq | rewrite lookup_insert_ne by congruence]; eauto.
  - intros u H. destruct (decide (u = n)) as [->|Hne]; [lia|].
    rewrite lookup_insert_ne in H by congruence. apply Hu in H. lia.
  - exists g. split; [assumption|]. eapply bound_ok_mono; [|eassumption]. lia.
  - eapply bound_ok_mono; [|eassumption]. lia.
Qed.

Lemma session_set_builder st b :
  session st -> is_Some (blocks st !! block b) -> session (set_builder (Some b) st).
Proof.
  intros (_ & Hp & Hu & Hg & Hf) Hk. destruct st; simpl in *.
  repeat split; simpl; eauto.
Qed.

Lemma session_position_at_start st u :
  session st -> is_Some (blocks st !! u) -> session (position_at_start u st).1.
Proof.
  intros Hs Hk. unfold position_at_start, bind, self_builder, update.
  destruct (builder st); simpl; [|exact Hs].
  apply (session_set_builder st (mkBuilder u 0)); assumption.
Qed.

Lemma session_position_at_end u : keeps session (position_at_end u).
Proof.
  intros st Hs. unfold position_at_end, block_data, bind, self_builder, get, update, ret, raise.
  destruct (builder st); simpl; [|exact Hs].
  destruct (blocks st !! u) as [bb|] eqn:E; simpl; [|exact Hs].
  apply (session_set_builder st (mkBuilder u _)); [exact Hs|]. simpl. eauto.
Qed.

Lemma session_append_basic_block name : keeps session (append_basic_block name).
Proof.
  intros st Hs. unfold append_basic_block, bind.
  pose proof (frames_session _ frames_builder_function st Hs) as Hs1.
  destruct (builder_function st) as [st1 [[fn|q]|e]]; cbn [fst] in Hs1; try exact Hs1.
  change (session (new_block (InFunction fn) name st1).1).
  destruct (session_new_block st1 (InFunction fn) name Hs1 I) as (st' & E & Hs' & _).
  rewrite E. exact Hs'.
Qed.

Lemma session_set_function_symbol_table_empty :
  keeps session (update (set_function_symbol_table ∅)).
Proof.
  intros st (Hb & Hp & Hu & Hg & Hf). destruct st; simpl in *.
  repeat split; simpl; eauto. apply bound_ok_empty.
Qed.

(** [alloca] yields a location never seen before. *)
Lemma session_alloca st name :
  session st ->
  exists st', alloca DoubleType name st
              = (st', Ok (AllocaInstr (next_uid st) DoubleType name))
              /\ session st' /\ next_uid st < next_uid st'.
Proof.
  intros Hs. pose proof Hs as ((b & Hb & _) & _).
  pose proof (frames_session _ (frames_alloca DoubleType name) st Hs) as Hs'.
  unfold alloca, bind, self_builder, fresh_uid in *. rewrite Hb in *. simpl in *.
  unfold _insert, bind, self_builder, update in *. simpl in *. rewrite Hb in *.
  simpl in *. eexists. split; [reflexivity|]. split; [exact Hs'|]. simpl. lia.
Qed.

Lemma holds_bind {A B} P (m : M A) Q (k : A -> M B) R E :
  holds P m Q E -> (forall a, holds (Q a) (k a) R E) -> holds P (bind m k) R E.
Proof.
  intros Hm Hk st HP. unfold bind. specialize (Hm st HP).
  destruct (m st) as [st' [a|e]]; [apply Hk, Hm | exact Hm].
Qed.

Lemma holds_keeps {A} J (m : M A) : holds J m (fun _ => J) J -> keeps J m.
Proof. intros H st HJ. specialize (H st HJ). destruct (m st) as [st' [a|e]]; exact H. Qed.

Lemma holds_of_keeps {A} (P J E : LLVMCodeGenerator -> Prop) (m : M A) :
  keeps J m -> (forall st, P st -> J st) -> (forall st, J st -> E st) ->
  holds P m (fun _ => J) E.
Proof.
  intros H HP HE st HJ. specialize (H st (HP st HJ)).
  destruct (m st) as [st' [a|e]]; [exact H | apply HE, H].
Qed.

Lemma keeps_conj {A} (J K : LLVMCodeGenerator -> Prop) (m : M A) :
  keeps J m -> keeps K m -> keeps (fun st => J st /\ K st) m.
Proof. intros HJ HK st [H1 H2]. split; [apply HJ, H1 | apply HK, H2]. Qed.

Lemma frames_keeps_stable {A} (P : LLVMCodeGenerator -> Prop) (m : M A) :
  (forall st st', ext st st' -> P st -> P st') -> frames m -> keeps P m.
Proof. intros HP Hm st H. eapply HP; [apply Hm | exact H]. Qed.

Lemma frames_has_block {A} u (m : M A) : frames m -> keeps (has_block u) m.
Proof. apply frames_keeps_stable. intros st st' H. apply ext_key, H. Qed.

Lemma frames_session_with {A} u (m : M A) : frames m -> keeps (session_with u) m.
Proof.
  intros H. apply keeps_conj; [apply frames_session, H | apply frames_has_block, H].
Qed.

Lemma frames_fresh_double {A} name v (m : M A) : frames m -> keeps (fresh_double name v) m.
Proof.
  apply frames_keeps_stable. intros st st' Hext [Hs (u & -> & Hu)].
  split; [eapply session_ext; eassumption|].
  exists u. split; [reflexivity|]. destruct Hext as (_ & _ & Hn & _). lia.
Qed.

Lemma holds_self_builder_session :
  holds session self_builder (fun b st => session_with (block b) st) session.
Proof.
  intros st Hs. pose proof Hs as ((b & Hb & Hk) & _).
  unfold self_builder. rewrite Hb. split; assumption.
Qed.

Lemma holds_new_block v p name :
  holds (fun st => session_with v st /\ parent_ok p st) (new_block p name)
        (fun u st => session_with v st /\ has_block u st) session.
Proof.
  intros st [[Hs Hv] Hp].
  pose proof (has_block_new_block v p name st Hv) as Hv'.
  destruct (session_new_block st p name Hs Hp) as (st' & E & Hs' & Hk).
  rewrite E in Hv' |- *. split; [split|]; assumption.
Qed.

Lemma holds_position_at_start u :
  holds (session_with u) (position_at_start u) (fun _ => session) session.
Proof.
  intros st [Hs Hk]. pose proof (session_position_at_start st u Hs Hk) as H.
  destruct (position_at_start u st) as [st' [a|e]]; exact H.
Qed.

(** The blocks of an IF: the nested block made by hand, the one appended
    under its name, and the builder moved to the start of the first. *)
Lemma session_if_blocks {A} (k : nat -> M A) :
  (forall u, keeps session (k u)) ->
  keeps session
    (do b <- self_builder;
     do r <- ran6;
     do if_block <- new_block (InBlock (block b)) (Label ("if_stmt" ++ r));
     run append_basic_block (LabelObj if_block);
     run position_at_start if_block;
     k if_block).
Proof.
  intros Hk. apply holds_keeps.
  eapply holds_bind; [apply holds_self_builder_session|]. intros b.
  apply holds_bind with (Q := fun _ => session_with (block b)).
  { apply holds_of_keeps; [apply frames_session_with, frames_ran6 | auto | intros st []; assumption]. }
  intros r.
  apply holds_bind with (Q := fun u st => session_with (block b) st /\ has_block u st).
  { intros st H. apply (holds_new_block (block b) (InBlock (block b))).
    split; [exact H | apply H]. }
  intros if_block.
  apply holds_bind with (Q := fun _ => session_with if_block).
  { apply holds_of_keeps.
    - apply keeps_conj; [apply session_append_basic_block | apply has_block_append_basic_block].
    - intros st [[Hs _] Hi]. split; assumption.
    - intros st []; assumption. }
  intros ?.
  eapply holds_bind; [apply holds_position_at_start|]. intros ?.
  apply holds_of_keeps; [apply Hk | auto | auto].
Qed.

Lemma holds_alloca name :
  holds session (alloca DoubleType name) (fresh_double name) session.
Proof.
  intros st Hs. destruct (session_alloca st name Hs) as (st' & E & Hs' & Hu).
  rewrite E. split; [exact Hs' | eauto].
Qed.

Lemma holds_bind_main x name v :
  holds (fresh_double name v)
        (do mst <- self_main_symbol_table;
         update (set_main_symbol_table (Some (<[x := v]> mst))))
        (fun _ => session) session.
Proof.
  intros st [Hs (u & -> & Hu)]. pose proof Hs as (Hb & Hp & Hk & (g & Hg & Hgok) & Hf).
  unfold bind, self_main_symbol_table, update. rewrite Hg.
  destruct st; simpl in *. repeat split; simpl; eauto.
  eexists. split; [reflexivity|]. apply bound_ok_insert; assumption.
Qed.

Lemma holds_bind_function x name v :
  holds (fresh_double name v)
        (update (fun st =>
           set_function_symbol_table (<[x := v]> (function_symbol_table st)) st))
        (fun _ => session) session.
Proof.
  intros st [Hs (u & -> & Hu)]. pose proof Hs as (Hb & Hp & Hk & Hg & Hf).
  unfold update. destruct st; simpl in *. repeat split; simpl; eauto.
  apply bound_ok_insert; assumption.
Qed.

Lemma session_declare (var : ID) :
  keeps session
    (let name := id_name var in
     let init_val := Constant DoubleType (CFloat 0) in
     do var_addr <- alloca DoubleType name;
     run store (Some init_val) var_addr;
     do f <- builder_function;
     do fname <- parent_name f;
     if label_is fname "main" then
       do mst <- self_main_symbol_table;
       update (set_main_symbol_table (Some (<[name := var_addr]> mst)))
     else
       update (fun st =>
         set_function_symbol_table (<[name := var_addr]> (function_symbol_table st)) st)).
Proof.
  cbv zeta. apply holds_keeps.
  eapply holds_bind; [apply holds_alloca|]. intros v.
  apply holds_bind with (Q := fun _ => fresh_double (id_name var) v).
  { apply holds_of_keeps; [apply frames_fresh_double, frames_store | auto | intros st []; assumption]. }
  intros ?.
  apply holds_bind with (Q := fun _ => fresh_double (id_name var) v).
  { apply holds_of_keeps;
      [apply frames_fresh_double, frames_builder_function | auto | intros st []; assumption]. }
  intros f.
  apply holds_bind with (Q := fun _ => fresh_double (id_name var) v).
  { apply holds_of_keeps;
      [apply frames_fresh_double, frames_parent_name | auto | intros st []; assumption]. }
  intros fname. destruct (label_is fname "main").
  - apply holds_bind_main.
  - apply holds_bind_function.
Qed.

Lemma session_parameter fn (i : nat) (arg_name : ID) :
  keeps session
    (do a <- alloca DoubleType (id_name arg_name);
     run store (Some (Argument fn i DoubleType)) a;
     update (fun st =>
       set_function_symbol_table
         (<[id_name arg_name := a]> (function_symbol_table st)) st)).
Proof.
  apply holds_keeps.
  eapply holds_bind; [apply holds_alloca|]. intros v.
  apply holds_bind with (Q := fun _ => fresh_double (id_name arg_name) v).
  { apply holds_of_keeps; [apply frames_fresh_double, frames_store | auto | intros st []; assumption]. }
  intros ?. apply holds_bind_function.
Qed.

Lemma has_block_parameter u fn (i : nat) (arg_name : ID) :
  keeps (has_block u)
    (do a <- alloca DoubleType (id_name arg_name);
     run store (Some (Argument fn i DoubleType)) a;
     update (fun st =>
       set_function_symbol_table
         (<[id_name arg_name := a]> (function_symbol_table st)) st)).
Proof.
  apply keeps_bind; [apply frames_has_block, frames_alloca | intros a].
  apply keeps_bind; [apply frames_has_block, frames_store | intros ?].
  apply keeps_update. intros st H. destruct st; exact H.
Qed.

Lemma holds_restore {A} b (r : A) :
  holds (session_with (block b))
        (run update (set_function_symbol_table ∅);
         run update (set_builder (Some b));
         ret r)
        (fun _ => session) session.
Proof.
  intros st [Hs Hk]. simpl.
  apply (session_set_builder (set_function_symbol_table ∅ st) b).
  - apply (session_set_function_symbol_table_empty st Hs).
  - destruct st; exact Hk.
Qed.

Lemma session_function_definition (name : ID) (parameter_list : list ID) (body : obj) :
  keeps session (_codegen body) ->
  keeps session (_codegen (FunctionDefinition name parameter_list body)).
Proof.
  intros IH. simpl. unfold _codegen_FunctionDefinition. cbv zeta.
  apply keeps_bind; [apply keeps_get | intros gs].
  destruct (gs !! id_name name); [apply keeps_raise|].
  apply keeps_bind; [apply frames_session, frames_add_global | intros ?].
  apply keeps_bind; [apply session_set_function_symbol_table_empty | intros ?].
  apply holds_keeps.
  eapply holds_bind; [apply holds_self_builder_session|]. intros b.
  apply holds_bind with (Q := fun u st => session_with (block b) st /\ has_block u st).
  { intros st H. apply (holds_new_block (block b) (InFunction (id_name name))).
    split; [exact H | exact I]. }
  intros bb_entry.
  apply holds_bind
    with (Q := fun nb st => session_with (block b) st /\ has_block (block nb) st).
  { intros st [Hsv [bb Hu]]. unfold IRBuilder_new, block_data, bind, get, ret.
    rewrite Hu. split; [exact Hsv | exists bb; exact Hu]. }
  intros nb.
  apply holds_bind with (Q := fun _ => session_with (block b)).
  { intros st [[Hs Hv] Hn]. simpl.
    split; [apply session_set_builder; assumption | destruct st; exact Hv]. }
  intros ?.
  apply holds_bind with (Q := fun _ => session_with (block b)).
  { apply holds_of_keeps; [| auto | intros st []; assumption].
    apply keeps_forM_, Forall_forall. intros [i arg_name] _.
    apply keeps_conj; [apply session_parameter | apply has_block_parameter]. }
  intros ?.
  apply holds_bind with (Q := fun _ => session_with (block b)).
  { apply holds_of_keeps; [| auto | intros st []; assumption].
    apply keeps_conj; [exact IH | apply has_block__codegen]. }
  intros ?.
  apply holds_bind with (Q := fun _ => session_with (block b)).
  { apply holds_of_keeps; [| auto | intros st []; assumption].
    apply frames_session_with, frames_builder_ret. }
  intros ?. apply holds_restore.
Qed.

Ltac session_step :=
  first
    [ assumption
    | apply keeps_ret | apply keeps_raise | apply keeps_lift | apply keeps_get
    | apply keeps_self_builder | apply keeps_self_main_symbol_table
    | apply session_append_basic_block | apply session_position_at_end
    | apply frames_session; solve [auto with frames]
    | apply keeps_forM_; first [assumption | apply Forall_forall; intros ? _; cbv beta]
    | apply keeps_mapM; first [assumption | apply Forall_forall; intros ? _; cbv beta]
    | apply keeps_bind; [| intros ?]
    | match goal with
      | |- keeps _ (match ?x with _ => _ end) => destruct x
      | |- keeps _ (if ?x then _ else _) => destruct x
      end ].

Lemma session__codegen node : keeps session (_codegen node).
Proof.
  induction node using obj_ind'; try apply session_function_definition; simpl;
    unfold _codegen_Number, _codegen_Text, _codegen_ID, _codegen_AssignStatement,
      _codegen_BinaryOperation, _codegen_WhileStatement,
      _codegen_VariableDeclaration, _codegen_FunctionCall,
      _codegen_Block, _codegen_Program,
      _codegen_ReturnStatement, _codegen_PrintStatement;
    try solve [repeat session_step].
  - (* VariableDeclaration *)
    apply keeps_bind; [| intros ?; apply keeps_ret].
    apply keeps_forM_, Forall_forall. intros var _. apply session_declare.
  - (* IfStatement *)
    unfold _codegen_IfStatement.
    apply keeps_bind; [apply keeps_self_builder | intros ?].
    apply keeps_bind; [exact IHnode1 | intros test_value].
    apply keeps_bind; [apply frames_session, frames_fcmp_ordered | intros test_gt_0].
    apply session_if_blocks. intros if_block.
    unfold if_else_enter, _branch_helper. repeat session_step.
Qed.

Lemma session_generate_code node : keeps session (generate_code node).
Proof.
  destruct node; simpl; try apply keeps_raise.
  - apply keeps_forM_, Forall_forall. intros i _.
    destruct (is_FunctionDefinition i); [apply session__codegen | apply keeps_raise].
  - apply keeps_bind; [apply (session__codegen (Program _)) | intros ?; apply keeps_ret].
  - apply keeps_bind; [apply (session__codegen (Block _ _)) | intros ?; apply keeps_ret].
Qed.

Lemma session_shell_state module_name w : session (shell_state module_name w).
Proof.
  unfold session, shell_state. simpl. repeat split.
  - eexists. split; [reflexivity|]. simpl. rewrite lookup_singleton_eq. eauto.
  - intros u bb p H Hp. apply lookup_singleton_Some in H as [<- <-]. discriminate.
  - intros u [bb H]. apply lookup_singleton_Some in H as [<- _]. lia.
  - exists ∅. split; [reflexivity | apply bound_ok_empty].
  - apply bound_ok_empty.
Qed.

Lemma session_later st st' : later st st' -> session st -> session st'.
Proof.
  induction 1; intros Hs.
  - exact Hs.
  - apply session_generate_code, IHlater, Hs.
  - apply session__codegen, IHlater, Hs.
Qed.

(** In an interactive session the generator always has a builder on a block
    that exists and a global tier; every name bound in either tier is bound
    to the address of a double that an earlier [alloca] made; and the block
    a nested block was made in exists. *)
Lemma later_shell_state module_name w st :
  later (shell_state module_name w) st -> session st.
Proof. intros H. eapply session_later; [exact H | apply session_shell_state]. Qed.

(** X8. In an interactive session the generator always has a builder on a
    block that exists and a global tier; every name bound in either tier is
    bound to the address of a double that an earlier [alloca] made; and the
    block a nested block was made in exists. *)
Theorem interactive_session_invariant module_name w st :
  later (shell_state module_name w) st -> session st.
Proof. apply later_shell_state. Qed.

Lemma interactive_session_invariant_witness :
  session (generate_code define_g (generate_code declare_x shell0).1).1.
Proof.
  apply (interactive_session_invariant "<stdin>" example_world).
  apply later_generate_code, later_generate_code, later_refl.
Defined.

(** ** Declarations and names in a session *)

Lemma hoare_of_keeps {A} (P : LLVMCodeGenerator -> Prop) (m : M A) :
  keeps P m -> (forall st, P st -> exists st' a, m st = (st', Ok a)) ->
  hoare P m (fun _ => P).
Proof.
  intros K S st HP. destruct (S st HP) as (st' & a & E).
  exists st', a. split; [exact E|]. specialize (K st HP). rewrite E in K. exact K.
Qed.

Lemma bound_ext st st' y : ext st st' -> bound y st -> bound y st'.
Proof.
  intros (Em & Ef & _) [H|(g & Hg & H)].
  - left. rewrite Ef. exact H.
  - right. exists g. split; [congruence | exact H].
Qed.

Lemma store_succeeds st v p :
  is_Some (builder st) -> type_of p = PointerType DoubleType -> type_of v = DoubleType ->
  exists st', store (Some v) p st = (st', Ok tt).
Proof.
  intros [b Hb] Hp Hv. unfold store, bind, self_builder. rewrite Hb, Hp. simpl.
  rewrite Hv. simpl. unfold _insert, bind, self_builder, update. rewrite Hb. simpl. eauto.
Qed.

Lemma session_builder_function_name st :
  session st ->
  exists p l, builder_function st = (st, Ok p) /\ parent_name p st = (st, Ok l).
Proof.
  intros ((b & Hb & bb & Hk) & Hp & _). exists (parent bb).
  unfold builder_function, parent_name, block_data, bind, self_builder, get, ret.
  rewrite Hb, Hk. simpl. destruct (parent bb) as [fn|q] eqn:E.
  - eauto.
  - destruct (Hp _ _ _ Hk E) as [bq Hq]. rewrite Hq. eauto.
Qed.

Lemma bound_insert_function y x v st :
  bound y st ->
  bound y (set_function_symbol_table (<[x := v]> (function_symbol_table st)) st).
Proof.
  destruct st; simpl. intros [H|H]; [left | right; exact H].
  simpl in *. apply lookup_insert_is_Some'. right. exact H.
Qed.

Lemma bound_insert_main y x v g st :
  main_symbol_table st = Some g -> bound y st ->
  bound y (set_main_symbol_table (Some (<[x := v]> g)) st).
Proof.
  destruct st; simpl. intros -> [H|(g' & [= <-] & H)]; [left; exact H | right].
  eexists. split; [reflexivity|]. apply lookup_insert_is_Some'. right. exact H.
Qed.

(** One round of the loop of [_codegen_VariableDeclaration]. *)
Lemma declare_step done (var : ID) :
  hoare (declared done)
    (let name := id_name var in
     let init_val := Constant DoubleType (CFloat 0) in
     do var_addr <- alloca DoubleType name;
     run store (Some init_val) var_addr;
     do f <- builder_function;
     do fname <- parent_name f;
     if label_is fname "main" then
       do mst <- self_main_symbol_table;
       update (set_main_symbol_table (Some (<[name := var_addr]> mst)))
     else
       update (fun st =>
         set_function_symbol_table (<[name := var_addr]> (function_symbol_table st)) st))
    (fun _ => declared (done ++ [id_name var])).
Proof.
  cbv zeta.
  apply hoare_bind
    with (R := fun v st => fresh_double (id_name var) v st
                           /\ Forall (fun y => bound y st) done).
  { intros st [Hs Hd].
    destruct (session_alloca st (id_name var) Hs) as (st' & E & Hs' & Hu).
    pose proof (frames_alloca DoubleType (id_name var) st) as Hext. rewrite E in Hext.
    exists st', (AllocaInstr (next_uid st) DoubleType (id_name var)).
    split; [exact E|]. split; [split; [exact Hs' | eauto]|].
    eapply Forall_impl; [exact Hd | intros y; apply bound_ext, Hext]. }
  intros v.
  apply hoare_bind
    with (R := fun _ st => fresh_double (id_name var) v st
                           /\ Forall (fun y => bound y st) done).
  { apply hoare_of_keeps.
    - apply keeps_conj; [apply frames_fresh_double, frames_store|].
      apply frames_keeps_stable; [|apply frames_store].
      intros st st' Hext Hd. eapply Forall_impl; [exact Hd | intros y; apply bound_ext, Hext].
    - intros st [[Hs (u & -> & Hu)] _]. destruct Hs as ((b & Hb & _) & _).
      destruct (store_succeeds st (Constant DoubleType (CFloat 0))
                  (AllocaInstr u DoubleType (id_name var))) as (st' & E);
        [eauto | reflexivity | reflexivity |]. eauto. }
  intros ? st [[Hs (u & -> & Hu)] Hd].
  destruct (session_builder_function_name st Hs) as (p & l & E1 & E2).
  unfold bind at 1. rewrite E1. unfold bind at 1. rewrite E2.
  pose proof Hs as (_ & _ & _ & (g & Hg & _) & _).
  assert (Hfd : fresh_double (id_name var) (AllocaInstr u DoubleType (id_name var)) st)
    by (split; eauto).
  destruct (label_is l "main").
  - pose proof (holds_bind_main (id_name var) _ _ st Hfd) as H.
    unfold bind, self_main_symbol_table, update in *. rewrite Hg in *.
    eexists _, _. split; [reflexivity|]. split; [exact H|].
    apply Forall_app. split.
    + eapply Forall_impl; [exact Hd | intros y; apply bound_insert_main, Hg].
    + constructor; [|constructor]. right. eexists. split.
      * destruct st; reflexivity.
      * rewrite lookup_insert_eq. eauto.
  - pose proof (holds_bind_function (id_name var) _ _ st Hfd) as H.
    unfold update in *. eexists _, _. split; [reflexivity|]. split; [exact H|].
    apply Forall_app. split.
    + eapply Forall_impl; [exact Hd | intros y; apply bound_insert_function].
    + constructor; [|constructor]. left. destruct st; simpl.
      rewrite lookup_insert_eq. eauto.
Qed.

Lemma declare_loop l : forall done,
  hoare (declared done)
    (forM_ (fun var =>
        let name := id_name var in
        let init_val := Constant DoubleType (CFloat 0) in
        do var_addr <- alloca DoubleType name;
        run store (Some init_val) var_addr;
        do f <- builder_function;
        do fname <- parent_name f;
        if label_is fname "main" then
          do mst <- self_main_symbol_table;
          update (set_main_symbol_table (Some (<[name := var_addr]> mst)))
        else
          update (fun st =>
            set_function_symbol_table (<[name := var_addr]> (function_symbol_table st)) st))
      l)
    (fun _ => declared (done ++ map id_name l)).
Proof.
  induction l as [|x l IH]; intros done; simpl.
  - rewrite app_nil_r. apply hoare_ret. auto.
  - eapply hoare_bind; [apply declare_step | intros ?].
    specialize (IH (done ++ [id_name x])%list). rewrite <- app_assoc in IH. exact IH.
Qed.

(** X9. In an interactive session a declaration never fails, and each name it
    declares is bound afterwards. *)
Theorem declaration_in_a_session module_name w st variable_list :
  later (shell_state module_name w) st ->
  exists st',
    _codegen (VariableDeclaration variable_list) st = (st', Ok None)
    /\ forall x, x ∈ variable_list -> bound (id_name x) st'.
Proof.
  intros H. apply later_shell_state in H.
  destruct (declare_loop variable_list [] st) as (st' & [] & E & Hs & Hb).
  { split; [exact H | constructor]. }
  exists st'. split.
  - change (_codegen (VariableDeclaration variable_list) st)
      with (_codegen_VariableDeclaration variable_list st).
    unfold _codegen_VariableDeclaration. unfold bind at 1. cbv zeta in E.
    rewrite E. reflexivity.
  - intros x Hx. simpl in Hb. rewrite Forall_forall in Hb. apply Hb.
    apply list_elem_of_fmap. eauto.
Qed.

Lemma declaration_in_a_session_witness :
  exists st',
    _codegen (VariableDeclaration [id_of "x"; id_of "y"])
      (generate_code define_g shell0).1 = (st', Ok None)
    /\ forall x, x ∈ [id_of "x"; id_of "y"] -> bound (id_name x) st'.
Proof.
  apply (declaration_in_a_session "<stdin>" example_world).
  apply later_generate_code, later_refl.
Defined.

(** What [_codegen_ID] and [_codegen_AssignStatement] begin with: a bound
    name resolves to the address of a double, the function tier first. *)
Lemma session_resolves st x :
  session st -> bound (id_name x) st ->
  exists u name,
    match function_symbol_table st !! id_name x with
    | Some a => ret a
    | None =>
        do mst <- self_main_symbol_table;
        match mst !! id_name x with
        | Some a => ret a
        | None => raise (CodegenError (NameNotDefined (id_name x)))
        end
    end st = (st, Ok (AllocaInstr u DoubleType name))
    /\ (function_symbol_table st !! id_name x = Some (AllocaInstr u DoubleType name)
        \/ function_symbol_table st !! id_name x = None
           /\ exists g, main_symbol_table st = Some g
                        /\ g !! id_name x = Some (AllocaInstr u DoubleType name)).
Proof.
  intros H Hb. pose proof H as (_ & _ & _ & (g & Hg & Hgok) & Hfok).
  unfold bind, self_main_symbol_table, ret.
  destruct (function_symbol_table st !! id_name x) as [a|] eqn:Ef.
  - destruct (Hfok _ _ Ef) as (u & name & -> & _). eauto 10.
  - destruct Hb as [[? Hb]|(g' & Hg' & [a Hx])]; [congruence|].
    rewrite Hg'. rewrite Hx. rewrite Hg in Hg'. injection Hg' as <-.
    destruct (Hgok _ _ Hx) as (u & name & -> & _). eauto 10.
Qed.

Lemma session_read st x :
  session st -> bound (id_name x) st ->
  exists st' u a,
    _codegen (Ident x) st = (st', Ok (Some (LoadInstr u a (id_name x))))
    /\ type_of (LoadInstr u a (id_name x)) = DoubleType
    /\ (function_symbol_table st !! id_name x = Some a
        \/ function_symbol_table st !! id_name x = None
           /\ exists g, main_symbol_table st = Some g /\ g !! id_name x = Some a).
Proof.
  intros H Hb. destruct (session_resolves st x H Hb) as (u & name & E & Hwhere).
  pose proof H as ((b & Hbld & _) & _).
  simpl. unfold _codegen_ID. unfold bind at 1, get at 1. cbv beta iota.
  unfold bind at 1. rewrite E.
  unfold load, bind, self_builder, fresh_uid, _insert, update, ret. rewrite Hbld. simpl.
  unfold bind, self_builder, update. simpl. rewrite Hbld. simpl.
  eexists _, _, _. split; [reflexivity|]. split; [reflexivity | exact Hwhere].
Qed.

(** X10. In an interactive session a bound name can be used: reading it
    lowers to a load of a double from the location it is bound to, the
    function tier first, and assigning a number to it lowers as well. *)
Theorem bound_names_are_usable module_name w st x :
  later (shell_state module_name w) st -> bound (id_name x) st ->
  (exists st' u a,
     _codegen (Ident x) st = (st', Ok (Some (LoadInstr u a (id_name x))))
     /\ type_of (LoadInstr u a (id_name x)) = DoubleType
     /\ (function_symbol_table st !! id_name x = Some a
         \/ function_symbol_table st !! id_name x = None
            /\ exists g, main_symbol_table st = Some g /\ g !! id_name x = Some a))
  /\ (forall flag c, exists st',
        _codegen (AssignStatement x (Number flag c)) st = (st', Ok None)).
Proof.
  intros H Hb. apply later_shell_state in H. split; [apply session_read; assumption|].
  destruct (session_resolves st x H Hb) as (u & name & E & _).
  pose proof H as ((b & Hbld & _) & _).
  intros flag c. simpl. unfold _codegen_AssignStatement.
  unfold bind at 1, get at 1. cbv beta iota.
  unfold bind at 1. rewrite E. cbv beta iota.
  change (_codegen (Number flag c)) with (_codegen_Number c).
  unfold _codegen_Number. rewrite bind_ret.
  destruct (store_succeeds st (Constant DoubleType (CFloat c))
              (AllocaInstr u DoubleType name)) as (st' & E');
    [eauto | reflexivity | reflexivity |].
  unfold bind. rewrite E'. eauto.
Qed.

Lemma bound_names_are_usable_witness :
  exists st' u a,
    _codegen (Ident (id_of "x")) (generate_code declare_x shell0).1
    = (st', Ok (Some (LoadInstr u a "x"))).
Proof.
  destruct (bound_names_are_usable "<stdin>" example_world
              (generate_code declare_x shell0).1 (id_of "x")) as [(st' & u & a & E & _) _].
  - apply later_generate_code, later_refl.
  - right. eexists. split; [reflexivity|]. vm_compute. eauto.
  - exists st', u, a. exact E.
Defined.

Lemma atom_ext st st' e : ext st st' -> atom st e -> atom st' e.
Proof. intros Hext. destruct e; simpl; auto. apply bound_ext, Hext. Qed.

Lemma atoms_lower l : forall st,
  session st -> Forall (atom st) l ->
  exists st' vs,
    mapM _codegen l st = (st', Ok (map Some vs))
    /\ Forall (fun v => type_of v = DoubleType) vs
    /\ length vs = length l
    /\ session st'.
Proof.
  induction l as [|e l IH]; intros st Hs Hl.
  - exists st, []. split; [reflexivity|]. split; [constructor|].
    split; [reflexivity | exact Hs].
  - inversion Hl as [|? ? He Hl']; subst.
    assert (Hstep : exists st1 v,
              _codegen e st = (st1, Ok (Some v)) /\ type_of v = DoubleType
              /\ ext st st1).
    { destruct e; simpl in He; try contradiction.
      - eexists _, _. split; [reflexivity|]. split; [reflexivity | apply ext_refl].
      - destruct (session_read st i Hs He) as (st1 & u & a & E & Hty & _).
        exists st1, (LoadInstr u a (id_name i)). split; [exact E|]. split; [exact Hty|].
        pose proof (binds_nothing_frames (Ident i) eq_refl st) as Hext.
        rewrite E in Hext. exact Hext. }
    destruct Hstep as (st1 & v & E & Hty & Hext).
    destruct (IH st1) as (st' & vs & E' & Hvs & Hlen & Hs').
    { eapply session_ext; eassumption. }
    { eapply Forall_impl; [exact Hl' | intros x; apply atom_ext, Hext]. }
    exists st', (v :: vs).
    change (mapM _codegen (e :: l) st)
      with ((do y <- _codegen e; do ys <- mapM _codegen l; ret (y :: ys)) st).
    unfold bind at 1. rewrite E. unfold bind at 1. rewrite E'.
    split; [reflexivity|]. split; [constructor; assumption|].
    split; [simpl; congruence | exact Hs'].
Qed.

Lemma check_call_args_doubles vs :
  Forall (fun v => type_of v = DoubleType) vs ->
  check_call_args (replicate (length vs) DoubleType) (map Some vs) = Ok tt.
Proof. induction 1 as [|v vs Hv _ IH]; simpl; [reflexivity|]. rewrite Hv. exact IH. Qed.

(** X11. In an interactive session, a call of a function of the module with
    as many arguments as it has parameters lowers to a call instruction of
    that function on the lowered arguments, one double each, when the
    arguments are numbers and bound names.  The name of the instruction is
    left open: the generator asks for calltmp and llvmlite makes it
    unique. *)
Theorem function_call_lowers module_name w st flag name l r va :
  later (shell_state module_name w) st ->
  globals st !! id_name name = Some (Function r (replicate (length l) DoubleType) va) ->
  Forall (atom st) l ->
  exists st' u vs nm,
    _codegen (FunctionCall flag name (Some l)) st
    = (st', Ok (Some (CallInstr u (id_name name) r (map Some vs) nm)))
    /\ Forall (fun v => type_of v = DoubleType) vs
    /\ length vs = length l.
Proof.
  intros H Hg Hl. apply later_shell_state in H.
  destruct (atoms_lower l st H Hl) as (st1 & vs & E & Hvs & Hlen & Hs1).
  pose proof Hs1 as ((b & Hb & _) & _).
  simpl. unfold _codegen_FunctionCall, get_global.
  unfold bind at 1, bind at 1, get at 1. cbv beta iota. rewrite Hg.
  unfold ret at 1. cbv beta iota.
  rewrite length_replicate, Nat.eqb_refl. change (negb true) with false. cbv iota.
  unfold bind at 1. rewrite E.
  unfold call, bind, self_builder, lift, fresh_uid, _insert, update, ret.
  rewrite Hb. simpl. rewrite <- Hlen, (check_call_args_doubles vs Hvs).
  unfold bind, self_builder, update. simpl. rewrite Hb. simpl.
  eexists _, _, vs, _. split; [reflexivity|]. split; [exact Hvs | congruence].
Qed.

Lemma function_call_lowers_witness :
  exists st' u vs nm,
    _codegen (FunctionCall false (id_of "f") (Some [Number false 1%float]))
      (generate_code define_f shell0).1
    = (st', Ok (Some (CallInstr u "f" DoubleType (map Some vs) nm)))
    /\ Forall (fun v => type_of v = DoubleType) vs
    /\ length vs = 1.
Proof.
  apply (function_call_lowers "<stdin>" example_world (generate_code define_f shell0).1
           false (id_of "f") [Number false 1%float] DoubleType false).
  - apply later_generate_code, later_refl.
  - vm_compute. reflexivity.
  - repeat constructor.
Defined.

(** ** RETURN *)

Lemma terminated_ext st st' : ext st st' -> terminated st -> terminated st'.
Proof.
  intros (_ & _ & _ & Eb & EB & _) (b & bb & Hb & HB & Ht).
  destruct (Eb b Hb) as (b' & Hb' & E). destruct (EB _ _ HB) as (bb' & HB' & _ & _ & Ht').
  exists b', bb'. rewrite E. auto.
Qed.

Lemma builder_ret_terminated v st :
  terminated st -> builder_ret v st = (st, Raise AssertionError).
Proof.
  intros (b & bb & Hb & HB & [t Ht]).
  unfold builder_ret, _set_terminator, block_data, bind, self_builder, get, ret.
  rewrite Hb. simpl. rewrite Hb. simpl. rewrite HB. simpl. rewrite Ht. reflexivity.
Qed.

(** X12. A RETURN lowered while the builder is on a block that already has
    its terminator cannot succeed: llvmlite's builder refuses a second
    terminator with an AssertionError, once the expression is lowered, and
    the builder stays on the terminated block.  This is what a RETURN typed
    at the prompt of a new session meets, [__init__] having emitted
    [ret void] in advance. *)
Theorem return_into_a_terminated_block st e :
  terminated st -> binds_nothing e = true ->
  exists st' err,
    _codegen (ReturnStatement e) st = (st', Raise err)
    /\ terminated st'
    /\ (forall v, (_codegen e st).2 = Ok v -> err = AssertionError).
Proof.
  intros Ht He. pose proof (binds_nothing_frames e He st) as Hext.
  apply (terminated_ext _ _ Hext) in Ht.
  simpl. unfold _codegen_ReturnStatement. unfold bind at 1.
  destruct (_codegen e st) as [st1 [v|err]]; simpl in *.
  - unfold bind at 1. rewrite (builder_ret_terminated v st1 Ht).
    exists st1, AssertionError. auto.
  - exists st1, err. split; [reflexivity|]. split; [exact Ht|]. discriminate.
Qed.

Lemma return_into_a_terminated_block_witness :
  exists st' err,
    _codegen (ReturnStatement (Number false 1%float)) shell0 = (st', Raise err)
    /\ terminated st'
    /\ (forall v, (_codegen (Number false 1%float) shell0).2 = Ok v
                  -> err = AssertionError).
Proof.
  apply (return_into_a_terminated_block shell0 (Number false 1%float)).
  - eexists _, _. split; [reflexivity|]. split; [reflexivity|]. simpl. eauto.
  - reflexivity.
Defined.

Lemma forM__app {A B} (f : A -> M B) l1 l2 st :
  forM_ f (l1 ++ l2) st = (run forM_ f l1; forM_ f l2) st.
Proof.
  revert st. induction l1 as [|x l1 IH]; intros st; simpl.
  - reflexivity.
  - unfold bind. destruct (f x st) as [st1 [b|e]]; [|reflexivity].
    rewrite IH. reflexivity.
Qed.

Lemma inside_return G fn sc e :
  simple_expression sc e = true ->
  hoare (inside G fn sc) (_codegen (ReturnStatement e))
        (fun _ st => globals st = G /\ terminated st).
Proof.
  intros He. simpl. unfold _codegen_ReturnStatement.
  eapply hoare_bind; [apply simple_expression_lowers, He | intros r].
  apply hoare_pure. intros (v & -> & Hv).
  eapply hoare_bind; [|intros ?; apply hoare_ret; intros st H; exact H].
  intros st (HG & (b & bb & Hb & HB & Hp & Ht) & Hsc).
  destruct st; simpl in *; subst.
  unfold builder_ret, _set_terminator, _insert, self_builder, block_data,
    bind, get, update, ret. simpl. rewrite HB. simpl. rewrite Ht. simpl.
  eexists _, _. split; [reflexivity|]. split; [reflexivity|].
  eexists _, _. simpl. split; [reflexivity|]. simpl.
  rewrite !lookup_alter_eq, HB. simpl. split; [reflexivity | eauto].
Qed.

(** A function definition from its first statement to the entry of its
    body: the function is declared, its entry block made, and the builder
    put there. *)
Lemma function_definition_enters st n ps body b :
  builder st = Some b -> globals st !! id_name n = None -> id_name n <> "" ->
  let F := Function DoubleType (replicate (length ps) DoubleType) false in
  _codegen (FunctionDefinition n ps body) st
  = (run forM_ (fun '(i, arg_name) =>
           do a <- alloca DoubleType (id_name arg_name);
           run store (Some (Argument (id_name n) i DoubleType)) a;
           update (fun st =>
             set_function_symbol_table
               (<[id_name arg_name := a]> (function_symbol_table st)) st))
         (imap pair ps);
     run _codegen body;
     run builder_ret (Some (Constant DoubleType (CFloat 0)));
     run update (set_function_symbol_table ∅);
     run update (set_builder (Some b));
     ret (Some (global_ref (id_name n) F)))
      (mkGen (mode st) (module_name st) (<[id_name n := F]> (globals st))
         (<[next_uid st := mkBlock (InFunction (id_name n)) (Label "entry") [] None]>
            (blocks st))
         (Some (mkBuilder (next_uid st) 0)) (main_symbol_table st) ∅
         (S (next_uid st)) (ran6_calls st) (world st)).
Proof.
  intros Hb Hfresh Hempty F. apply String.eqb_neq in Hempty.
  destruct st as [m mn G0 B bld mst fst u r w]. simpl in *. subst bld.
  unfold _codegen_FunctionDefinition.
  unfold bind at 1, get at 1. simpl. rewrite Hfresh.
  unfold bind at 1, add_global at 1, bind at 1, get at 1. simpl.
  rewrite Hempty, Hfresh.
  unfold update at 1. simpl.
  unfold bind at 1, update at 1. simpl.
  unfold bind at 1, self_builder at 1. simpl.
  unfold bind at 1, Function_append_basic_block, new_block, bind at 1, fresh_uid.
  simpl. unfold bind at 1, update at 1. simpl.
  unfold bind at 1, IRBuilder_new, bind at 1, block_data, bind at 1, get at 1. simpl.
  rewrite lookup_insert_eq. simpl.
  unfold bind at 1, update at 1. simpl. reflexivity.
Qed.

(** X13. A function whose straight-line body ends with RETURN is never
    lowered: the RETURN terminates the entry block, and the [ret] that the
    visitor always emits after the body is refused by llvmlite with an
    AssertionError.  The function stays declared in the module.  The name of
    the function is new to the module and not empty, an empty name being
    refused by llvmlite before the body is reached. *)
Theorem function_ending_with_return_fails st n ps ds ss e :
  is_Some (builder st) ->
  globals st !! id_name n = None ->
  id_name n <> "main" ->
  id_name n <> "" ->
  forallb is_VariableDeclaration ds = true ->
  forallb (simple_statement (map id_name ps ++ declared_names ds)) ss = true ->
  simple_expression (map id_name ps ++ declared_names ds) e = true ->
  exists st',
    _codegen (FunctionDefinition n ps (Block ds (ss ++ [ReturnStatement e]))) st
    = (st', Raise AssertionError)
    /\ globals st'
       = <[id_name n := Function DoubleType (replicate (length ps) DoubleType) false]>
           (globals st).
Proof.
  intros [b Hb] Hfresh Hmain Hempty Hds Hss He.
  rewrite (function_definition_enters st n ps _ b Hb Hfresh Hempty). cbv zeta.
  set (F := Function DoubleType (replicate (length ps) DoubleType) false).
  set (G := <[id_name n := F]> (globals st)).
  set (st1 := mkGen _ _ _ _ _ _ _ _ _ _).
  assert (Hin : inside G (id_name n) [] st1).
  { split; [reflexivity|]. split.
    - exists (mkBuilder (next_uid st) 0),
        (mkBlock (InFunction (id_name n)) (Label "entry") [] None).
      unfold st1. simpl. rewrite lookup_insert_eq. auto.
    - intros x Hx. inversion Hx. }
  assert (Hbody : hoare (inside G (id_name n) [])
            (run forM_ (fun '(i, arg_name) =>
                   do a <- alloca DoubleType (id_name arg_name);
                   run store (Some (Argument (id_name n) i DoubleType)) a;
                   update (fun st =>
                     set_function_symbol_table
                       (<[id_name arg_name := a]> (function_symbol_table st)) st))
                 (imap pair ps);
             _codegen (Block ds (ss ++ [ReturnStatement e])))
            (fun _ st => globals st = G /\ terminated st)).
  { eapply hoare_bind; [apply parameters_lower | intros ?].
    rewrite imap_pair_names. simpl. unfold _codegen_Block.
    eapply hoare_bind; [apply declarations_lower; assumption | intros ?].
    eapply hoare_bind; [|intros ?; apply hoare_ret; intros s H; exact H].
    intros s Hs.
    assert (Hloop : hoare (inside G (id_name n) (map id_name ps ++ declared_names ds))
                      (forM_ _codegen ss)
                      (fun _ => inside G (id_name n) (map id_name ps ++ declared_names ds))).
    { apply forM__preserves, Forall_forall. intros x Hx.
      apply simple_statement_lowers.
      rewrite forallb_forall in Hss. apply Hss, list_elem_of_In, Hx. }
    destruct (Hloop s Hs) as (s1 & [] & E1 & Hs1).
    destruct (inside_return G (id_name n) _ e He s1 Hs1) as (s2 & r & E2 & Hs2).
    exists s2, tt. split; [|exact Hs2].
    rewrite forM__app. unfold bind at 1. rewrite E1. cbv beta iota.
    change (forM_ _codegen [ReturnStatement e] s1)
      with ((run _codegen (ReturnStatement e); ret tt) s1).
    unfold bind at 1. rewrite E2. reflexivity. }
  destruct (Hbody st1 Hin) as (st2 & r & E & HG & Ht).
  exists st2. split; [|exact HG].
  unfold bind at 1. unfold bind at 1 in E.
  destruct (forM_ _ (imap pair ps) st1) as [s [[]|err]]; [|discriminate E].
  unfold bind at 1. rewrite E.
  unfold bind at 1. rewrite (builder_ret_terminated _ st2 Ht). reflexivity.
Qed.

Lemma function_ending_with_return_fails_witness :
  exists st',
    _codegen (FunctionDefinition (id_of "f") [id_of "a"]
                (Block [] ([] ++ [ReturnStatement (Ident (id_of "a"))]))) shell0
    = (st', Raise AssertionError)
    /\ globals st'
       = <[ "f" := Function DoubleType [DoubleType] false ]> (globals shell0).
Proof.
  apply (function_ending_with_return_fails shell0 (id_of "f") [id_of "a"] [] []
           (Ident (id_of "a"))).
  - simpl. eauto.
  - reflexivity.
  - discriminate.
  - discriminate.
  - reflexivity.
  - reflexivity.
  - vm_compute. reflexivity.
Defined.

(** ** IF, WHILE and PRINT *)

(** What follows [if_else] in [_codegen_IfStatement] is never reached. *)
Lemma if_else_is_never_entered {A} test (k k' : nat * nat * nat -> M A) st :
  (run self_builder;
   do test_value <- _codegen test;
   do test_gt_0 <- fcmp_ordered ">" test_value (Some (Constant DoubleType (CFloat 0)));
   do b <- self_builder;
   do r <- ran6;
   do if_block <- new_block (InBlock (block b)) (Label ("if_stmt" ++ r));
   run append_basic_block (LabelObj if_block);
   run position_at_start if_block;
   do bbs <- if_else_enter test_gt_0;
   k bbs) st
  = (run self_builder;
     do test_value <- _codegen test;
     do test_gt_0 <- fcmp_ordered ">" test_value (Some (Constant DoubleType (CFloat 0)));
     do b <- self_builder;
     do r <- ran6;
     do if_block <- new_block (InBlock (block b)) (Label ("if_stmt" ++ r));
     run append_basic_block (LabelObj if_block);
     run position_at_start if_block;
     do bbs <- if_else_enter test_gt_0;
     k' bbs) st.
Proof.
  unfold bind, self_builder.
  destruct (builder st) as [b0|]; [|reflexivity].
  destruct (_codegen test st) as [st1 [tv|e]]; [|reflexivity].
  destruct (fcmp_ordered ">" tv (Some (Constant DoubleType (CFloat 0))) st1)
    as [st2 [cmp|e]]; [|reflexivity].
  destruct st2 as [m mn G B bld mst fst u r w]. simpl.
  destruct bld as [b|]; [|reflexivity].
  unfold ran6, new_block, fresh_uid, append_basic_block, builder_function,
    Function_append_basic_block, new_block, fresh_uid, position_at_start,
    if_else_enter, self_builder, block_data, bind, get, update, ret, raise.
  simpl.
  destruct (decide (block b = u)) as [E|Hne].
  - rewrite E, lookup_insert_eq. simpl. reflexivity.
  - rewrite lookup_insert_ne by congruence.
    destruct (B !! block b) as [bb|]; [|reflexivity]. simpl.
    destruct (parent bb) as [fn|p]; [|reflexivity]. simpl.
    rewrite lookup_insert_ne by lia. rewrite lookup_insert_eq. simpl.
    unfold _label_suffix.
    destruct (Nat.ltb 50 _); simpl;
      unfold append_basic_block, builder_function, self_builder, block_data,
        bind, get, ret, raise; simpl;
      rewrite lookup_insert_ne by lia; rewrite lookup_insert_eq; simpl; reflexivity.
Qed.

(** X14. The branches of an IF are never reached: whatever they are, the
    visitor ends in the same generator with the same result. *)
Theorem if_branches_are_never_lowered st test then_block else_block then_block' else_block' :
  _codegen (IfStatement test then_block else_block) st
  = _codegen (IfStatement test then_block' else_block') st.
Proof.
  exact (if_else_is_never_entered test
           (fun bbs => let '(bbif, bbelse, bbend) := bbs in
              run _branch_helper bbif bbend (_codegen then_block);
              run _branch_helper bbelse bbend (_codegen else_block);
              run position_at_end bbend;
              ret None)
           (fun bbs => let '(bbif, bbelse, bbend) := bbs in
              run _branch_helper bbif bbend (_codegen then_block');
              run _branch_helper bbelse bbend (_codegen else_block');
              run position_at_end bbend;
              ret None) st).
Qed.

Lemma bind_ext {A B} (m m' : M A) (k k' : A -> M B) st :
  (forall st, m st = m' st) -> (forall a st, k a st = k' a st) ->
  bind m k st = bind m' k' st.
Proof.
  intros Hm Hk. unfold bind. rewrite Hm.
  destruct (m' st) as [st1 [a|e]]; [apply Hk | reflexivity].
Qed.

Lemma forM__map_ext {B} (f : obj -> M B) (g : obj -> obj) l :
  Forall (fun x => forall st, f (g x) st = f x st) l ->
  forall st, forM_ f (map g l) st = forM_ f l st.
Proof.
  induction 1 as [|x l Hx _ IH]; intros st; simpl; [reflexivity|].
  apply bind_ext; [exact Hx | intros ? ?; apply IH].
Qed.

Lemma forM__drop_loops l :
  Forall (fun x => forall st, _codegen (without_loops x) st = _codegen x st) l ->
  forall st, forM_ _codegen (drop_loops without_loops l) st = forM_ _codegen l st.
Proof.
  induction 1 as [|x l Hx _ IH]; intros st; simpl; [reflexivity|].
  destruct x; simpl;
    try (apply bind_ext; [exact Hx | intros ? ?; apply IH]).
  (* WhileStatement *)
  unfold _codegen_WhileStatement. rewrite bind_ret. apply IH.
Qed.

Lemma without_loops__codegen node :
  forall st, _codegen (without_loops node) st = _codegen node st.
Proof.
  induction node using obj_ind'; intros st; try reflexivity.
  - (* Program *)
    simpl. unfold _codegen_Program.
    apply bind_ext; [apply forM__map_ext; assumption | reflexivity].
  - (* FunctionDefinition *)
    simpl. unfold _codegen_FunctionDefinition.
    apply bind_ext; [reflexivity | intros gs ?].
    destruct (gs !! id_name n); [reflexivity|].
    repeat (apply bind_ext; [try reflexivity | intros ? ?]); try reflexivity.
    exact IHnode.
  - (* Block *)
    simpl. unfold _codegen_Block.
    apply bind_ext; [reflexivity | intros ? ?].
    apply bind_ext; [apply forM__drop_loops; assumption | reflexivity].
Qed.

(** X15. While statements contribute nothing: without them, a tree is
    lowered to the same generator with the same result, by [_codegen] and
    by [generate_code]. *)
Theorem loops_are_not_lowered node st :
  _codegen (without_loops node) st = _codegen node st
  /\ generate_code (without_loops node) st = generate_code node st.
Proof.
  split; [apply without_loops__codegen|].
  destruct node; try reflexivity.
  - (* a list of functions *)
    simpl. apply forM__map_ext, Forall_forall. intros x _ s.
    replace (is_FunctionDefinition (without_loops x)) with (is_FunctionDefinition x)
      by (destruct x; reflexivity).
    destruct (is_FunctionDefinition x); [apply without_loops__codegen | reflexivity].
  - lazymatch goal with
    | |- generate_code (without_loops ?n) ?s = _ =>
        change ((run _codegen (without_loops n); ret tt) s = (run _codegen n; ret tt) s)
    end.
    apply bind_ext; [apply without_loops__codegen | reflexivity].
  - lazymatch goal with
    | |- generate_code (without_loops ?n) ?s = _ =>
        change ((run _codegen (without_loops n); ret tt) s = (run _codegen n; ret tt) s)
    end.
    apply bind_ext; [apply without_loops__codegen | reflexivity].
Qed.



(** ** Lists of functions *)

(** X24. [generate_code] checks the items of a list one by one, as it
    lowers them: a list whose first item that is no function definition
    comes after functions that lower is lowered up to that item, and the
    call then fails with an AssertionError, in the generator that the
    functions before it have left. *)
Theorem a_list_is_lowered_up_to_its_first_non_function st st1 fs x rest :
  is_FunctionDefinition x = false ->
  generate_code (PyList fs) st = (st1, Ok tt) ->
  generate_code (PyList (fs ++ x :: rest)) st = (st1, Raise AssertionError).
Proof.
  intros Hx H. unfold generate_code in *. rewrite forM__app.
  unfold bind at 1. rewrite H. simpl. rewrite Hx. reflexivity.
Qed.

Lemma a_list_is_lowered_up_to_its_first_non_function_witness :
  generate_code (PyList ([FunctionDefinition (id_of "f") [id_of "a"] (Block [] [])]
                           ++ Block [] [] :: []))
    shell0
  = ((generate_code define_f shell0).1, Raise AssertionError).
Proof.
  apply (a_list_is_lowered_up_to_its_first_non_function shell0).
  - reflexivity.
  - vm_compute. reflexivity.
Defined.

(** ** The JSON dump of a tree *)

Lemma rbind_Ok {A B} (r : Result A) (k : A -> Result B) b :
  rbind r k = Ok b -> exists a, r = Ok a /\ k a = Ok b.
Proof. destruct r as [a|e]; simpl; [eauto | discriminate]. Qed.

Lemma mapR_map_ext {A B} (f : A -> Result B) (g : A -> A) l :
  Forall (fun x => f (g x) = f x) l -> mapR f (map g l) = mapR f l.
Proof.
  induction 1 as [|x l Hx _ IH]; simpl; [reflexivity|]. rewrite Hx, IH. reflexivity.
Qed.

Lemma ID_to_json_unflag l : map ID_to_json (map unflag_ID l) = map ID_to_json l.
Proof. rewrite map_map. reflexivity. Qed.

(** The dump does not show the flags. *)
Lemma to_json_unflag node : to_json (unflag node) = to_json node.
Proof.
  induction node using obj_ind'; simpl; try reflexivity;
    rewrite ?ID_to_json_unflag, ?mapR_map_ext by assumption;
    rewrite ?IHnode, ?IHnode1, ?IHnode2; try reflexivity.
  - (* IfStatement *)
    rewrite IHnode3. destruct node3; reflexivity.
  - (* FunctionCall *)
    destruct a as [l|]; simpl; [|reflexivity].
    rewrite mapR_map_ext by assumption. reflexivity.
Qed.

Lemma to_json_is_a_dict node j : to_json node = Ok j -> exists l, j = JObject l.
Proof.
  destruct node; simpl; try discriminate; intros H;
    repeat match goal with
           | H : rbind _ _ = Ok _ |- _ => apply rbind_Ok in H as (? & ? & H)
           | H : match ?a with Some _ => _ | None => _ end = Ok _ |- _ =>
               destruct a; [|discriminate]
           end;
    injection H as <-; eauto.
Qed.

Lemma ID_to_json_inj l1 : forall l2,
  map ID_to_json l1 = map ID_to_json l2 -> map unflag_ID l1 = map unflag_ID l2.
Proof.
  induction l1 as [|x l1 IH]; intros [|y l2]; simpl; try discriminate; [reflexivity|].
  intros [= Hx Hl]. unfold unflag_ID at 1 3. rewrite Hx. f_equal. apply IH, Hl.
Qed.

Lemma mapR_to_json_inj l1 :
  Forall (fun x => forall n2 j, to_json x = Ok j -> to_json n2 = Ok j
                                -> unflag x = unflag n2) l1 ->
  forall l2 js, mapR to_json l1 = Ok js -> mapR to_json l2 = Ok js ->
                map unflag l1 = map unflag l2.
Proof.
  induction 1 as [|x l1 Hx _ IH]; intros [|y l2] js; simpl; intros H1 H2.
  - reflexivity.
  - injection H1 as <-.
    apply rbind_Ok in H2 as (? & _ & H2). apply rbind_Ok in H2 as (? & _ & H2).
    discriminate.
  - injection H2 as <-.
    apply rbind_Ok in H1 as (? & _ & H1). apply rbind_Ok in H1 as (? & _ & H1).
    discriminate.
  - apply rbind_Ok in H1 as (a & Ha & H1). apply rbind_Ok in H1 as (l & Hl & H1).
    apply rbind_Ok in H2 as (a' & Ha' & H2). apply rbind_Ok in H2 as (l' & Hl' & H2).
    injection H1 as <-. injection H2 as -> ->. f_equal; eauto.
Qed.

Ltac inv_json H :=
  repeat match type of H with
         | rbind _ _ = Ok _ =>
             let a := fresh "a" in
             let E := fresh "E" in
             apply rbind_Ok in H as (a & E & H)
         | match ?a with Some _ => _ | None => _ end = Ok _ =>
             destruct a; [|discriminate H]
         end.

Lemma else_block_dump b j :
  match b with PyNone => Ok JNull | _ => to_json b end = Ok j ->
  b = PyNone /\ j = JNull \/ to_json b = Ok j /\ j <> JNull.
Proof.
  destruct b; intros H; try (left; split; [reflexivity | congruence]);
    right; (split; [exact H|]);
    apply to_json_is_a_dict in H as [l ->]; discriminate.
Qed.

Lemma unflag_ID_eq a b : id_name a = id_name b -> unflag_ID a = unflag_ID b.
Proof. unfold unflag_ID. intros ->. reflexivity. Qed.

(** The dump determines the tree, flags apart. *)
Lemma to_json_inj n1 : forall n2 j,
  to_json n1 = Ok j -> to_json n2 = Ok j -> unflag n1 = unflag n2.
Proof.
  induction n1 using obj_ind'; intros n2 j H1 H2; simpl in H1; try discriminate;
    inv_json H1; injection H1 as <-;
    destruct n2; simpl in H2; try discriminate;
    inv_json H2; try discriminate; injection H2; intros; subst; simpl.
  all: try solve [f_equal; eauto using mapR_to_json_inj, ID_to_json_inj].
  - (* FunctionDefinition *)
    f_equal; [apply unflag_ID_eq | apply ID_to_json_inj | ]; eauto.
  - (* AssignStatement *)
    f_equal; [apply unflag_ID_eq | ]; eauto.
  - (* IfStatement *)
    f_equal; eauto.
    apply else_block_dump in E1 as [[-> ->]|[E1 Hn1]];
      apply else_block_dump in E4 as [[-> Hj]|[E4 Hn2]]; try congruence; eauto.
  - (* ID *)
    f_equal. apply unflag_ID_eq. congruence.
  - (* FunctionCall *)
    f_equal; [apply unflag_ID_eq | f_equal]; eauto using mapR_to_json_inj.
Qed.

(** X17. The JSON dump of a tree loses the unary-minus flags and nothing
    else: another tree has the same dump exactly when the two trees are
    equal up to their flags. *)
Theorem to_json_loses_only_the_flags n1 n2 j :
  to_json n1 = Ok j -> (to_json n2 = Ok j <-> unflag n1 = unflag n2).
Proof.
  intros H1. split.
  - apply to_json_inj, H1.
  - intros E. rewrite <- to_json_unflag, <- E, to_json_unflag. exact H1.
Qed.

Lemma to_json_loses_only_the_flags_witness :
  to_json (Number true 5%float) = Ok (JObject [("number", JFloat 5%float)])
  <-> unflag (Number false 5%float) = unflag (Number true 5%float).
Proof.
  apply (to_json_loses_only_the_flags (Number false 5%float) (Number true 5%float)).
  reflexivity.
Defined.

Lemma rbind_raises_l {A B} (r : Result A) (k : A -> Result B) :
  (exists e, r = Raise e) -> exists e, rbind r k = Raise e.
Proof. intros [e ->]. simpl. eauto. Qed.

Lemma rbind_raises_r {A B} (r : Result A) (k : A -> Result B) :
  (forall a, exists e, k a = Raise e) -> exists e, rbind r k = Raise e.
Proof. intros H. destruct r; simpl; eauto. Qed.

Lemma mapR_raises l :
  Forall (fun x => has_bare_call x = true -> exists e, to_json x = Raise e) l ->
  existsb has_bare_call l = true -> exists e, mapR to_json l = Raise e.
Proof.
  induction 1 as [|x l Hx _ IH]; simpl; [discriminate|].
  intros H. apply orb_prop in H as [H|H].
  - apply rbind_raises_l, Hx, H.
  - apply rbind_raises_r. intros ?. apply rbind_raises_l, IH, H.
Qed.

Lemma has_bare_call_raises node :
  has_bare_call node = true -> exists e, to_json node = Raise e.
Proof.
  induction node using obj_ind'; simpl; try discriminate; intros Hc;
    repeat match goal with
           | H : _ || _ = true |- _ => apply orb_prop in H as [H|H]
           end;
    try solve
      [ eauto using rbind_raises_l, mapR_raises
      | apply rbind_raises_r; intros ?; eauto using rbind_raises_l, mapR_raises
      | apply rbind_raises_r; intros ?; apply rbind_raises_r; intros ?;
        eauto using rbind_raises_l, mapR_raises ].
  - (* IfStatement, else_block *)
    apply rbind_raises_r. intros ?. apply rbind_raises_r. intros ?.
    apply rbind_raises_l. destruct node3; try discriminate; eauto.
  - (* FunctionCall *)
    destruct a as [l|]; [|eauto]. apply rbind_raises_l, mapR_raises; assumption.
Qed.

(** X18. The tree that the parser builds for a call without arguments cannot
    be dumped, nor can any tree that contains it: [to_json] iterates over
    the argument list, which is [None]. *)
Theorem a_call_without_arguments_cannot_be_dumped f :
  exists call,
    rbind (p_argument_list PyNone) (p_expression_function_call (PyStr f)) = Ok call
    /\ to_json call = Raise (TypeError "'NoneType' object is not iterable")
    /\ forall node, has_bare_call node = true -> exists e, to_json node = Raise e.
Proof.
  eexists. split; [reflexivity|]. split; [reflexivity|]. apply has_bare_call_raises.
Qed.

(** ** Unary minus in the parser's actions *)

(** X19. What the rule for unary minus hands on is [None], and the actions
    that build a statement or an expression around it refuse it: an
    assignment, a RETURN, an IF or WHILE test, the left operand of an
    operator and an argument of a call all fail with an AssertionError, and
    a second minus with an AttributeError. *)
Theorem a_negated_expression_is_refused e p :
  p_expression_uminus e = Ok p ->
  (forall x, p_assign_statement x p.2 = Raise AssertionError)
  /\ p_return_statement p.2 = Raise AssertionError
  /\ (forall b b', p_if_statement p.2 b b' = Raise AssertionError)
  /\ (forall b, p_while_statement p.2 b = Raise AssertionError)
  /\ (forall op r, p_expression_binop p.2 op r = Raise AssertionError)
  /\ (forall f l1 l2,
        p_expression_function_call f (PyList (l1 ++ p.2 :: l2)) = Raise AssertionError)
  /\ p_expression_uminus p.2 = Raise (AttributeError "change_minus_flag").
Proof.
  intros H. apply uminus_yields_None in H. rewrite H. repeat split.
  - intros x. unfold p_assign_statement. destruct x; try reflexivity.
  - intros b [b'|]; reflexivity.
  - intros f l1 l2. unfold p_expression_function_call.
    destruct f; try reflexivity. simpl.
    unfold assert_only_contains, only_contains. simpl.
    assert (E : forallb is_Expression (l1 ++ PyNone :: l2) = false).
    { rewrite forallb_app. simpl. apply andb_false_r. }
    destruct l1; simpl in *; rewrite ?E; reflexivity.
Qed.

Lemma a_negated_expression_is_refused_witness :
  p_assign_statement (PyStr "x") PyNone = Raise AssertionError.
Proof.
  destruct (a_negated_expression_is_refused (Number false 1%float)
              (Number true 1%float, PyNone)) as [H _].
  - reflexivity.
  - exact (H (PyStr "x")).
Defined.

Lemma always_raises_bind {A B} (m : M A) (k : A -> M B) :
  (forall a, always_raises (k a)) -> always_raises (bind m k).
Proof.
  intros Hk st. unfold bind. destruct (m st) as [st1 [a|e]]; [apply Hk | eauto].
Qed.

Lemma always_raises_bind_l {A B} (m : M A) (k : A -> M B) :
  always_raises m -> always_raises (bind m k).
Proof.
  intros Hm st. unfold bind. destruct (Hm st) as (st' & e & ->). eauto.
Qed.

Lemma mapM_None l1 l2 : always_raises (mapM _codegen (l1 ++ PyNone :: l2)).
Proof.
  induction l1 as [|x l1 IH]; simpl.
  - apply always_raises_bind_l. intros st. eexists _, _. reflexivity.
  - apply always_raises_bind. intros y. apply always_raises_bind_l, IH.
Qed.

(** X20. Where [None] is accepted in place of a negated expression, as the
    right operand of an operator and as an item of PRINT, the generator
    fails on it: lowering such a tree always raises. *)
Theorem a_negated_operand_is_never_lowered :
  (forall flag l op, always_raises (_codegen (BinaryOperation flag l op PyNone)))
  /\ (forall l1 l2, always_raises (_codegen (PrintStatement (l1 ++ PyNone :: l2)))).
Proof.
  split.
  - intros flag l op. simpl. unfold _codegen_BinaryOperation.
    apply always_raises_bind. intros lhs.
    apply always_raises_bind_l. intros st. eexists _, _. reflexivity.
  - intros l1 l2. simpl. unfold _codegen_PrintStatement. cbv zeta.
    do 6 (apply always_raises_bind; intros ?).
    apply always_raises_bind_l, mapM_None.
Qed.

(** ** The shell and the lexer *)

(** X21. [predict_start] looks at characters where the lexer sees words: a
    block that starts with an identifier beginning with FUNC is announced as
    a list of functions, although the lexer reads an ID there, and a
    function definition after a blank as a block, although the lexer
    ignores the blank. *)
Theorem predict_start_disagrees_with_the_lexer (c : ascii) (rest code : string) :
  t_ID ("FUNC" ++ String c rest) = "ID"
  /\ predict_start (("FUNC" ++ String c rest) ++ code) = "function_list"
  /\ predict_start (String " " ("FUNC" ++ code)) = "block".
Proof. repeat split; reflexivity. Qed.

Lemma rfind_from_spec c l :
  rfind_from c l = (-1)%Z /\ c ∉ l
  \/ exists r : nat, rfind_from c l = Z.of_nat r /\ l !! r = Some c
                     /\ forall i, r < i -> l !! i <> Some c.
Proof.
  induction l as [|a l IH]; simpl.
  - left. split; [reflexivity | intros H; inversion H].
  - destruct IH as [[-> Hc]|(r & -> & Hr & Hlast)].
    + simpl. destruct (Ascii.eqb_spec a c) as [->|Hne].
      * right. exists 0. split; [reflexivity|]. split; [reflexivity|].
        intros [|i] Hi; [lia|]. simpl. intros H. apply Hc.
        eapply list_elem_of_lookup_2, H.
      * left. split; [reflexivity|]. intros H. apply elem_of_cons in H as [H|H]; auto.
    + right. exists (S r). destruct (Z.leb_spec 0 (Z.of_nat r)); [|lia].
      split; [lia|]. split; [exact Hr|].
      intros [|i] Hi; [lia|]. simpl. apply Hlast. lia.
Qed.

(** X22. The column of a token is one more than the number of characters
    between the token and the last newline before it, or the start of the
    input: those characters hold no newline, and the one before them is a
    newline. *)
Theorem find_column_counts_from_the_line_start _input lexpos :
  exists k : nat,
    find_column _input lexpos = (Z.of_nat k + 1)%Z
    /\ k <= lexpos
    /\ (forall i, lexpos - k <= i < lexpos ->
          list_ascii_of_string _input !! i <> Some "010"%char)
    /\ (k < lexpos ->
          list_ascii_of_string _input !! (lexpos - k - 1) = Some "010"%char).
Proof.
  unfold find_column, rfind. set (l := list_ascii_of_string _input).
  destruct (rfind_from_spec "010"%char (take lexpos l)) as [[-> Hc]|(r & -> & Hr & Hlast)].
  - exists lexpos. split; [lia|]. split; [lia|]. split; [|lia].
    intros i Hi H. apply Hc. apply (list_elem_of_lookup_2 _ i).
    rewrite lookup_take_lt by lia. exact H.
  - assert (Hlt : r < lexpos).
    { apply lookup_lt_Some in Hr. rewrite length_take in Hr. lia. }
    exists (lexpos - r - 1). split; [lia|]. split; [lia|]. split.
    + intros i Hi H. apply (Hlast i); [lia|]. rewrite lookup_take_lt by lia. exact H.
    + intros _. replace (lexpos - (lexpos - r - 1) - 1) with r by lia.
      rewrite lookup_take_lt in Hr by lia. exact Hr.
Qed.

(** X23. The shell's Q command does not quit: no command makes [_iscommand]
    exit or say good bye, and Q is accepted as a command that does
    nothing. *)
Theorem iscommand_never_exits command printed evaluate :
  (forall code, snd (_iscommand command printed evaluate) <> Exits code)
  /\ ~ In print_good_bye (fst (_iscommand command printed evaluate))
  /\ _iscommand "Q" printed evaluate = ([], Returns true).
Proof.
  assert (H : ~ In print_good_bye (fst (_iscommand command printed evaluate))
              /\ ((exists b, snd (_iscommand command printed evaluate) = Returns b)
                  \/ exists e, snd (_iscommand command printed evaluate) = Raises e)).
  { unfold _iscommand. simpl.
    repeat match goal with
           | |- context [String.eqb command ?s] => destruct (String.eqb command s); simpl
           end;
      try destruct printed; try destruct evaluate; simpl;
      (split; [simpl; intuition discriminate | eauto]). }
  destruct H as [Hl Hb]. split; [|split; [exact Hl | reflexivity]].
  intros code. destruct Hb as [[b ->]|[e ->]]; discriminate.
Qed.
